(** * Job scraper: ingestion-to-report pipeline (scraper.py)

    A shallow embedding of the core of [scraper.py]: the [JobPosting]
    record and its identity, the run-local deduplication loop, the
    [RelevanceScorer], the [SeenJobsDB] store over the JSON document it
    keeps, and the orchestration in [run]; further on, the command line
    of [run], the ordering and the bands of the report, and what the six
    scrapers build from the pages they are given.

    Python values are modelled as follows.
    - [str] is a list of Unicode code points ([N]); slicing and [len]
      count code points, as in Python.
    - Scores are floats in the source, but every summand is an integer
      of small magnitude, so the arithmetic is exact; they live in [Z].
    - The JSON document held by [SeenJobsDB.data] is a dynamically typed
      value ([pyval]); every subscript, [len], [in] and [.items()] on it
      can raise, and the model returns the exception.
    - Library functions whose tables are not part of the program
      ([hashlib.md5], [str.lower], [datetime.isoformat],
      [datetime.fromisoformat] and the table of the Unicode decimal
      digits) are the fields of the class [PyLib]. *)

From Stdlib Require Import String Ascii ZArith Lia.
From stdpp Require Import gmap list sorting.

Open Scope Z_scope.
Open Scope list_scope.

(** ** Strings *)

Definition char := N.
Definition str := list char.

(** ASCII literals: [u "ab"] is the Python string ['ab']. *)
Fixpoint u (s : string) : str :=
  match s with
  | EmptyString => []
  | String a r => N_of_ascii a :: u r
  end.

Arguments u : simpl never.

Definition EURO : str := [8364%N].
Definition BAR : str := u "|".
Definition SPACE : str := u " ".

(** Truthiness of a string: [if s] holds for the non-empty ones. *)
Definition truthy (s : str) : bool :=
  match s with [] => false | _ => true end.

Definition truthy_list {A} (l : list A) : bool :=
  match l with [] => false | _ => true end.

(** [s[:n]] for a non-negative literal [n]. *)
Definition slice_to (n : nat) (s : str) : str := take n s.

(** [needle in hay] on strings: [needle] occurs as a contiguous run. *)
Fixpoint starts_with (needle hay : str) : bool :=
  match needle, hay with
  | [], _ => true
  | _ :: _, [] => false
  | a :: needle', b :: hay' => (a =? b)%N && starts_with needle' hay'
  end.

Fixpoint str_in (needle hay : str) : bool :=
  starts_with needle hay ||
  match hay with
  | [] => false
  | _ :: hay' => str_in needle hay'
  end.

(** ** Data model *)

(** The entries of [match_reasons]; the source renders each as an
    f-string, the model keeps the constructor and its arguments. *)
Inductive reason :=
| TitleMatch (target : str)
| SeniorityMatch (indicator : str)
| Keywords (hits : nat) (first5 : list str)
| Location (loc : str)
| LocationExcluded (exc : str)
| TargetCompany (name : str)
| Salary (amount : Z)
| LowSalary (amount : Z)
| Negative (neg : str).

Record JobPosting := mkJobPosting {
  title : str;
  company : str;
  location : str;
  url : str;
  source : str;
  description : str;
  salary_info : str;
  date_posted : str;
  relevance_score : Z;
  match_reasons : list reason;
  job_id : str
}.

Definition set_job_id (j : JobPosting) (i : str) : JobPosting :=
  mkJobPosting (title j) (company j) (location j) (url j) (source j)
    (description j) (salary_info j) (date_posted j) (relevance_score j)
    (match_reasons j) i.

Definition set_score (j : JobPosting) (s : Z) (rs : list reason) : JobPosting :=
  mkJobPosting (title j) (company j) (location j) (url j) (source j)
    (description j) (salary_info j) (date_posted j) s rs (job_id j).

(** ** Dynamically typed values and exceptions *)

Inductive exn :=
| KeyError
| TypeError
| AttributeError
| ValueError
| JSONDecodeError
| UnicodeDecodeError
| OSError
| OverflowError.

Inductive result (A : Type) :=
| Ok (a : A)
| Raise (e : exn).

Arguments Ok {A} a.
Arguments Raise {A} e.

(** Sequencing: an exception ends the computation. *)
Definition bind {A B} (m : result A) (f : A -> result B) : result B :=
  match m with
  | Ok a => f a
  | Raise e => Raise e
  end.

Notation "'let*' x ':=' m 'in' k" := (bind m (fun x => k))
  (at level 10, x name, m at level 100, k at level 200, only parsing).
Notation "'let*' ' p ':=' m 'in' k" := (bind m (fun x => match x with p => k end))
  (at level 10, p pattern, m at level 100, k at level 200, only parsing).

(** What [json.load] can produce. JSON numbers are modelled by the
    integers (the scores the pipeline stores are integral); a [dict]
    keeps its items in insertion order. *)
#[local] Set Warnings "-register-all".
Inductive pyval :=
| PNone
| PBool (b : bool)
| PNum (z : Z)
| PStr (s : str)
| PList (l : list pyval)
| PDict (d : list (str * pyval)).
#[local] Set Warnings "register-all".

Definition key_eqb (a b : str) : bool := bool_decide (a = b).

Fixpoint dict_get (k : str) (d : list (str * pyval)) : option pyval :=
  match d with
  | [] => None
  | (k', v) :: r => if key_eqb k k' then Some v else dict_get k r
  end.

(** [d[k] = v]: an existing key keeps its place, a new one goes last. *)
Fixpoint dict_set (k : str) (v : pyval) (d : list (str * pyval)) : list (str * pyval) :=
  match d with
  | [] => [(k, v)]
  | (k', v') :: r => if key_eqb k k' then (k, v) :: r else (k', v') :: dict_set k v r
  end.

Definition dict_mem (k : str) (d : list (str * pyval)) : bool :=
  match dict_get k d with Some _ => true | None => false end.

(** [v[k]] for a string [k]. *)
Definition getitem (v : pyval) (k : str) : result pyval :=
  match v with
  | PDict d =>
      match dict_get k d with
      | Some x => Ok x
      | None => Raise KeyError
      end
  | _ => Raise TypeError
  end.

(** [v[k] = x] for a string [k]. *)
Definition setitem (v : pyval) (k : str) (x : pyval) : result pyval :=
  match v with
  | PDict d => Ok (PDict (dict_set k x d))
  | _ => Raise TypeError
  end.

(** [len(v)] *)
Definition py_len (v : pyval) : result Z :=
  match v with
  | PDict d => Ok (Z.of_nat (length d))
  | PList l => Ok (Z.of_nat (length l))
  | PStr s => Ok (Z.of_nat (length s))
  | _ => Raise TypeError
  end.

Definition is_str (k : str) (v : pyval) : bool :=
  match v with
  | PStr s => key_eqb k s
  | _ => false
  end.

(** [k in v] for a string [k]. *)
Definition py_contains (k : str) (v : pyval) : result bool :=
  match v with
  | PDict d => Ok (dict_mem k d)
  | PList l => Ok (existsb (is_str k) l)
  | PStr s => Ok (str_in k s)
  | _ => Raise TypeError
  end.

(** [v.items()] *)
Definition py_items (v : pyval) : result (list (str * pyval)) :=
  match v with
  | PDict d => Ok d
  | _ => Raise AttributeError
  end.

(** [v + n] for an integer [n]. *)
Definition py_add (v : pyval) (n : Z) : result pyval :=
  match v with
  | PNum z => Ok (PNum (z + n))
  | PBool b => Ok (PNum ((if b then 1 else 0) + n))
  | _ => Raise TypeError
  end.

(** A filter whose test can raise, as a comprehension does. *)
Fixpoint filterM {A} (f : A -> result bool) (l : list A) : result (list A) :=
  match l with
  | [] => Ok []
  | x :: r =>
      let* b := f x in
      let* r' := filterM f r in
      Ok (if b then x :: r' else r')
  end.

(** The outcome of a test, an exception counting as a failed test. *)
Definition test_passed (r : result bool) : bool :=
  match r with
  | Ok b => b
  | Raise _ => false
  end.

(** The state file: absent, unreadable (what [open] or [json.load]
    raised), or holding a JSON document. *)
Inductive file_state :=
| Missing
| Unreadable (e : exn)
| Document (v : pyval).

Inductive log_msg :=
| WarnCorrupted
| InfoCleaned (removed : Z) (days : Z).

(** Microseconds in [timedelta(days=1)]; instants are counted in
    microseconds from 1970-01-01T00:00:00. *)
Definition DAY : Z := 86400000000.

(** What [datetime.fromisoformat] returns: a naive datetime, or an
    aware one when the string carries a UTC offset. *)
Inductive datetime :=
| Naive (t : Z)
| Aware (t : Z) (utcoffset : Z).

(** The range of [datetime]: [datetime.min] is 0001-01-01T00:00:00,
    719162 days before 1970, and [datetime.max] is the last microsecond
    of 9999-12-31, 2932897 days after the start of 1970. *)
Definition DATETIME_MIN : Z := -719162 * DAY.
Definition DATETIME_END : Z := 2932897 * DAY.

Definition is_datetime (t : Z) : bool :=
  (DATETIME_MIN <=? t) && (t <? DATETIME_END).

(** A reading of the machine clock: a datetime, and none of the first
    thirty days of year 1, which no clock reads. *)
Definition is_reading (t : Z) : bool :=
  (DATETIME_MIN + 30 * DAY <=? t) && (t <? DATETIME_END).

(** The largest magnitude of [timedelta(days=...)]. *)
Definition MAX_DELTA_DAYS : Z := 999999999.

(** ** Library functions

    The functions of the Python library whose tables are not part of the
    program. [md5_hexdigest raw] stands for
    [hashlib.md5(raw.encode()).hexdigest()], [lower] for [str.lower],
    [isoformat] for [datetime.isoformat] on a naive instant,
    [fromisoformat] for [datetime.fromisoformat], [None] where Python
    raises [ValueError], and [decimal] for the decimal digit value of a
    code point ([unicodedata.decimal]), [None] for the code points that
    are no decimal digit: the table behind both [\d] of [re] on a [str]
    pattern and [int]. *)
Class PyLib := mkPyLib {
  md5_hexdigest : str -> str;
  lower : str -> str;
  isoformat : Z -> str;
  fromisoformat : str -> option datetime;
  decimal : char -> option Z
}.

Section Scraper.

Context {L : PyLib}.

(** The string that [__post_init__] hashes. *)
Definition raw_identity (t c l : str) : str := t ++ BAR ++ c ++ BAR ++ l.

(** [JobPosting.__post_init__] *)
Definition post_init (j : JobPosting) : JobPosting :=
  if truthy (job_id j) then j
  else set_job_id j (md5_hexdigest (raw_identity (title j) (company j) (url j))).

(** A posting as the adapters build it: [job_id], [relevance_score] and
    [match_reasons] take their defaults, then [__post_init__] runs. *)
Definition new_posting (t c loc l src desc sal date : str) : JobPosting :=
  post_init (mkJobPosting t c loc l src desc sal date 0 [] []).

(** The identity of a (title, company, url) triple. *)
Definition identity (t c l : str) : str :=
  job_id (new_posting t c [] l [] [] [] []).

(** Two distinct pre-hash strings with one digest. *)
Definition hash_collision (x y : str) : Prop :=
  x ≠ y ∧ md5_hexdigest x = md5_hexdigest y.

(** Exactly one of the three fields differs between the two triples. *)
Definition one_field_changed (t c l t' c' l' : str) : Prop :=
  (t ≠ t' ∧ c = c' ∧ l = l') ∨
  (t = t' ∧ c ≠ c' ∧ l = l') ∨
  (t = t' ∧ c = c' ∧ l ≠ l').

(** ** Deduplication (the loop in [run]) *)

Definition dedup_key (job : JobPosting) : str :=
  if truthy (url job) then url job else title job ++ BAR ++ company job.

Fixpoint dedup_loop (seen_urls : gset str) (unique_jobs all_jobs : list JobPosting)
  : list JobPosting :=
  match all_jobs with
  | [] => unique_jobs
  | job :: rest =>
      let key := dedup_key job in
      if decide (key ∈ seen_urls)
      then dedup_loop seen_urls unique_jobs rest
      else dedup_loop ({[key]} ∪ seen_urls) (unique_jobs ++ [job]) rest
  end.

Definition deduplicate (all_jobs : list JobPosting) : list JobPosting :=
  dedup_loop ∅ [] all_jobs.

(** The first occurrence of every key, read off the list from the left:
    the head stays, and its key is struck from what follows. *)
Fixpoint first_occurrences (l : list JobPosting) : list JobPosting :=
  match l with
  | [] => []
  | j :: r => j :: filter (λ x, dedup_key x ≠ dedup_key j) (first_occurrences r)
  end.

(** ** Configuration *)

Record Company := mkCompany {
  tc_name : str;
  tc_careers_url : str;
  tc_hq : option str
}.

(** The YAML document behind [Config._cfg], with the keys the pipeline
    reads. [target_companies] maps a category to its companies;
    [output.max_results_per_report] may be absent. *)
Record Config := mkConfig {
  profile_target_titles : list str;
  profile_positive_keywords : list str;
  profile_negative_keywords : list str;
  profile_min_relevance_score : Z;
  locations_include : list str;
  locations_exclude : list str;
  salary_seniority_indicators : list str;
  cfg_target_companies : list (str * list Company);
  output_max_results_per_report : option Z
}.

Definition target_titles (cfg : Config) : list str :=
  map lower (profile_target_titles cfg).
Definition positive_keywords (cfg : Config) : list str :=
  map lower (profile_positive_keywords cfg).
Definition negative_keywords (cfg : Config) : list str :=
  map lower (profile_negative_keywords cfg).
Definition min_score (cfg : Config) : Z := profile_min_relevance_score cfg.
Definition location_include (cfg : Config) : list str :=
  map lower (locations_include cfg).
Definition location_exclude (cfg : Config) : list str :=
  map lower (locations_exclude cfg).
Definition seniority_indicators (cfg : Config) : list str :=
  map lower (salary_seniority_indicators cfg).
Definition target_companies (cfg : Config) : list Company :=
  concat (map snd (cfg_target_companies cfg)).

(** ** The salary pattern
    [(\d{2,3})[.,]?(\d{3})?\s*(?:€|eur|euro)], searched with [re.search].

    [\d] matches every Unicode decimal digit (the pattern is a [str]
    and carries no [re.ASCII]) and [\s] the code points for which
    [str.isspace] holds. The matcher tries the alternatives in
    the order of the backtracking engine: three digits before two, the
    separator before its absence, the thousands group before its
    absence. *)

Definition is_digit (c : char) : bool :=
  match decimal c with Some _ => true | None => false end.

Definition is_space (c : char) : bool :=
  (((9 <=? c) && (c <=? 13)) || ((28 <=? c) && (c <=? 32)) ||
   (c =? 133) || (c =? 160) || (c =? 5760) ||
   ((8192 <=? c) && (c <=? 8202)) || (c =? 8232) || (c =? 8233) ||
   (c =? 8239) || (c =? 8287) || (c =? 12288))%N.

Definition is_sep (c : char) : bool := ((c =? 46) || (c =? 44))%N.

(** [(?:€|eur|euro)] at the head of [s]. *)
Definition match_currency (s : str) : bool :=
  starts_with EURO s || starts_with (u "eur") s || starts_with (u "euro") s.

(** [\s*(?:€|eur|euro)] at the head of [s]. *)
Fixpoint match_tail (s : str) : bool :=
  match_currency s ||
  match s with
  | c :: s' => is_space c && match_tail s'
  | [] => false
  end.

(** [(\d{3})?\s*(?:€|eur|euro)]; the result is group 2. *)
Definition match_group2 (s : str) : option (option str) :=
  let without := if match_tail s then Some None else None in
  match s with
  | a :: b :: c :: s' =>
      if is_digit a && is_digit b && is_digit c && match_tail s'
      then Some (Some [a; b; c])
      else without
  | _ => without
  end.

(** [[.,]?(\d{3})?\s*(?:€|eur|euro)] *)
Definition match_sep (s : str) : option (option str) :=
  match s with
  | c :: s' =>
      if is_sep c then
        match match_group2 s' with
        | Some g2 => Some g2
        | None => match_group2 s
        end
      else match_group2 s
  | [] => match_group2 s
  end.

(** The whole pattern anchored at the head of [s]; groups 1 and 2. *)
Definition match_here (s : str) : option (str * option str) :=
  match s with
  | a :: b :: s2 =>
      if is_digit a && is_digit b then
        let two :=
          match match_sep s2 with
          | Some g2 => Some ([a; b], g2)
          | None => None
          end in
        match s2 with
        | c :: s3 =>
            if is_digit c then
              match match_sep s3 with
              | Some g2 => Some ([a; b; c], g2)
              | None => two
              end
            else two
        | [] => two
        end
      else None
  | _ => None
  end.

(** [re.search]: the leftmost position at which the pattern matches. *)
Fixpoint re_search (s : str) : option (str * option str) :=
  match match_here s with
  | Some m => Some m
  | None =>
      match s with
      | [] => None
      | _ :: s' => re_search s'
      end
  end.

(** [int(s)] on a string of decimal digits, of any script. *)
Definition int (s : str) : Z :=
  fold_left (λ acc c, 10 * acc + default 0 (decimal c)) s 0.

(** ** Relevance scorer *)

(** The running [score] and [reasons] of [RelevanceScorer.score]. *)
Definition tally := (Z * list reason)%type.

Definition bump (d : Z) (r : reason) (t : tally) : tally :=
  (fst t + d, snd t ++ [r]).

(** Title match, with the seniority loop in the [else] of the [for]. *)
Definition title_step (cfg : Config) (title_lower : str) (t : tally) : tally :=
  match List.find (λ target, str_in target title_lower) (target_titles cfg) with
  | Some target => bump 35 (TitleMatch target) t
  | None =>
      match List.find (λ ind, str_in ind title_lower) (seniority_indicators cfg) with
      | Some ind => bump 15 (SeniorityMatch ind) t
      | None => t
      end
  end.

Definition keyword_step (cfg : Config) (text : str) (t : tally) : tally :=
  let kw_hits := List.filter (λ kw, str_in kw text) (positive_keywords cfg) in
  if truthy_list kw_hits then
    let kw_score := Z.min 30 (Z.of_nat (length kw_hits) * 5) in
    bump kw_score (Keywords (length kw_hits) (take 5 kw_hits)) t
  else t.

Definition location_step (cfg : Config) (loc_lower : str) (t : tally) : tally :=
  match List.find (λ loc, str_in loc loc_lower) (location_include cfg) with
  | Some loc => bump 20 (Location loc) t
  | None => t
  end.

(** The exclusion loop has no [break]: every matching phrase counts. *)
Definition exclusion_step (cfg : Config) (loc_lower : str) (t : tally) : tally :=
  fold_left
    (λ t exc, if str_in exc loc_lower then bump (-50) (LocationExcluded exc) t else t)
    (location_exclude cfg) t.

Definition company_hit (company_lower : str) (tc : Company) : bool :=
  str_in (lower (tc_name tc)) company_lower ||
  str_in company_lower (lower (tc_name tc)).

Definition company_step (cfg : Config) (company_lower : str) (t : tally) : tally :=
  match List.find (company_hit company_lower) (target_companies cfg) with
  | Some tc => bump 15 (TargetCompany (tc_name tc)) t
  | None => t
  end.

(** The amount rebuilt from the two groups. [int] cannot fail on the
    digits the pattern has matched, so the [except] branch is dead. *)
Definition salary_amount (g1 : str) (g2 : option str) : Z :=
  let amount := int g1 * (match g2 with None => 1000 | Some _ => 1 end) in
  match g2 with
  | Some g => int (g1 ++ g)
  | None => amount
  end.

Definition salary_step (salary_text : str) (t : tally) : tally :=
  match re_search salary_text with
  | Some (g1, g2) =>
      let amount := salary_amount g1 g2 in
      if 100000 <=? amount then bump 10 (Salary amount) t
      else if amount <? 60000 then bump (-20) (LowSalary amount) t
      else t
  | None => t
  end.

Definition negative_step (cfg : Config) (title_lower : str) (t : tally) : tally :=
  fold_left
    (λ t neg, if str_in neg title_lower then bump (-40) (Negative neg) t else t)
    (negative_keywords cfg) t.

Definition full_text (job : JobPosting) : str :=
  lower (title job ++ SPACE ++ company job ++ SPACE ++ description job
         ++ SPACE ++ location job).

Definition loc_text (job : JobPosting) : str :=
  lower (location job ++ SPACE ++ slice_to 500 (description job)).

Definition salary_text (job : JobPosting) : str :=
  lower (salary_info job ++ SPACE ++ slice_to 1000 (description job)).

(** The sum [score] holds just before the final clamp. *)
Definition score_tally (cfg : Config) (job : JobPosting) : tally :=
  let t : tally := (0, []) in
  let text := full_text job in
  let title_lower := lower (title job) in
  let t := title_step cfg title_lower t in
  let t := keyword_step cfg text t in
  let loc_lower := loc_text job in
  let t := location_step cfg loc_lower t in
  let t := exclusion_step cfg loc_lower t in
  let company_lower := lower (company job) in
  let t := company_step cfg company_lower t in
  let t := salary_step (salary_text job) t in
  negative_step cfg title_lower t.

(** [RelevanceScorer.score] *)
Definition score (cfg : Config) (job : JobPosting) : JobPosting :=
  let t := score_tally cfg job in
  set_score job (Z.max 0 (Z.min 100 (fst t))) (snd t).

(** *** The signals, one by one

    What each of the seven rules contributes, stated without the
    running tally. *)

Definition any_in (phrases : list str) (hay : str) : bool :=
  existsb (λ p, str_in p hay) phrases.

Definition count_in (phrases : list str) (hay : str) : Z :=
  Z.of_nat (length (List.filter (λ p, str_in p hay) phrases)).

Definition title_signal (cfg : Config) (job : JobPosting) : Z :=
  if any_in (target_titles cfg) (lower (title job)) then 35
  else if any_in (seniority_indicators cfg) (lower (title job)) then 15
  else 0.

Definition keyword_signal (cfg : Config) (job : JobPosting) : Z :=
  Z.min 30 (count_in (positive_keywords cfg) (full_text job) * 5).

Definition location_signal (cfg : Config) (job : JobPosting) : Z :=
  if any_in (location_include cfg) (loc_text job) then 20 else 0.

Definition exclusion_signal (cfg : Config) (job : JobPosting) : Z :=
  -50 * count_in (location_exclude cfg) (loc_text job).

Definition company_signal (cfg : Config) (job : JobPosting) : Z :=
  if existsb (company_hit (lower (company job))) (target_companies cfg)
  then 15 else 0.

Definition salary_signal (text : str) : Z :=
  match re_search text with
  | Some (g1, g2) =>
      if 100000 <=? salary_amount g1 g2 then 10
      else if salary_amount g1 g2 <? 60000 then -20
      else 0
  | None => 0
  end.

Definition negative_signal (cfg : Config) (job : JobPosting) : Z :=
  -40 * count_in (negative_keywords cfg) (lower (title job)).

Definition raw_sum (cfg : Config) (job : JobPosting) : Z :=
  title_signal cfg job + keyword_signal cfg job + location_signal cfg job
  + exclusion_signal cfg job + company_signal cfg job
  + salary_signal (salary_text job) + negative_signal cfg job.

(** ** Report generator *)

(** [jobs.sort(key=lambda j: j.relevance_score, reverse=True)]: a stable
    sort, highest score first; postings of equal score keep their
    order. *)
Fixpoint insert_by_score (x : JobPosting) (l : list JobPosting) : list JobPosting :=
  match l with
  | [] => [x]
  | y :: r =>
      if relevance_score x <? relevance_score y
      then y :: insert_by_score x r
      else x :: y :: r
  end.

Fixpoint sort_by_score (l : list JobPosting) : list JobPosting :=
  match l with
  | [] => []
  | x :: r => insert_by_score x (sort_by_score r)
  end.

(** [ReportGenerator.generate], as far as the list it renders. *)
Definition generate (jobs : list JobPosting) : list JobPosting :=
  sort_by_score jobs.

(** [l[:n]] for an integer [n] of either sign. *)
Definition py_slice_to {A} (n : Z) (l : list A) : list A :=
  if 0 <=? n then take (Z.to_nat n) l
  else take (length l - Z.to_nat (- n))%nat l.

(** ** Seen jobs database *)

Definition empty_stats : pyval :=
  PDict [(u "total_seen", PNum 0); (u "total_reported", PNum 0)].

Definition empty_data : pyval :=
  PDict [(u "seen", PDict []); (u "last_run", PNone); (u "stats", empty_stats)].

(** [SeenJobsDB._load] *)
Definition _load (file : file_state) : result (pyval * list log_msg) :=
  match file with
  | Missing => Ok (empty_data, [])
  | Document v => Ok (v, [])
  | Unreadable JSONDecodeError | Unreadable KeyError => Ok (empty_data, [WarnCorrupted])
  | Unreadable e => Raise e
  end.

(** [datetime.fromisoformat(v)] on a dynamically typed argument. *)
Definition py_fromisoformat (v : pyval) : result datetime :=
  match v with
  | PStr s =>
      match fromisoformat s with
      | Some dt => Ok dt
      | None => Raise ValueError
      end
  | _ => Raise TypeError
  end.

(** [dt > cutoff] for the naive [cutoff]: an aware and a naive datetime
    cannot be ordered. *)
Definition py_later (dt : datetime) (cutoff : Z) : result bool :=
  match dt with
  | Naive t => Ok (cutoff <? t)
  | Aware _ _ => Raise TypeError
  end.

(** The test of the comprehension in [cleanup]. *)
Definition fresh_enough (cutoff : Z) (item : str * pyval) : result bool :=
  let* fs := getitem (snd item) (u "first_seen") in
  let* dt := py_fromisoformat fs in
  py_later dt cutoff.

(** [datetime.now() - timedelta(days=days)]: the constructor raises
    beyond [MAX_DELTA_DAYS], the subtraction when the result is no
    datetime. [now] stands for a reading of the clock; on the other
    values of [now], which [datetime.now()] does not return, the
    difference is taken as it is. *)
Definition cutoff_of (now days : Z) : result Z :=
  if MAX_DELTA_DAYS <? Z.abs days then Raise OverflowError
  else if is_reading now && negb (is_datetime (now - days * DAY))
  then Raise OverflowError
  else Ok (now - days * DAY).

(** [SeenJobsDB.cleanup]; [now] is what [datetime.now()] returns. *)
Definition cleanup (now days : Z) (data : pyval) : result (pyval * list log_msg) :=
  let* cutoff := cutoff_of now days in
  let* seen := getitem data (u "seen") in
  let* before := py_len seen in
  let* items := py_items seen in
  let* kept := filterM (fresh_enough cutoff) items in
  let* data' := setitem data (u "seen") (PDict kept) in
  let removed := before - Z.of_nat (length kept) in
  Ok (data', if removed =? 0 then [] else [InfoCleaned removed days]).

(** [SeenJobsDB.is_new] *)
Definition is_new (data : pyval) (job : JobPosting) : result bool :=
  let* seen := getitem data (u "seen") in
  let* b := py_contains (job_id job) seen in
  Ok (negb b).

Definition seen_record (now : Z) (job : JobPosting) : pyval :=
  PDict [(u "title", PStr (title job));
         (u "company", PStr (company job));
         (u "first_seen", PStr (isoformat now));
         (u "score", PNum (relevance_score job))].

(** [SeenJobsDB.mark_seen] *)
Definition mark_seen (now : Z) (data : pyval) (job : JobPosting) : result pyval :=
  let* seen := getitem data (u "seen") in
  let* seen' := setitem seen (job_id job) (seen_record now job) in
  setitem data (u "seen") seen'.

(** [SeenJobsDB.update_stats] *)
Definition update_stats (data : pyval) (new_count : Z) : result pyval :=
  let* has := py_contains (u "stats") data in
  let* data := (if has then Ok data else setitem data (u "stats") empty_stats) in
  let* seen := getitem data (u "seen") in
  let* n := py_len seen in
  let* stats := getitem data (u "stats") in
  let* stats := setitem stats (u "total_seen") (PNum n) in
  let* data := setitem data (u "stats") stats in
  let* reported := getitem stats (u "total_reported") in
  let* reported := py_add reported new_count in
  let* stats := setitem stats (u "total_reported") reported in
  setitem data (u "stats") stats.

(** [SeenJobsDB.save]: the document and the file it leaves behind. *)
Definition save (now : Z) (data : pyval) : result (pyval * file_state) :=
  let* data := setitem data (u "last_run") (PStr (isoformat now)) in
  Ok (data, Document data).

(** ** Orchestrator *)

(** The [for job in new_jobs: seen_db.mark_seen(job)] loop; the [i]-th
    call of [datetime.now()] in the run returns [clk i]. *)
Fixpoint mark_all (clk : nat -> Z) (i : nat) (data : pyval) (jobs : list JobPosting)
  : result pyval :=
  match jobs with
  | [] => Ok data
  | job :: rest =>
      let* data := mark_seen (clk i) data job in
      mark_all clk (S i) data rest
  end.

Record run_result := mkRunResult {
  new_jobs : list JobPosting;
  report : list JobPosting;
  final_data : pyval;
  final_file : file_state;
  logs : list log_msg
}.

Definition max_results (cfg : Config) : Z :=
  default 50 (output_max_results_per_report cfg).

(** [run] without [--dry-run], [--reset] or an unknown [--source];
    [all_jobs] is what the active scrapers returned, in order. *)
Definition run (cfg : Config) (clk : nat -> Z) (file : file_state)
    (all_jobs : list JobPosting) : result run_result :=
  let* '(data, log1) := _load file in
  let* '(data, log2) := cleanup (clk 0%nat) 30 data in
  let unique_jobs := deduplicate all_jobs in
  let scored_jobs := map (score cfg) unique_jobs in
  let relevant_jobs :=
    List.filter (λ j, min_score cfg <=? relevance_score j) scored_jobs in
  let* new_jobs := filterM (is_new data) relevant_jobs in
  let* data := mark_all clk 1 data new_jobs in
  let* data := update_stats data (Z.of_nat (length new_jobs)) in
  let* '(data, file') := save (clk (S (length new_jobs))) data in
  let report_jobs := py_slice_to (max_results cfg) new_jobs in
  Ok (mkRunResult new_jobs (generate report_jobs) data file' (log1 ++ log2)).

(** The scheduled runs, one after the other, each reading the state
    file the one before has left. *)
Fixpoint run_all (file : file_state)
    (runs : list (Config * (nat -> Z) * list JobPosting)) : result file_state :=
  match runs with
  | [] => Ok file
  | (cfg, clk, all_jobs) :: rest =>
      let* r := run cfg clk file all_jobs in
      run_all (final_file r) rest
  end.

(** ** Views of the stored document *)

(** The instant recorded in a seen entry, when it has one that parses. *)
Definition first_seen_of (v : pyval) : option Z :=
  match getitem v (u "first_seen") with
  | Ok (PStr s) =>
      match fromisoformat s with
      | Some (Naive t) => Some t
      | _ => None
      end
  | _ => None
  end.

(** The seen map of a document of the persisted layout. *)
Definition seen_of (data : pyval) : option (list (str * pyval)) :=
  match getitem data (u "seen") with
  | Ok (PDict seen) => Some seen
  | _ => None
  end.

(** The first_seen stored under an identity, when there is an entry
    with one that parses to a naive datetime. *)
Definition seen_time (data : pyval) (k : str) : option Z :=
  match seen_of data with
  | Some seen =>
      match dict_get k seen with
      | Some rec => first_seen_of rec
      | None => None
      end
  | None => None
  end.

(** A document on which every store operation succeeds: a dict whose
    "seen" is a dict of entries with a readable first_seen, and whose
    "stats" is a dict with a numeric total_reported. *)
Definition well_formed (data : pyval) : Prop :=
  ∃ d seen st n,
    data = PDict d
    ∧ dict_get (u "seen") d = Some (PDict seen)
    ∧ Forall (λ kv, is_Some (first_seen_of kv.2)) seen
    ∧ dict_get (u "stats") d = Some (PDict st)
    ∧ dict_get (u "total_reported") st = Some (PNum n).

(** Whether [cleanup] keeps an entry: its first_seen lies after the
    cutoff. *)
Definition kept_by (cutoff : Z) (kv : str * pyval) : bool :=
  match first_seen_of kv.2 with
  | Some t => cutoff <? t
  | None => false
  end.

(** The seen map after the marking loop of [run], started at call [i]
    of the clock. *)
Fixpoint marks (clk : nat -> Z) (i : nat) (seen : list (str * pyval))
    (jobs : list JobPosting) : list (str * pyval) :=
  match jobs with
  | [] => seen
  | job :: rest =>
      marks clk (S i) (dict_set (job_id job) (seen_record (clk i) job) seen) rest
  end.

(** The seen map holds an entry under [k] whose first_seen satisfies [Q]. *)
Definition recorded (Q : Z -> Prop) (k : str) (seen : list (str * pyval)) : Prop :=
  ∃ rec t, (k, rec) ∈ seen ∧ first_seen_of rec = Some t ∧ Q t.

(** The state a run leaves behind: a well-formed document whose seen map
    holds [k] with a first_seen satisfying [Q]. *)
Definition remembers (Q : Z → Prop) (k : str) (file : file_state) : Prop :=
  ∃ dF seen,
    file = Document (PDict dF)
    ∧ well_formed (PDict dF)
    ∧ dict_get (u "seen") dF = Some (PDict seen)
    ∧ recorded Q k seen.

(** The postings of a run that clear the threshold, before the novelty
    filter. *)
Definition relevant_jobs (cfg : Config) (all_jobs : list JobPosting) : list JobPosting :=
  List.filter (λ j, min_score cfg <=? relevance_score j)
    (map (score cfg) (deduplicate all_jobs)).

(** ** The salary pattern, declaratively *)








(** ** Further operations of the source *)

(** [SeenJobsDB.reset]: a fresh document, saved at once. *)
Definition reset (now : Z) : result (pyval * file_state) :=
  save now empty_data.

(** What the rule behind a reason has added to the score when it
    appended that reason. *)
Definition reason_contribution (r : reason) : Z :=
  match r with
  | TitleMatch _ => 35
  | SeniorityMatch _ => 15
  | Keywords hits _ => Z.min 30 (Z.of_nat hits * 5)
  | Location _ => 20
  | LocationExcluded _ => -50
  | TargetCompany _ => 15
  | Salary _ => 10
  | LowSalary _ => -20
  | Negative _ => -40
  end.

(** The rule of [RelevanceScorer.score], in source order, that appends
    a reason. *)
Definition rule_no (r : reason) : nat :=
  match r with
  | TitleMatch _ | SeniorityMatch _ => 1
  | Keywords _ _ => 2
  | Location _ => 3
  | LocationExcluded _ => 4
  | TargetCompany _ => 5
  | Salary _ | LowSalary _ => 6
  | Negative _ => 7
  end.

Definition is_title_reason (r : reason) : bool :=
  match r with
  | TitleMatch _ | SeniorityMatch _ => true
  | _ => false
  end.

(** The sum of what the rules behind a list of reasons have added. *)
Definition total_contribution (rs : list reason) : Z :=
  foldr (λ r acc, reason_contribution r + acc) 0 rs.

(** Reasons in the order of their rules. *)
Definition by_rule : relation reason := λ a b, (rule_no a ≤ rule_no b)%nat.

(** A tally as the rules build it: from the empty one, by steps that add
    a reason together with its contribution, the rules in source order
    and the title rule at most once. The index is the rule of the last
    step. *)
Inductive built : nat -> tally -> Prop :=
| built_start : built 0 (0, [])
| built_step (n : nat) (t : tally) (r : reason) :
    built n t ->
    (n ≤ rule_no r)%nat ->
    (rule_no r = 1%nat -> n = 0%nat) ->
    built (rule_no r) (bump (reason_contribution r) r t).

(** A rule either leaves the tally alone or takes one [built] step. *)
Definition rule_step (k : nat) (f : tally -> tally) : Prop :=
  forall t, f t = t
       \/ exists r, rule_no r = k /\ f t = bump (reason_contribution r) r t.

(** Highest score first. *)
Definition by_score : relation JobPosting :=
  λ a b, relevance_score b ≤ relevance_score a.

(** The colour of the score badge in [_build_html]. *)
Definition score_color (job : JobPosting) : str :=
  if 70 <=? relevance_score job then u "#16a34a"
  else if 50 <=? relevance_score job then u "#ca8a04"
  else u "#94a3b8".

(** The marker of a posting in [_build_markdown]: a green, a yellow or a
    white circle (U+1F7E2, U+1F7E1, U+26AA). *)
Definition emoji (job : JobPosting) : str :=
  if 70 <=? relevance_score job then [128994%N]
  else if 50 <=? relevance_score job then [128993%N]
  else [9898%N].

(** The "high relevance" figure both renderers print. *)
Definition high_relevance (jobs : list JobPosting) : nat :=
  length (List.filter (λ j, 70 <=? relevance_score j) jobs).

(** *** The command line of [run] *)

Record Args := mkArgs {
  dry_run : bool;
  reset_flag : bool;
  source_arg : option str
}.

(** The keys of the [scrapers] dict, in its order. *)
Definition SCRAPERS : list str :=
  [u "linkedin"; u "indeed"; u "stepstone"; u "careers"; u "startups"; u "remote"].

(** The loop over the active scrapers: [scrape name] is what
    [scraper_cls(session, cfg).scrape()] does for the scraper [name],
    and a scraper that raises adds nothing. *)
Fixpoint collect (scrape : str -> result (list JobPosting))
    (all_jobs : list JobPosting) (active : list str) : list JobPosting :=
  match active with
  | [] => all_jobs
  | name :: rest =>
      match scrape name with
      | Ok jobs => collect scrape (all_jobs ++ jobs) rest
      | Raise _ => collect scrape all_jobs rest
      end
  end.

(** How [run] ends: by one of its early [return]s, leaving the state
    file as given, or after the report. *)
Inductive outcome :=
| Returned (file : file_state)
| Completed (r : run_result).

(** The scrapers [run] goes through: all of them, the one named by
    [--source], or none when that name is unknown. *)
Definition active_scrapers (args : Args) : option (list str) :=
  match source_arg args with
  | Some src =>
      if truthy src then
        if bool_decide (src ∈ SCRAPERS) then Some [src] else None
      else Some SCRAPERS
  | None => Some SCRAPERS
  end.

(** [run(args)], with the configuration already loaded. The store is
    loaded after the [--dry-run] exit and cleaned after the [--reset]
    exit; from there on the source is [run] above, applied to what the
    active scrapers return. *)
Definition run_args (args : Args) (cfg : Config) (clk : nat -> Z)
    (file : file_state) (scrape : str -> result (list JobPosting))
  : result outcome :=
  if dry_run args then Ok (Returned file)
  else if reset_flag args then
    let* '(_, _) := _load file in
    let* '(_, file') := reset (clk 0%nat) in
    Ok (Returned file')
  else
    match active_scrapers args with
    | None =>
        let* '(data, _) := _load file in
        let* '(_, _) := cleanup (clk 0%nat) 30 data in
        Ok (Returned file)
    | Some active =>
        let* r := run cfg clk file (collect scrape [] active) in
        Ok (Completed r)
    end.

(** ** Scrapers

    What a scraper does with the elements its selectors have found. The
    requests and the HTML parsing are inputs: a page is what
    [session.get] and [BeautifulSoup] gave for a query, a card is what
    [select_one] and [get_text(strip=True)] gave for one result, each
    field [None] when the element or the attribute is absent. *)

Record card := mkCard {
  c_title : option str;
  c_company : option str;
  c_location : option str;
  c_href : option str;
  c_salary : option str;
  c_datetime : option str
}.

(** A card, or an exception while its elements were looked up. *)
Inductive card_outcome :=
| CardRaises
| Card (c : card).

(** The response to one request, or an exception on the way to it. *)
Inductive page :=
| FetchRaises
| Page (status : Z) (cards : list card_outcome).

(** [href.split("?")[0]] *)
Fixpoint before_query (href : str) : str :=
  match href with
  | [] => []
  | c :: rest => if (c =? 63)%N then [] else c :: before_query rest
  end.

(** [if href.startswith("/"): href = prefix + href] *)
Definition absolutise (prefix href : str) : str :=
  if starts_with (u "/") href then prefix ++ href else href.

(** [s.lstrip("/")] and [s.rstrip("/")] *)
Fixpoint lstrip_slash (s : str) : str :=
  match s with
  | [] => []
  | c :: rest => if (c =? 47)%N then lstrip_slash rest else s
  end.

Definition rstrip_slash (s : str) : str := reverse (lstrip_slash (reverse s)).

Definition GERMANY : str := u "Germany".

(** The posting [LinkedInScraper] builds from a card. *)
Definition linkedin_build (c : card) : option JobPosting :=
  match c_title c, c_company c with
  | Some t, Some co =>
      Some (new_posting t co (default GERMANY (c_location c))
              (match c_href c with
               | Some href => if truthy href then before_query href else []
               | None => []
               end)
              (u "LinkedIn") [] [] (default [] (c_datetime c)))
  | _, _ => None
  end.

(** The posting [IndeedScraper] builds from a card. *)
Definition indeed_build (c : card) : option JobPosting :=
  match c_title c, c_company c with
  | Some t, Some co =>
      Some (new_posting t co (default GERMANY (c_location c))
              (absolutise (u "https://de.indeed.com") (default [] (c_href c)))
              (u "Indeed") [] (default [] (c_salary c)) [])
  | _, _ => None
  end.

(** The posting [StepStoneScraper] builds from a card. *)
Definition stepstone_build (c : card) : option JobPosting :=
  match c_title c with
  | Some t =>
      Some (new_posting t (default [] (c_company c))
              (default GERMANY (c_location c))
              (absolutise (u "https://www.stepstone.de") (default [] (c_href c)))
              (u "StepStone") [] [] [])
  | None => None
  end.

(** The posting [_scrape_berlin_startup_jobs] builds from a card; the
    link is the title element's own. *)
Definition berlin_build (c : card) : option JobPosting :=
  match c_title c with
  | Some t =>
      Some (new_posting t (default [] (c_company c)) (u "Berlin, Germany")
              (default [] (c_href c)) (u "BerlinStartupJobs") [] [] [])
  | None => None
  end.

(** The posting [_scrape_german_tech_jobs] builds from a card. *)
Definition german_build (c : card) : option JobPosting :=
  match c_title c with
  | Some t =>
      let href := default [] (c_href c) in
      Some (new_posting t (default [] (c_company c))
              (default GERMANY (c_location c))
              (if truthy href && negb (starts_with (u "http") href)
               then u "https://germantechjobs.de" ++ href else href)
              (u "GermanTechJobs") [] [] [])
  | None => None
  end.

(** The posting [RemoteJobScraper] builds from a row. *)
Definition remote_build (c : card) : option JobPosting :=
  match c_title c with
  | Some t =>
      Some (new_posting t (default [] (c_company c)) (u "Remote")
              (absolutise (u "https://remoteok.com") (default [] (c_href c)))
              (u "RemoteOK") [] [] [])
  | None => None
  end.

(** The loop over the cards of a page, each card in its own [try]: a
    card that raises is skipped. *)
Fixpoint cards_loop (build : card -> option JobPosting)
    (jobs : list JobPosting) (cards : list card_outcome) : list JobPosting :=
  match cards with
  | [] => jobs
  | CardRaises :: rest => cards_loop build jobs rest
  | Card c :: rest =>
      match build c with
      | Some j => cards_loop build (jobs ++ [j]) rest
      | None => cards_loop build jobs rest
      end
  end.

(** The loop over the queries, each query in its own [try]: a request
    that raises or is not answered with 200 adds nothing, and at most
    ten cards of a page are read. *)
Fixpoint queries_loop (build : card -> option JobPosting) (fetch : str -> page)
    (jobs : list JobPosting) (queries : list str) : list JobPosting :=
  match queries with
  | [] => jobs
  | q :: rest =>
      match fetch q with
      | FetchRaises => queries_loop build fetch jobs rest
      | Page status cards =>
          if status =? 200
          then queries_loop build fetch (cards_loop build jobs (take 10 cards)) rest
          else queries_loop build fetch jobs rest
      end
  end.

(** [LinkedInScraper.scrape], [IndeedScraper.scrape] and
    [StepStoneScraper.scrape]; [queries] is [cfg.search_queries]. *)
Definition linkedin_scrape (fetch : str -> page) (queries : list str) : list JobPosting :=
  queries_loop linkedin_build fetch [] (take 8 queries).

Definition indeed_scrape (fetch : str -> page) (queries : list str) : list JobPosting :=
  queries_loop indeed_build fetch [] (take 6 queries).

Definition stepstone_scrape (fetch : str -> page) (queries : list str) : list JobPosting :=
  queries_loop stepstone_build fetch [] (take 5 queries).

(** The loop over the cards of a page with no [try] of its own: the
    flag tells that a card has raised, and the postings are those built
    before it. *)
Fixpoint cards_strict (build : card -> option JobPosting)
    (jobs : list JobPosting) (cards : list card_outcome)
  : list JobPosting * bool :=
  match cards with
  | [] => (jobs, false)
  | CardRaises :: _ => (jobs, true)
  | Card c :: rest =>
      match build c with
      | Some j => cards_strict build (jobs ++ [j]) rest
      | None => cards_strict build jobs rest
      end
  end.

(** The loop of the startup boards and of RemoteOK, one [try] around
    all of it: the first exception ends the loop, and the function
    returns the postings built so far. *)
Fixpoint pages_strict (build : card -> option JobPosting) (cap : nat)
    (fetch : str -> page) (jobs : list JobPosting) (keys : list str)
  : list JobPosting :=
  match keys with
  | [] => jobs
  | k :: rest =>
      match fetch k with
      | FetchRaises => jobs
      | Page status cards =>
          if status =? 200 then
            let '(jobs', raised) := cards_strict build jobs (take cap cards) in
            if raised then jobs' else pages_strict build cap fetch jobs' rest
          else pages_strict build cap fetch jobs rest
      end
  end.

Definition BERLIN_CATEGORIES : list str :=
  [u "business"; u "management"; u "product"].

Definition GERMAN_QUERIES : list str :=
  [u "healthcare"; u "health"; u "pharma"; u "medical"; u "strategy";
   u "business development"].

(** [StartupJobBoardScraper]: the two boards, then [scrape]. *)
Definition _scrape_berlin_startup_jobs (fetch : str -> page) : list JobPosting :=
  pages_strict berlin_build 15 fetch [] BERLIN_CATEGORIES.

Definition _scrape_german_tech_jobs (fetch : str -> page) : list JobPosting :=
  pages_strict german_build 10 fetch [] GERMAN_QUERIES.

Definition startups_scrape (fetch_berlin fetch_german : str -> page) : list JobPosting :=
  _scrape_berlin_startup_jobs fetch_berlin ++ _scrape_german_tech_jobs fetch_german.

(** [RemoteJobScraper.scrape]: one page. *)
Definition remote_scrape (fetch : str -> page) : list JobPosting :=
  pages_strict remote_build 15 fetch [] [u "healthcare"].

(** *** Career pages *)

(** The response of a career page: the (href, text) of the elements the
    six selectors yield, in order. *)
Inductive careers_page :=
| CareersRaises
| CareersPage (status : Z) (links : list (str * str)).

Definition careers_source (name : str) : str :=
  u "Direct (" ++ name ++ u ")".

Definition careers_url (base href : str) : str :=
  if starts_with (u "http") href then href
  else rstrip_slash base ++ u "/" ++ lstrip_slash href.

(** The posting built from a link of a company page. *)
Definition careers_posting (company : Company) (link : str * str) : JobPosting :=
  new_posting link.2 (tc_name company) (default GERMANY (tc_hq company))
    (careers_url (tc_careers_url company) link.1)
    (careers_source (tc_name company)) [] [] [].

(** [text and len(text) > 5] *)
Definition link_ok (link : str * str) : bool :=
  truthy link.2 && (5 <? length link.2)%nat.

(** The loop over the links of one company page. *)
Fixpoint links_loop (company : Company) (found_links : gset str)
    (jobs : list JobPosting) (links : list (str * str)) : list JobPosting :=
  match links with
  | [] => jobs
  | link :: rest =>
      if link_ok link && negb (bool_decide (link.1 ∈ found_links))
      then
        links_loop company ({[link.1]} ∪ found_links)
          (jobs ++ [careers_posting company link]) rest
      else links_loop company found_links jobs rest
  end.

(** [CompanyCareersScraper.scrape] *)
Fixpoint careers_loop (fetch : Company -> careers_page)
    (jobs : list JobPosting) (companies : list Company) : list JobPosting :=
  match companies with
  | [] => jobs
  | company :: rest =>
      match fetch company with
      | CareersRaises => careers_loop fetch jobs rest
      | CareersPage status links =>
          if status =? 200
          then careers_loop fetch (links_loop company ∅ jobs links) rest
          else careers_loop fetch jobs rest
      end
  end.

Definition careers_scrape (fetch : Company -> careers_page) (cfg : Config)
  : list JobPosting :=
  careers_loop fetch [] (target_companies cfg).

(** The posting a card gives, if any, and the postings a page gives. *)
Definition card_built (build : card -> option JobPosting) (o : card_outcome)
  : option JobPosting :=
  match o with
  | Card c => build c
  | CardRaises => None
  end.

Definition page_jobs (build : card -> option JobPosting) (cap : nat) (p : page)
  : list JobPosting :=
  match p with
  | Page status cards =>
      if status =? 200 then omap (card_built build) (take cap cards) else []
  | FetchRaises => []
  end.

(** The first link of every href, read off the list from the left. *)
Fixpoint first_hrefs (links : list (str * str)) : list (str * str) :=
  match links with
  | [] => []
  | link :: rest => link :: filter (λ x, x.1 ≠ link.1) (first_hrefs rest)
  end.

(** The postings one company page gives. *)
Definition careers_page_jobs (company : Company) (p : careers_page)
  : list JobPosting :=
  match p with
  | CareersPage status links =>
      if status =? 200
      then careers_posting company <$> first_hrefs (List.filter link_ok links)
      else []
  | CareersRaises => []
  end.

(** A posting as every scraper leaves it: no description, no score, no
    reasons, and the identity computed by [__post_init__]. *)
Definition as_scraped (j : JobPosting) : Prop :=
  description j = []
  ∧ relevance_score j = 0
  ∧ match_reasons j = []
  ∧ job_id j = md5_hexdigest (raw_identity (title j) (company j) (url j)).

End Scraper.

(** ** A concrete library

    Stand-ins for the library functions, for running the model on
    inputs: [str.lower] on the ASCII letters, a digest that cannot
    collide, a codec of instants that round-trips, and a part of the
    table of decimal digits. *)

Definition ascii_lower_char (c : char) : char :=
  if ((65 <=? c) && (c <=? 90))%N then (c + 32)%N else c.

Definition ascii_lower (s : str) : str := map ascii_lower_char s.

Definition plain_digest (s : str) : str := u "md5:" ++ s.

Definition stamp (t : Z) : str :=
  if 0 <=? t then [0%N; Z.to_N t] else [1%N; Z.to_N (- t)].

Definition unstamp (s : str) : option datetime :=
  match s with
  | [0%N; n] => Some (Naive (Z.of_N n))
  | [1%N; n] => Some (Naive (- Z.of_N n))
  | [2%N; n] => Some (Aware (Z.of_N n) 0)
  | _ => None
  end.

(** The decimal digits of four scripts: ASCII, Arabic-Indic, Devanagari
    and fullwidth. *)
Definition sample_decimal (c : char) : option Z :=
  if ((48 <=? c) && (c <=? 57))%N then Some (Z.of_N c - 48)
  else if ((1632 <=? c) && (c <=? 1641))%N then Some (Z.of_N c - 1632)
  else if ((2406 <=? c) && (c <=? 2415))%N then Some (Z.of_N c - 2406)
  else if ((65296 <=? c) && (c <=? 65305))%N then Some (Z.of_N c - 65296)
  else None.

Definition sample_lib : PyLib :=
  mkPyLib plain_digest ascii_lower stamp unstamp sample_decimal.

(** ** Sample inputs *)

(** A posting as an adapter that fills in title, company and url
    builds it. *)
Definition posting (t c l : str) : JobPosting :=
  new_posting (L := sample_lib) t c (u "Germany") l (u "LinkedIn") [] [] [].

Definition sample_cfg : Config :=
  mkConfig [u "Strategy Manager"] [u "health"; u "pharma"; u "digital"]
    [u "intern"] 40 [u "Berlin"] [u "USA"] [u "senior"]
    [(u "scaleups", [mkCompany (u "Acme Health") (u "https://acme.example/jobs") None])]
    None.


(** A posting that clears the threshold of [sample_cfg], as scraped and
    as scored. *)
Definition acme_posting : JobPosting :=
  new_posting (L := sample_lib) (u "Strategy Manager") (u "Acme Health")
    (u "Berlin") (u "https://acme.example/jobs/7") (u "Direct (Acme Health)")
    [] [] [].

Definition acme_scored : JobPosting := score (L := sample_lib) sample_cfg acme_posting.

(** Two postings for a report of one: the first scores 0, the second 35. *)
Definition clerk_posting : JobPosting :=
  posting (u "Clerk") (u "Initech") (u "https://jobs.example/clerk").

Definition manager_posting : JobPosting :=
  posting (u "Strategy Manager") (u "Initech") (u "https://jobs.example/manager").

Definition top1_cfg : Config :=
  mkConfig [u "Strategy Manager"] [] [] 0 [] [] [] [] (Some 1).

(** Instants, in microseconds: the start of day [n], and a clock that
    starts there and advances by a microsecond per call. *)
Definition day (n : Z) : Z := n * DAY.

Definition clock_from (start : Z) : nat -> Z := λ i, start + Z.of_nat i.

(** A clock that advances by a day per call. *)
Definition slow_clock (start : Z) : nat -> Z := λ i, start + Z.of_nat i * DAY.

(** What a run returned, for runs that are known to return. *)
Definition returned (m : result run_result) : run_result :=
  match m with
  | Ok r => r
  | Raise _ => mkRunResult [] [] PNone Missing []
  end.

Definition stored (m : result pyval) : pyval :=
  match m with
  | Ok v => v
  | Raise _ => PNone
  end.

(** The store after [acme_scored] has been marked seen at instant [t]. *)
Definition store_marked_at (t : Z) : pyval :=
  stored (mark_seen (L := sample_lib) t empty_data acme_scored).

(** A run that marks two postings, on day 101 and on day 102. *)
Definition two_marks_run : run_result :=
  returned (run (L := sample_lib) top1_cfg (slow_clock (day 100)) Missing
              [clerk_posting; manager_posting]).

Definition manager_scored : JobPosting :=
  score (L := sample_lib) top1_cfg manager_posting.

(** The first run of the schedule: no state file yet, one posting. *)
Definition first_run : run_result :=
  returned (run (L := sample_lib) sample_cfg (clock_from (day 100)) Missing
              [acme_posting]).

(** A document whose only seen entry has no first_seen. *)
Definition broken_store : pyval :=
  PDict [(u "seen", PDict [(u "k", PDict [(u "title", PStr (u "Clerk"))])]);
         (u "last_run", PNone); (u "stats", empty_stats)].

(** A document whose only seen entry has a first_seen with a UTC
    offset. *)
Definition aware_store : pyval :=
  PDict [(u "seen", PDict [(u "k", PDict [(u "first_seen", PStr [2%N; 5%N])])]);
         (u "last_run", PNone); (u "stats", empty_stats)].

(** A posting with the text fields of [acme_posting] from another
    source. *)
Definition acme_elsewhere : JobPosting :=
  new_posting (L := sample_lib) (u "Strategy Manager") (u "Acme Health")
    (u "Berlin") (u "https://boards.example/acme/7") (u "StepStone")
    [] [] (u "2024-05-01").

(** A posting without a company, as StepStone builds it from a card
    without the company element. *)
Definition nameless_posting : JobPosting :=
  new_posting (L := sample_lib) (u "Clerk") [] (u "Germany")
    (u "https://www.stepstone.de/jobs/1") (u "StepStone") [] [] [].

(** A result card, and a site that fails on the query "b" only. *)
Definition sample_card : card :=
  mkCard (Some (u "Strategy Manager")) (Some (u "Initech")) None
    (Some (u "/rc/clk?jk=1")) None None.

Definition flaky_fetch (q : str) : page :=
  if decide (q = u "b") then FetchRaises else Page 200 [Card sample_card].

(** Command lines: a plain run and [--reset]. *)
Definition plain_args : Args := mkArgs false false None.
Definition reset_args : Args := mkArgs false true None.

(** Scrapers that all fail. *)
Definition failing_scrape (name : str) : result (list JobPosting) := Raise OSError.

(** * Properties *)

Section Properties.

Context {L : PyLib}.

(** ** Identity *)

Lemma identity_unfold t c l :
  identity t c l = md5_hexdigest (raw_identity t c l).
Proof. reflexivity. Qed.

Lemma new_posting_job_id t c loc l src desc sal date :
  job_id (new_posting t c loc l src desc sal date) = identity t c l.
Proof. reflexivity. Qed.

Lemma raw_identity_one_field t c l t' c' l' :
  one_field_changed t c l t' c' l' →
  raw_identity t c l ≠ raw_identity t' c' l'.
Proof.
  unfold raw_identity.
  intros [(Ht & -> & ->) | [(-> & Hc & ->) | (-> & -> & Hl)]] Heq.
  - apply Ht. by apply (app_inv_tail (BAR ++ c' ++ BAR ++ l')).
  - apply Hc.
    apply (app_inv_head (t' ++ BAR)), (app_inv_tail (BAR ++ l')).
    by rewrite <- !(assoc_L (++)).
  - apply Hl.
    apply (app_inv_head (t' ++ BAR ++ c' ++ BAR)).
    by rewrite <- !(assoc_L (++)).
Qed.

(** C9. Identity is deterministic and field-sensitive: the identity of a
    posting is a function of its (title, company, url) alone, whatever
    the other fields hold, so computing it twice gives the same value;
    and when exactly one of the three fields is changed, the identity
    changes unless the two pre-hash strings collide under the hash. *)
Theorem identity_deterministic_field_sensitive
    (t c l t' c' l' loc src desc sal date loc' src' desc' sal' date' : str) :
  one_field_changed t c l t' c' l' →
  job_id (new_posting t c loc l src desc sal date)
    = job_id (new_posting t c loc' l src' desc' sal' date')
  ∧ (identity t c l ≠ identity t' c' l'
     ∨ hash_collision (raw_identity t c l) (raw_identity t' c' l')).
Proof.
  intros Hch. split; [reflexivity |].
  destruct (decide (identity t c l = identity t' c' l')) as [He | Hne].
  - right. split; [by apply raw_identity_one_field | exact He].
  - by left.
Qed.

(** C10. The identity is the hash of the single string
    title|company|url: [__post_init__] fills an empty job_id with the
    digest of the three fields joined by '|' and leaves a given job_id
    alone. So two distinct triples can share an identity without any
    collision of the hash: ("a|b", "c", url) and ("a", "b|c", url) give
    the same pre-hash string, hence the same identity, for every url. *)
Theorem identity_separator_ambiguity (l : str) :
  (∀ t c w, raw_identity t c w = t ++ u "|" ++ c ++ u "|" ++ w)
  ∧ (∀ t c w, identity t c w = md5_hexdigest (t ++ u "|" ++ c ++ u "|" ++ w))
  ∧ (∀ t c loc w src desc sal date,
       job_id (new_posting t c loc w src desc sal date)
       = md5_hexdigest (t ++ u "|" ++ c ++ u "|" ++ w))
  ∧ (∀ j, job_id j = [] →
          job_id (post_init j)
          = md5_hexdigest (title j ++ u "|" ++ company j ++ u "|" ++ url j))
  ∧ (∀ j, job_id j ≠ [] → post_init j = j)
  ∧ (u "a|b", u "c", l) ≠ (u "a", u "b|c", l)
  ∧ u "a|b" ++ u "|" ++ u "c" ++ u "|" ++ l = u "a" ++ u "|" ++ u "b|c" ++ u "|" ++ l
  ∧ identity (u "a|b") (u "c") l = identity (u "a") (u "b|c") l
  ∧ ¬ hash_collision (raw_identity (u "a|b") (u "c") l)
        (raw_identity (u "a") (u "b|c") l).
Proof.
  split_and!.
  - reflexivity.
  - reflexivity.
  - reflexivity.
  - intros j Hj. unfold post_init. by rewrite Hj.
  - intros j Hj. unfold post_init. by destruct (job_id j).
  - discriminate.
  - reflexivity.
  - reflexivity.
  - intros [Hne _]. by apply Hne.
Qed.

(** ** Deduplication *)

Lemma filter_key_absorb (S : gset str) (k : str) (l : list JobPosting) :
  k ∈ S →
  filter (λ x, dedup_key x ∉ S) (filter (λ x, dedup_key x ≠ k) l)
  = filter (λ x, dedup_key x ∉ S) l.
Proof.
  intros Hk. induction l as [| x l IH]; [done |].
  rewrite !filter_cons.
  destruct (decide (dedup_key x ≠ k)) as [Hne | Heq].
  - rewrite filter_cons. destruct (decide (dedup_key x ∉ S)); by rewrite IH.
  - apply dec_stable in Heq. subst k.
    destruct (decide (dedup_key x ∉ S)) as [Hn | _]; [by destruct Hn | done].
Qed.

Lemma filter_key_insert (S : gset str) (k : str) (l : list JobPosting) :
  filter (λ x, dedup_key x ∉ {[k]} ∪ S) l
  = filter (λ x, dedup_key x ∉ S) (filter (λ x, dedup_key x ≠ k) l).
Proof.
  induction l as [| x l IH]; [done |].
  rewrite !filter_cons.
  destruct (decide (dedup_key x ≠ k)) as [Hne | Heq].
  - rewrite filter_cons.
    destruct (decide (dedup_key x ∉ S)) as [Hn | Hin].
    + rewrite decide_True; [by rewrite IH |].
      rewrite elem_of_union, elem_of_singleton. tauto.
    + rewrite decide_False; [exact IH |].
      rewrite elem_of_union. tauto.
  - apply dec_stable in Heq. rewrite decide_False; [exact IH |].
    rewrite elem_of_union, elem_of_singleton. tauto.
Qed.

(** The loop, started from any set and any prefix, appends the first
    occurrences whose key the set does not hold yet. *)
Lemma dedup_loop_spec (l : list JobPosting) :
  ∀ (S : gset str) (acc : list JobPosting),
    dedup_loop S acc l
    = acc ++ filter (λ x, dedup_key x ∉ S) (first_occurrences l).
Proof.
  induction l as [| j r IH]; intros S acc; simpl.
  - by rewrite app_nil_r.
  - rewrite filter_cons. destruct (decide (dedup_key j ∈ S)) as [Hin | Hnin].
    + rewrite decide_False by tauto.
      rewrite IH. by rewrite filter_key_absorb.
    + rewrite decide_True by done.
      rewrite IH, <- (assoc_L (++)). simpl. by rewrite filter_key_insert.
Qed.

Lemma deduplicate_first_occurrences (l : list JobPosting) :
  deduplicate l = first_occurrences l.
Proof.
  unfold deduplicate. rewrite dedup_loop_spec. simpl.
  induction (first_occurrences l) as [| x m IH]; [done |].
  rewrite filter_cons, decide_True by set_solver. by f_equal.
Qed.

Lemma first_occurrences_sublist (l : list JobPosting) :
  first_occurrences l `sublist_of` l.
Proof.
  induction l as [| j r IH]; simpl; [done |].
  apply sublist_skip. etrans; [apply sublist_filter | exact IH].
Qed.

Lemma first_occurrences_keys (l : list JobPosting) (k : str) :
  k ∈ dedup_key <$> first_occurrences l ↔ k ∈ dedup_key <$> l.
Proof.
  induction l as [| j r IH]; [done |]. cbn [first_occurrences].
  rewrite !fmap_cons, !elem_of_cons, <- IH, !list_elem_of_fmap.
  split.
  - intros [-> | (x & -> & Hx)]; [by left |].
    apply list_elem_of_filter in Hx as [_ Hx]. right. eauto.
  - intros [-> | (x & -> & Hx)]; [by left |].
    destruct (decide (dedup_key x = dedup_key j)) as [-> | Hne]; [by left |].
    right. exists x. split; [done |]. by apply list_elem_of_filter.
Qed.

Lemma first_occurrences_NoDup (l : list JobPosting) :
  NoDup (dedup_key <$> first_occurrences l).
Proof.
  induction l as [| j r IH]; [constructor |]. cbn [first_occurrences].
  rewrite fmap_cons. constructor.
  - rewrite list_elem_of_fmap. intros (x & Hk & Hx).
    apply list_elem_of_filter in Hx as [Hne _]. by apply Hne.
  - apply (sublist_NoDup _ (dedup_key <$> first_occurrences r)); [exact IH |].
    apply fmap_sublist, sublist_filter.
Qed.

Lemma filter_keeps_all {A} (P : A → Prop) `{∀ x, Decision (P x)} (l : list A) :
  Forall P l → filter P l = l.
Proof.
  induction 1 as [| x l Hx _ IH]; [done |].
  by rewrite filter_cons, decide_True, IH.
Qed.

Lemma first_occurrences_fixed (l : list JobPosting) :
  NoDup (dedup_key <$> l) → first_occurrences l = l.
Proof.
  induction l as [| j r IH]; [done |]. cbn [first_occurrences].
  rewrite fmap_cons, NoDup_cons. intros [Hj Hr].
  rewrite (IH Hr). f_equal.
  apply filter_keeps_all. apply Forall_forall. intros x Hx Heq.
  apply Hj. rewrite <- Heq. by apply list_elem_of_fmap_2.
Qed.


Lemma first_occurrences_first (l : list JobPosting) (j : JobPosting) :
  j ∈ first_occurrences l →
  ∃ l1 l2, l = l1 ++ j :: l2 ∧ dedup_key j ∉ dedup_key <$> l1.
Proof.
  induction l as [| a r IH]; cbn [first_occurrences]; [by intros ?%elem_of_nil |].
  rewrite elem_of_cons. intros [-> | Hj].
  - exists [], r. split; [done |]. apply not_elem_of_nil.
  - apply list_elem_of_filter in Hj as [Hne Hj].
    destruct (IH Hj) as (l1 & l2 & -> & Hfresh).
    exists (a :: l1), l2. split; [done |].
    rewrite fmap_cons, not_elem_of_cons. by split.
Qed.

Lemma dedup_key_with_url (p : JobPosting) :
  url p ≠ [] → dedup_key p = url p.
Proof. unfold dedup_key. by destruct (url p). Qed.

Lemma dedup_key_without_url (q : JobPosting) :
  url q = [] → dedup_key q = title q ++ BAR ++ company q.
Proof. unfold dedup_key. by intros ->. Qed.

(** C3 (amended). The deduplicator returns exactly one entry per distinct
    key, in the order of first occurrence, where the key of a posting is
    its url when the url is non-empty and otherwise the string
    title|company: the keys of the result are pairwise distinct and are
    the keys of the input, the result is a subsequence of the input, and
    each entry is the first posting of the input with its key. A posting
    with a non-empty url and a posting with an empty url are not
    collapsed into one entry as long as that url is not the string
    title|company of the other. *)
Theorem deduplicate_one_entry_per_key (l : list JobPosting) (p q : JobPosting) :
  url p ≠ [] → url q = [] → url p ≠ title q ++ BAR ++ company q →
  NoDup (dedup_key <$> deduplicate l)
  ∧ (∀ k, k ∈ dedup_key <$> deduplicate l ↔ k ∈ dedup_key <$> l)
  ∧ deduplicate l `sublist_of` l
  ∧ (∀ j, j ∈ deduplicate l →
       ∃ l1 l2, l = l1 ++ j :: l2 ∧ dedup_key j ∉ dedup_key <$> l1)
  ∧ deduplicate [p; q] = [p; q]
  ∧ (p ∈ l → q ∈ l →
       ∃ p' q', p' ∈ deduplicate l ∧ q' ∈ deduplicate l ∧ p' ≠ q'
                ∧ dedup_key p' = dedup_key p ∧ dedup_key q' = dedup_key q).
Proof.
  intros Hp Hq Hpq.
  assert (Hk : dedup_key p ≠ dedup_key q).
  { by rewrite (dedup_key_with_url p Hp), (dedup_key_without_url q Hq). }
  rewrite !deduplicate_first_occurrences.
  split; [apply first_occurrences_NoDup |].
  split; [apply first_occurrences_keys |].
  split; [apply first_occurrences_sublist |].
  split; [apply first_occurrences_first |].
  split.
  - cbn [first_occurrences]. rewrite filter_nil, filter_cons, decide_True; [done |].
    intros He. by apply Hk.
  - intros Hpl Hql.
    assert (Hp' : dedup_key p ∈ dedup_key <$> first_occurrences l).
    { apply first_occurrences_keys. by apply list_elem_of_fmap_2. }
    assert (Hq' : dedup_key q ∈ dedup_key <$> first_occurrences l).
    { apply first_occurrences_keys. by apply list_elem_of_fmap_2. }
    apply list_elem_of_fmap in Hp' as (p' & Hkp & Hp').
    apply list_elem_of_fmap in Hq' as (q' & Hkq & Hq').
    exists p', q'. repeat split; try done.
    intros ->. apply Hk. by rewrite Hkp, Hkq.
Qed.

(** C8. Deduplication is idempotent: applied to its own output, the
    deduplicator returns that output, in the same order. *)
Theorem deduplicate_idempotent (l : list JobPosting) :
  deduplicate (deduplicate l) = deduplicate l.
Proof.
  rewrite !deduplicate_first_occurrences.
  apply first_occurrences_fixed, first_occurrences_NoDup.
Qed.

(** ** Relevance scorer *)

Lemma find_existsb {A} (f : A → bool) (l : list A) :
  existsb f l = match List.find f l with Some _ => true | None => false end.
Proof.
  induction l as [| x l IH]; simpl; [done |]. by destruct (f x).
Qed.

Lemma fst_bump d r t : fst (bump d r t) = fst t + d.
Proof. reflexivity. Qed.

(** A loop without [break] that adds [d] per matching phrase adds [d]
    times the number of matching phrases. *)
Lemma fst_penalty_loop (d : Z) (mk : str → reason) (hay : str) (phrases : list str) :
  ∀ t : tally,
    fst (fold_left (λ t p, if str_in p hay then bump d (mk p) t else t) phrases t)
    = fst t + d * count_in phrases hay.
Proof.
  unfold count_in.
  induction phrases as [| p ps IH]; intros t; simpl.
  - lia.
  - rewrite IH. destruct (str_in p hay); simpl length; rewrite ?fst_bump; lia.
Qed.

Lemma fst_title_step cfg job t :
  fst (title_step cfg (lower (title job)) t) = fst t + title_signal cfg job.
Proof.
  unfold title_step, title_signal, any_in. rewrite !find_existsb.
  destruct (List.find _ (target_titles cfg)); [apply fst_bump |].
  destruct (List.find _ (seniority_indicators cfg)); [apply fst_bump |]. lia.
Qed.

Lemma fst_keyword_step cfg job t :
  fst (keyword_step cfg (full_text job) t) = fst t + keyword_signal cfg job.
Proof.
  unfold keyword_step, keyword_signal, count_in.
  destruct (List.filter _ (positive_keywords cfg)) as [| k ks]; simpl truthy_list; cbv iota.
  - simpl. lia.
  - apply fst_bump.
Qed.

Lemma fst_location_step cfg job t :
  fst (location_step cfg (loc_text job) t) = fst t + location_signal cfg job.
Proof.
  unfold location_step, location_signal, any_in. rewrite find_existsb.
  destruct (List.find _ (location_include cfg)); [apply fst_bump |]. lia.
Qed.

Lemma fst_exclusion_step cfg job t :
  fst (exclusion_step cfg (loc_text job) t) = fst t + exclusion_signal cfg job.
Proof. apply fst_penalty_loop. Qed.

Lemma fst_company_step cfg job t :
  fst (company_step cfg (lower (company job)) t) = fst t + company_signal cfg job.
Proof.
  unfold company_step, company_signal. rewrite find_existsb.
  destruct (List.find _ (target_companies cfg)); [apply fst_bump |]. lia.
Qed.

Lemma fst_salary_step text t :
  fst (salary_step text t) = fst t + salary_signal text.
Proof.
  unfold salary_step, salary_signal.
  destruct (re_search text) as [[g1 g2] |]; [| lia].
  destruct (100000 <=? salary_amount g1 g2); [apply fst_bump |].
  destruct (salary_amount g1 g2 <? 60000); [apply fst_bump | lia].
Qed.

Lemma fst_negative_step cfg job t :
  fst (negative_step cfg (lower (title job)) t) = fst t + negative_signal cfg job.
Proof. apply fst_penalty_loop. Qed.

Lemma score_tally_raw_sum cfg job :
  fst (score_tally cfg job) = raw_sum cfg job.
Proof.
  unfold score_tally, raw_sum.
  rewrite fst_negative_step, fst_salary_step, fst_company_step,
    fst_exclusion_step, fst_location_step, fst_keyword_step, fst_title_step.
  simpl. lia.
Qed.

(** C7. For every posting and every profile the final relevance score is
    [max(0, min(100, raw_sum))] of the sum of the seven signals, and so
    lies between 0 and 100. *)
Theorem score_clamped (cfg : Config) (job : JobPosting) :
  relevance_score (score cfg job) = Z.max 0 (Z.min 100 (raw_sum cfg job))
  ∧ 0 ≤ relevance_score (score cfg job) ≤ 100.
Proof.
  unfold score. cbn [relevance_score set_score].
  rewrite score_tally_raw_sum. split; lia.
Qed.

(** ** The salary pattern *)























(** ** Dictionaries *)

Lemma key_eqb_eq (a b : str) : key_eqb a b = true ↔ a = b.
Proof. unfold key_eqb. apply bool_decide_eq_true. Qed.

Lemma key_eqb_refl (a : str) : key_eqb a a = true.
Proof. by apply key_eqb_eq. Qed.

Lemma key_eqb_neq (a b : str) : a ≠ b → key_eqb a b = false.
Proof. unfold key_eqb. apply bool_decide_eq_false_2. Qed.

Lemma dict_get_set_eq k v d : dict_get k (dict_set k v d) = Some v.
Proof.
  induction d as [| [k' v'] d IH]; simpl.
  - by rewrite key_eqb_refl.
  - destruct (key_eqb k k') eqn:E; simpl; [by rewrite key_eqb_refl |].
    by rewrite E.
Qed.

Lemma dict_get_set_ne k k' v d :
  k ≠ k' → dict_get k' (dict_set k v d) = dict_get k' d.
Proof.
  intros Hne. induction d as [| [k0 v0] d IH]; simpl.
  - by rewrite key_eqb_neq.
  - destruct (key_eqb k k0) eqn:E; simpl.
    + apply key_eqb_eq in E as <-. by rewrite !key_eqb_neq.
    + by rewrite IH.
Qed.

Lemma dict_set_same k v d : dict_get k d = Some v → dict_set k v d = d.
Proof.
  induction d as [| [k' v'] d IH]; simpl; [discriminate |].
  destruct (key_eqb k k') eqn:E.
  - apply key_eqb_eq in E as ->. by intros [= ->].
  - intros H. by rewrite IH.
Qed.

Lemma dict_mem_In k d : dict_mem k d = true ↔ ∃ v, (k, v) ∈ d.
Proof.
  unfold dict_mem. induction d as [| [k' v'] d IH]; simpl.
  - split; [discriminate | intros [v Hv]; by apply elem_of_nil in Hv].
  - destruct (key_eqb k k') eqn:E.
    + apply key_eqb_eq in E as ->. split; [| done].
      intros _. exists v'. apply elem_of_cons. by left.
    + rewrite IH. split.
      * intros [v Hv]. exists v. apply elem_of_cons. by right.
      * intros [v Hv]. apply elem_of_cons in Hv as [[= -> ->] | Hv]; [| eauto].
        by rewrite key_eqb_refl in E.
Qed.

Lemma dict_set_In_eq k v d : (k, v) ∈ dict_set k v d.
Proof.
  induction d as [| [k0 v0] d IH]; simpl.
  - apply list_elem_of_singleton. done.
  - destruct (key_eqb k k0); apply elem_of_cons; [by left | by right].
Qed.

Lemma dict_set_In_ne k v d k' v' :
  k' ≠ k → (k', v') ∈ d → (k', v') ∈ dict_set k v d.
Proof.
  intros Hne. induction d as [| [k0 v0] d IH]; simpl.
  - by intros ?%elem_of_nil.
  - rewrite elem_of_cons. intros [[= -> ->] | H].
    + rewrite key_eqb_neq by done. apply elem_of_cons. by left.
    + destruct (key_eqb k k0); apply elem_of_cons; right; [done | by apply IH].
Qed.

Lemma dict_set_Forall (P : str * pyval → Prop) k v d :
  P (k, v) → Forall P d → Forall P (dict_set k v d).
Proof.
  intros Hv. induction 1 as [| [k0 v0] d H0 Hd IH]; simpl.
  - by repeat constructor.
  - destruct (key_eqb k k0); by constructor.
Qed.

(** ** Comprehensions whose test can raise *)

Lemma filterM_total {A} (f : A → result bool) (g : A → bool) (l : list A) :
  Forall (λ x, f x = Ok (g x)) l → filterM f l = Ok (List.filter g l).
Proof.
  induction 1 as [| x l Hx _ IH]; simpl; [done |].
  rewrite Hx. simpl. rewrite IH. simpl. by destruct (g x).
Qed.

Lemma filterM_Ok {A} (f : A → result bool) (l kept : list A) :
  filterM f l = Ok kept →
  Forall (λ x, f x = Ok (test_passed (f x))) l
  ∧ kept = List.filter (λ x, test_passed (f x)) l.
Proof.
  revert kept. induction l as [| x l IH]; simpl; intros kept.
  - intros [= <-]. by split.
  - destruct (f x) as [b |] eqn:Ex; simpl; [| discriminate].
    destruct (filterM f l) as [r |] eqn:El; simpl; [| discriminate].
    intros [= <-]. destruct (IH r eq_refl) as (Hg & ->).
    split; [| done]. constructor; [by rewrite Ex | done].
Qed.

Lemma bool_filter_sublist {A} (g : A → bool) (l : list A) :
  List.filter g l `sublist_of` l.
Proof.
  induction l as [| x l IH]; simpl; [done |].
  destruct (g x); [by apply sublist_skip | by apply sublist_cons].
Qed.

Lemma bool_filter_elem_of {A} (g : A → bool) (l : list A) (x : A) :
  x ∈ List.filter g l ↔ x ∈ l ∧ g x = true.
Proof. rewrite !list_elem_of_In. apply filter_In. Qed.

(** ** Seen jobs database *)

Lemma seen_of_Some (data : pyval) (seen : list (str * pyval)) :
  seen_of data = Some seen ↔
  ∃ d, data = PDict d ∧ dict_get (u "seen") d = Some (PDict seen).
Proof.
  unfold seen_of, getitem. split.
  - destruct data as [| | | | | d]; try discriminate.
    destruct (dict_get (u "seen") d) as [[| | | | | s] |] eqn:E; try discriminate.
    intros [= ->]. eauto.
  - intros (d & -> & ->). done.
Qed.

Lemma fresh_enough_readable (cutoff : Z) (kv : str * pyval) :
  is_Some (first_seen_of kv.2) → fresh_enough cutoff kv = Ok (kept_by cutoff kv).
Proof.
  unfold kept_by, first_seen_of, fresh_enough. intros [t Ht].
  destruct (getitem kv.2 (u "first_seen")) as [[| | | s | |] |]; try discriminate.
  simpl in *. by destruct (fromisoformat s) as [[t' | t' o] |].
Qed.

Lemma fresh_enough_Ok (cutoff : Z) (kv : str * pyval) (b : bool) :
  fresh_enough cutoff kv = Ok b → is_Some (first_seen_of kv.2).
Proof.
  unfold first_seen_of, fresh_enough.
  destruct (getitem kv.2 (u "first_seen")) as [[| | | s | |] |]; try discriminate.
  simpl. destruct (fromisoformat s) as [[t | t o] |]; [eauto | discriminate ..].
Qed.

(** The cutoff of a retention of 30 days exists at every reading. *)
Lemma cutoff_of_30 (now : Z) : cutoff_of now 30 = Ok (now - 30 * DAY).
Proof.
  unfold cutoff_of, is_reading, is_datetime, MAX_DELTA_DAYS, DATETIME_MIN,
    DATETIME_END, DAY.
  destruct (_ <? Z.abs 30) eqn:E; [lia |].
  destruct (_ && negb _) eqn:E'; [| done].
  apply andb_true_iff in E' as [Hr Hd]. apply negb_true_iff in Hd.
  apply andb_true_iff in Hr as [H0 H1]. apply andb_false_iff in Hd. lia.
Qed.

Lemma cutoff_of_Ok (now days c : Z) :
  cutoff_of now days = Ok c → c = now - days * DAY.
Proof.
  unfold cutoff_of. destruct (_ <? _); [discriminate |].
  destruct (_ && _); [discriminate |]. by intros [= <-].
Qed.

Lemma cutoff_of_datetime (now days : Z) :
  Z.abs days ≤ MAX_DELTA_DAYS → is_datetime (now - days * DAY) = true →
  cutoff_of now days = Ok (now - days * DAY).
Proof.
  intros Hd Hc. unfold cutoff_of. rewrite Hc, andb_false_r.
  by rewrite (proj2 (Z.ltb_ge _ _) Hd).
Qed.

Lemma cutoff_of_overflow (now days : Z) :
  is_reading now = true →
  MAX_DELTA_DAYS < Z.abs days ∨ is_datetime (now - days * DAY) = false →
  cutoff_of now days = Raise OverflowError.
Proof.
  intros Hr H. unfold cutoff_of.
  destruct (MAX_DELTA_DAYS <? Z.abs days) eqn:E; [done |].
  destruct H as [H | H]; [lia |]. by rewrite Hr, H.
Qed.

(** On a document with a readable seen map, [cleanup] filters the map
    and touches nothing else. *)
Lemma cleanup_readable (now days : Z) (d seen : list (str * pyval)) :
  cutoff_of now days = Ok (now - days * DAY) →
  dict_get (u "seen") d = Some (PDict seen) →
  Forall (λ kv, is_Some (first_seen_of kv.2)) seen →
  let kept := List.filter (kept_by (now - days * DAY)) seen in
  let removed := Z.of_nat (length seen) - Z.of_nat (length kept) in
  cleanup now days (PDict d)
  = Ok (PDict (dict_set (u "seen") (PDict kept) d),
        if removed =? 0 then [] else [InfoCleaned removed days]).
Proof.
  intros Hcut Hseen Hread kept removed. unfold cleanup. rewrite Hcut.
  simpl. rewrite Hseen. simpl.
  rewrite (filterM_total _ (kept_by (now - days * DAY))); [done |].
  eapply Forall_impl; [exact Hread |]. intros kv. apply fresh_enough_readable.
Qed.

(** C5 (amended). On a seen-state store whose entries carry a
    first_seen that parses to a naive datetime, and for a retention
    window d that [timedelta] accepts and for which now - d days is a
    datetime, cleanup(d) succeeds and removes exactly the entries whose
    first_seen is at or before now - d days: an entry remains iff its
    first_seen is later than now - d days, the remaining entries are the
    same (key, record) pairs in the same order, every other key of the
    document is untouched, and on an empty seen map nothing is removed
    and nothing is logged. For a window beyond that range cleanup raises
    OverflowError at any reading of the clock, whatever the store
    holds, the empty store included. *)
Theorem cleanup_spec (now days : Z) (data : pyval) (seen : list (str * pyval)) :
  seen_of data = Some seen →
  Forall (λ kv, is_Some (first_seen_of kv.2)) seen →
  Z.abs days ≤ MAX_DELTA_DAYS →
  is_datetime (now - days * DAY) = true →
  ∃ data' seen' lg,
    cleanup now days data = Ok (data', lg)
    ∧ seen_of data' = Some seen'
    ∧ (∀ k v, (k, v) ∈ seen' ↔
              (k, v) ∈ seen ∧ ∃ t, first_seen_of v = Some t ∧ now - days * DAY < t)
    ∧ (∀ k v t, (k, v) ∈ seen → first_seen_of v = Some t →
                t ≤ now - days * DAY → (k, v) ∉ seen')
    ∧ seen' `sublist_of` seen
    ∧ (∀ k, k ≠ u "seen" → getitem data' k = getitem data k)
    ∧ (seen = [] → data' = data ∧ lg = [])
    ∧ (∀ now' days' store,
         is_reading now' = true →
         MAX_DELTA_DAYS < Z.abs days' ∨ is_datetime (now' - days' * DAY) = false →
         cleanup now' days' store = Raise OverflowError).
Proof.
  intros (d & -> & Hseen)%seen_of_Some Hread Hdays Hcut.
  set (cutoff := now - days * DAY) in *.
  assert (Hin : ∀ k v, (k, v) ∈ List.filter (kept_by cutoff) seen ↔
                       (k, v) ∈ seen ∧ ∃ t, first_seen_of v = Some t ∧ cutoff < t).
  { intros k v. rewrite bool_filter_elem_of. unfold kept_by. simpl.
    split; intros [Hkv H]; (split; [done |]).
    - destruct (first_seen_of v) as [t |]; [| discriminate].
      exists t. split; [done | lia].
    - destruct H as (t & -> & Ht). lia. }
  eexists _, (List.filter (kept_by cutoff) seen), _.
  split; [apply cleanup_readable; [by apply cutoff_of_datetime | done | done] |].
  split_and!.
  - apply seen_of_Some. eexists. split; [done |]. apply dict_get_set_eq.
  - exact Hin.
  - intros k v t Hkv Ht Hle Hkept. apply Hin in Hkept as (_ & t' & Ht' & Hlt).
    rewrite Ht in Ht'. injection Ht' as <-. lia.
  - apply bool_filter_sublist.
  - intros k Hk. unfold getitem. by rewrite dict_get_set_ne.
  - intros ->. simpl. by rewrite (dict_set_same _ _ _ Hseen).
  - intros now' days' store Hr Hout. unfold cleanup.
    by rewrite (cutoff_of_overflow now' days' Hr Hout).
Qed.

(** C4, where it holds and where it does not. A missing file and a file
    that [json.load] cannot decode give the empty state, the latter with
    a warning. A file holding valid JSON of another shape, such as [{}],
    is returned as it is and without a warning; the first store
    operation of the run then raises. *)
Theorem load_outcomes (cfg : Config) (clk : nat → Z) (all_jobs : list JobPosting) :
  _load Missing = Ok (empty_data, [])
  ∧ _load (Unreadable JSONDecodeError) = Ok (empty_data, [WarnCorrupted])
  ∧ _load (Document (PDict [])) = Ok (PDict [], [])
  ∧ cleanup (clk 0%nat) 30 (PDict []) = Raise KeyError
  ∧ run cfg clk (Document (PDict [])) all_jobs = Raise KeyError
  ∧ run cfg clk (Document (PList [])) all_jobs = Raise TypeError
  ∧ run cfg clk (Document PNone) all_jobs = Raise TypeError.
Proof.
  unfold run, cleanup. cbn [_load bind]. rewrite cutoff_of_30. by split_and!.
Qed.

(** ** One run *)

Lemma bind_Ok {A B} (m : result A) (f : A → result B) (b : B) :
  bind m f = Ok b → ∃ a, m = Ok a ∧ f a = Ok b.
Proof. destruct m as [a | e]; simpl; [eauto | discriminate]. Qed.

Lemma dict_set_set k v1 v2 d :
  dict_set k v2 (dict_set k v1 d) = dict_set k v2 d.
Proof.
  induction d as [| [k0 v0] d IH]; simpl.
  - by rewrite key_eqb_refl.
  - destruct (key_eqb k k0) eqn:E; simpl; [by rewrite key_eqb_refl |].
    by rewrite E, IH.
Qed.

Lemma cleanup_Ok (now days : Z) (data data' : pyval) (lg : list log_msg) :
  cleanup now days data = Ok (data', lg) →
  ∃ d seen,
    data = PDict d
    ∧ dict_get (u "seen") d = Some (PDict seen)
    ∧ Forall (λ kv, is_Some (first_seen_of kv.2)) seen
    ∧ data' = PDict (dict_set (u "seen")
                       (PDict (List.filter (kept_by (now - days * DAY)) seen)) d).
Proof.
  unfold cleanup.
  intros (cutoff & ->%cutoff_of_Ok & H)%bind_Ok.
  apply bind_Ok in H as (seenv & Hget & H).
  apply bind_Ok in H as (before & _ & H).
  apply bind_Ok in H as (items & Hitems & H).
  apply bind_Ok in H as (kept & Hkept & H).
  destruct data as [| | | | | d]; try discriminate.
  destruct seenv as [| | | | | seen]; try discriminate.
  injection Hitems as <-.
  unfold getitem in Hget.
  destruct (dict_get (u "seen") d) as [v |] eqn:Ed; [| discriminate].
  injection Hget as ->.
  assert (Hread : Forall (λ kv, is_Some (first_seen_of kv.2)) seen).
  { destruct (filterM_Ok _ _ _ Hkept) as [Hall _].
    eapply Forall_impl; [exact Hall |]. intros kv Hkv.
    by apply (fresh_enough_Ok _ _ _ Hkv). }
  exists d, seen. split_and!; [done | done | done |].
  rewrite (filterM_total _ (kept_by (now - days * DAY))) in Hkept.
  - injection Hkept as <-. simpl in H. by injection H as <- _.
  - eapply Forall_impl; [exact Hread |]. intros kv. apply fresh_enough_readable.
Qed.

Lemma cleanup_Ok_cutoff (now days : Z) (data : pyval)
    (res : pyval * list log_msg) :
  cleanup now days data = Ok res → cutoff_of now days = Ok (now - days * DAY).
Proof.
  unfold cleanup. intros (cutoff & Hc & _)%bind_Ok.
  by rewrite Hc, (cutoff_of_Ok _ _ _ Hc).
Qed.

Lemma is_new_readable (d seen : list (str * pyval)) (job : JobPosting) :
  dict_get (u "seen") d = Some (PDict seen) →
  is_new (PDict d) job = Ok (negb (dict_mem (job_id job) seen)).
Proof. intros H. unfold is_new, getitem. by rewrite H. Qed.

Lemma mark_seen_readable (now : Z) (d seen : list (str * pyval)) (job : JobPosting) :
  dict_get (u "seen") d = Some (PDict seen) →
  mark_seen now (PDict d) job
  = Ok (PDict (dict_set (u "seen")
                 (PDict (dict_set (job_id job) (seen_record now job) seen)) d)).
Proof. intros H. unfold mark_seen, getitem. by rewrite H. Qed.

Lemma mark_all_readable (clk : nat → Z) (jobs : list JobPosting) :
  ∀ (i : nat) (d seen : list (str * pyval)),
    dict_get (u "seen") d = Some (PDict seen) →
    mark_all clk i (PDict d) jobs
    = Ok (PDict (dict_set (u "seen") (PDict (marks clk i seen jobs)) d)).
Proof.
  induction jobs as [| job rest IH]; intros i d seen Hseen; simpl.
  - by rewrite (dict_set_same _ _ _ Hseen).
  - rewrite (mark_seen_readable _ _ _ _ Hseen). simpl.
    rewrite (IH _ _ _ (dict_get_set_eq _ _ _)). by rewrite dict_set_set.
Qed.

Lemma setitem_Ok (v : pyval) (k : str) (x v' : pyval) :
  setitem v k x = Ok v' → ∃ d, v = PDict d ∧ v' = PDict (dict_set k x d).
Proof. destruct v; simpl; try discriminate. intros [= <-]. eauto. Qed.

Lemma py_add_Ok (v : pyval) (n : Z) (v' : pyval) :
  py_add v n = Ok v' → ∃ r, v' = PNum r.
Proof. destruct v; simpl; try discriminate; intros [= <-]; eauto. Qed.

(** After [update_stats] the document has a "stats" dict with a numeric
    total_reported, and every other key is as before. *)
Lemma update_stats_Ok (d : list (str * pyval)) (n : Z) (data' : pyval) :
  update_stats (PDict d) n = Ok data' →
  ∃ d' st r,
    data' = PDict d'
    ∧ dict_get (u "stats") d' = Some (PDict st)
    ∧ dict_get (u "total_reported") st = Some (PNum r)
    ∧ ∀ k, k ≠ u "stats" → dict_get k d' = dict_get k d.
Proof.
  unfold update_stats.
  intros (has & _ & H)%bind_Ok.
  apply bind_Ok in H as (data1 & Hd1 & H).
  assert (∃ d1, data1 = PDict d1
                ∧ ∀ k, k ≠ u "stats" → dict_get k d1 = dict_get k d)
    as (d1 & -> & Hsame1).
  { destruct has.
    - injection Hd1 as <-. eauto.
    - injection Hd1 as <-. eexists. split; [done |].
      intros k Hk. by rewrite dict_get_set_ne. }
  apply bind_Ok in H as (seenv & _ & H).
  apply bind_Ok in H as (len & _ & H).
  apply bind_Ok in H as (stats & _ & H).
  apply bind_Ok in H as (stats2 & (st & -> & ->)%setitem_Ok & H).
  apply bind_Ok in H as (data2 & [= <-] & H).
  apply bind_Ok in H as (rep & _ & H).
  apply bind_Ok in H as (rep' & (r & ->)%py_add_Ok & H).
  apply bind_Ok in H as (stats3 & [= <-] & H).
  injection H as <-.
  eexists _, _, r. split_and!; [done | apply dict_get_set_eq | apply dict_get_set_eq |].
  intros k Hk. rewrite !dict_get_set_ne by done. by apply Hsame1.
Qed.

Lemma update_stats_readable (d seen st : list (str * pyval)) (r n : Z) :
  dict_get (u "seen") d = Some (PDict seen) →
  dict_get (u "stats") d = Some (PDict st) →
  dict_get (u "total_reported") st = Some (PNum r) →
  ∃ data', update_stats (PDict d) n = Ok data'.
Proof.
  intros Hseen Hstats Hrep. unfold update_stats.
  simpl. unfold dict_mem. rewrite Hstats. simpl.
  unfold getitem. rewrite Hseen. simpl. rewrite Hstats. simpl.
  assert (u "total_seen" ≠ u "total_reported") as Hne by discriminate.
  rewrite (dict_get_set_ne _ _ _ _ Hne), Hrep. simpl. eauto.
Qed.

Lemma save_Ok (now : Z) (d : list (str * pyval)) :
  save now (PDict d)
  = Ok (PDict (dict_set (u "last_run") (PStr (isoformat now)) d),
        Document (PDict (dict_set (u "last_run") (PStr (isoformat now)) d))).
Proof. reflexivity. Qed.

(** *** Entries recorded by the marking loop *)

Lemma first_seen_of_record (now : Z) (job : JobPosting) :
  fromisoformat (isoformat now) = Some (Naive now) →
  first_seen_of (seen_record now job) = Some now.
Proof.
  intros H.
  assert (first_seen_of (seen_record now job)
          = match fromisoformat (isoformat now) with
            | Some (Naive t) => Some t
            | _ => None
            end) as -> by reflexivity.
  by rewrite H.
Qed.

Lemma recorded_dict_set (Q : Z → Prop) (k k' : str) (rec : pyval) (t : Z)
    (seen : list (str * pyval)) :
  first_seen_of rec = Some t → Q t →
  recorded Q k seen ∨ k = k' →
  recorded Q k (dict_set k' rec seen).
Proof.
  intros Hrec Ht Hk.
  destruct (decide (k = k')) as [-> | Hne].
  - exists rec, t. split_and!; [apply dict_set_In_eq | done | done].
  - destruct Hk as [(rec0 & t0 & Hin & Hfs & Hq) | ?]; [| done].
    exists rec0, t0. split_and!; [by apply dict_set_In_ne | done | done].
Qed.

Lemma recorded_marks (Q : Z → Prop) (clk : nat → Z) (k : str)
    (jobs : list JobPosting) :
  (∀ t, fromisoformat (isoformat t) = Some (Naive t)) →
  ∀ (i : nat) (seen : list (str * pyval)),
    (∀ n, (i ≤ n < i + length jobs)%nat → Q (clk n)) →
    recorded Q k seen ∨ k ∈ job_id <$> jobs →
    recorded Q k (marks clk i seen jobs).
Proof.
  intros Hrt. induction jobs as [| job rest IH]; intros i seen Hq Hk; simpl.
  - destruct Hk as [Hk | Hk]; [done | by apply elem_of_nil in Hk].
  - apply IH.
    + intros n Hn. apply Hq. simpl. lia.
    + rewrite fmap_cons, elem_of_cons in Hk.
      destruct (decide (k ∈ job_id <$> rest)) as [Hin | Hnin]; [by right |].
      left. apply (recorded_dict_set Q k (job_id job) _ (clk i)).
      * by apply first_seen_of_record.
      * apply Hq. simpl. lia.
      * destruct Hk as [Hk | [Hk | Hk]]; [by left | by right | done].
Qed.

Lemma readable_marks (clk : nat → Z) (jobs : list JobPosting) :
  (∀ t, fromisoformat (isoformat t) = Some (Naive t)) →
  ∀ (i : nat) (seen : list (str * pyval)),
    Forall (λ kv, is_Some (first_seen_of kv.2)) seen →
    Forall (λ kv, is_Some (first_seen_of kv.2)) (marks clk i seen jobs).
Proof.
  intros Hrt. induction jobs as [| job rest IH]; intros i seen Hread; simpl.
  - done.
  - apply IH, dict_set_Forall; [| done].
    simpl. rewrite first_seen_of_record by done. eauto.
Qed.

(** *** What a successful run has done *)

Lemma filterM_is_new (d seen : list (str * pyval)) (jobs : list JobPosting) :
  dict_get (u "seen") d = Some (PDict seen) →
  filterM (is_new (PDict d)) jobs
  = Ok (List.filter (λ j, negb (dict_mem (job_id j) seen)) jobs).
Proof.
  intros Hseen. apply filterM_total, Forall_forall. intros j _.
  by apply is_new_readable.
Qed.

Lemma run_Ok (cfg : Config) (clk : nat → Z) (file : file_state)
    (all_jobs : list JobPosting) (r : run_result) :
  (∀ t, fromisoformat (isoformat t) = Some (Naive t)) →
  run cfg clk file all_jobs = Ok r →
  ∃ (data0 : pyval) (lg : list log_msg) (seen0 dF : list (str * pyval)),
    _load file = Ok (data0, lg)
    ∧ seen_of data0 = Some seen0
    ∧ new_jobs r
      = List.filter
          (λ j, negb (dict_mem (job_id j)
                        (List.filter (kept_by (clk 0%nat - 30 * DAY)) seen0)))
          (relevant_jobs cfg all_jobs)
    ∧ report r = generate (py_slice_to (max_results cfg) (new_jobs r))
    ∧ final_data r = PDict dF
    ∧ final_file r = Document (PDict dF)
    ∧ dict_get (u "seen") dF
      = Some (PDict (marks clk 1
                       (List.filter (kept_by (clk 0%nat - 30 * DAY)) seen0)
                       (new_jobs r)))
    ∧ well_formed (PDict dF).
Proof.
  intros Hrt. unfold run.
  intros ([data0 lg1] & Hload & H)%bind_Ok.
  apply bind_Ok in H as ([dataC lg2] & Hclean & H).
  apply cleanup_Ok in Hclean as (d0 & seen0 & -> & Hseen0 & Hread0 & ->).
  set (kept := List.filter (kept_by (clk 0%nat - 30 * DAY)) seen0) in *.
  assert (HseenC : dict_get (u "seen") (dict_set (u "seen") (PDict kept) d0)
                   = Some (PDict kept)) by apply dict_get_set_eq.
  rewrite (filterM_is_new _ _ _ HseenC) in H. simpl in H.
  rewrite (mark_all_readable _ _ _ _ _ HseenC) in H. simpl in H.
  rewrite dict_set_set in H.
  apply bind_Ok in H as (dataU & Hstats & H).
  apply update_stats_Ok in Hstats as (dU & st & n & -> & Hst & Hrep & Hsame).
  rewrite save_Ok in H. simpl in H. injection H as <-.
  cbn [new_jobs report final_data final_file].
  assert (Hne1 : u "last_run" ≠ u "seen") by discriminate.
  assert (Hne2 : u "last_run" ≠ u "stats") by discriminate.
  assert (Hne3 : u "seen" ≠ u "stats") by discriminate.
  assert (HseenF : dict_get (u "seen")
                     (dict_set (u "last_run") (PStr (isoformat (clk
                        (S (length (List.filter
                                      (λ j, negb (dict_mem (job_id j) kept))
                                      (relevant_jobs cfg all_jobs))))))) dU)
                   = Some (PDict (marks clk 1 kept
                                    (List.filter
                                       (λ j, negb (dict_mem (job_id j) kept))
                                       (relevant_jobs cfg all_jobs))))).
  { rewrite dict_get_set_ne by done. rewrite Hsame by done.
    apply dict_get_set_eq. }
  exists (PDict d0), lg1, seen0. eexists.
  split_and!; try done.
  - by apply seen_of_Some; eauto.
  - eexists _, _, st, n. split_and!; [done | exact HseenF | | | done].
    + apply readable_marks; [done |].
      apply Forall_forall. intros kv [Hkv _]%bool_filter_elem_of.
      rewrite Forall_forall in Hread0. by apply Hread0.
    + by rewrite dict_get_set_ne.
Qed.

Lemma run_well_formed (cfg : Config) (clk : nat → Z) (data : pyval)
    (all_jobs : list JobPosting) :
  well_formed data → ∃ r, run cfg clk (Document data) all_jobs = Ok r.
Proof.
  intros (d & seen & st & n & -> & Hseen & Hread & Hst & Hrep).
  unfold run. simpl _load. cbn [bind].
  rewrite (cleanup_readable _ _ _ _ (cutoff_of_30 _) Hseen Hread). cbn [bind].
  set (kept := List.filter (kept_by (clk 0%nat - 30 * DAY)) seen).
  assert (HseenC : dict_get (u "seen") (dict_set (u "seen") (PDict kept) d)
                   = Some (PDict kept)) by apply dict_get_set_eq.
  rewrite (filterM_is_new _ _ _ HseenC). cbn [bind].
  rewrite (mark_all_readable _ _ _ _ _ HseenC). cbn [bind].
  rewrite dict_set_set.
  assert (Hne : u "seen" ≠ u "stats") by discriminate.
  edestruct (update_stats_readable
               (dict_set (u "seen") (PDict (marks clk 1 kept
                  (List.filter (λ j, negb (dict_mem (job_id j) kept))
                     (List.filter (λ j, min_score cfg <=? relevance_score j)
                        (map (score cfg) (deduplicate all_jobs)))))) d))
    as [dataU HU].
  - apply dict_get_set_eq.
  - rewrite dict_get_set_ne by done. exact Hst.
  - exact Hrep.
  - rewrite HU. cbn [bind].
    apply update_stats_Ok in HU as (dU & _ & _ & -> & _).
    rewrite save_Ok. cbn [bind]. eauto.
Qed.

(** *** The report *)

Lemma insert_by_score_perm (x : JobPosting) (l : list JobPosting) :
  insert_by_score x l ≡ₚ x :: l.
Proof.
  induction l as [| y r IH]; simpl; [done |].
  destruct (relevance_score x <? relevance_score y); [| done].
  rewrite IH. apply Permutation_swap.
Qed.

Lemma sort_by_score_perm (l : list JobPosting) : sort_by_score l ≡ₚ l.
Proof.
  induction l as [| x r IH]; simpl; [done |].
  by rewrite insert_by_score_perm, IH.
Qed.

Lemma py_slice_to_sublist {A} (n : Z) (l : list A) :
  py_slice_to n l `sublist_of` l.
Proof. unfold py_slice_to. destruct (0 <=? n); apply sublist_take. Qed.

Lemma report_from_new_jobs (n : Z) (l : list JobPosting) (j : JobPosting) :
  j ∈ generate (py_slice_to n l) → j ∈ l.
Proof.
  unfold generate. rewrite sort_by_score_perm. intros Hj.
  eapply elem_of_sublist; [exact Hj | apply py_slice_to_sublist].
Qed.

(** ** Novelty across runs *)

Lemma recorded_kept (Q : Z → Prop) (cutoff : Z) (k : str)
    (seen : list (str * pyval)) :
  (∀ t, Q t → cutoff < t) →
  recorded Q k seen →
  recorded Q k (List.filter (kept_by cutoff) seen).
Proof.
  intros Hq (rec & t & Hin & Hfs & Ht). exists rec, t.
  split_and!; [| done | done].
  apply bool_filter_elem_of. split; [done |].
  unfold kept_by. simpl. rewrite Hfs. specialize (Hq t Ht). lia.
Qed.

Lemma recorded_dict_mem (Q : Z → Prop) (k : str) (seen : list (str * pyval)) :
  recorded Q k seen → dict_mem k seen = true.
Proof. intros (rec & _ & Hin & _). apply dict_mem_In. eauto. Qed.

Lemma recorded_marks_other (Q : Z → Prop) (clk : nat → Z) (k : str)
    (jobs : list JobPosting) :
  k ∉ job_id <$> jobs →
  ∀ (i : nat) (seen : list (str * pyval)),
    recorded Q k seen → recorded Q k (marks clk i seen jobs).
Proof.
  induction jobs as [| job rest IH]; intros Hk i seen Hrec; simpl; [done |].
  rewrite fmap_cons, not_elem_of_cons in Hk. destruct Hk as [Hne Hk].
  apply IH; [done |].
  destruct Hrec as (rec & t & Hin & Hfs & Ht). exists rec, t.
  split_and!; [by apply dict_set_In_ne | done | done].
Qed.

(** The run that marks a posting leaves a state that remembers it. *)
Lemma run_remembers_marked (cfg : Config) (clk : nat → Z) (file : file_state)
    (all_jobs : list JobPosting) (r : run_result) (p : JobPosting) :
  (∀ t, fromisoformat (isoformat t) = Some (Naive t)) →
  run cfg clk file all_jobs = Ok r →
  p ∈ new_jobs r →
  remembers (λ t, ∃ i, (1 ≤ i ≤ length (new_jobs r))%nat ∧ t = clk i)
    (job_id p) (final_file r).
Proof.
  intros Hrt Hrun Hp.
  destruct (run_Ok _ _ _ _ _ Hrt Hrun)
    as (data0 & lg0 & seen0 & dF & _ & _ & _ & _ & _ & Hff & HseenF & Hwf).
  exists dF. eexists. split_and!; [done | done | exact HseenF |].
  apply recorded_marks; [done | |].
  - intros n Hn. exists n. split; [lia | done].
  - right. by apply list_elem_of_fmap_2.
Qed.

(** A run that starts within the retention window of what the state
    remembers completes, finds nothing of that identity new, and leaves
    a state that still remembers it. *)
Lemma run_on_remembered (Q : Z → Prop) (k : str) (cfg : Config) (clk : nat → Z)
    (file : file_state) (all_jobs : list JobPosting) (q : JobPosting) :
  (∀ t, fromisoformat (isoformat t) = Some (Naive t)) →
  remembers Q k file →
  (∀ t, Q t → clk 0%nat - 30 * DAY < t) →
  job_id q = k →
  ∃ r data lg dataC lg',
    run cfg clk file all_jobs = Ok r
    ∧ _load file = Ok (data, lg)
    ∧ cleanup (clk 0%nat) 30 data = Ok (dataC, lg')
    ∧ is_new dataC q = Ok false
    ∧ (∀ j, j ∈ new_jobs r → job_id j ≠ k)
    ∧ (∀ j, j ∈ report r → job_id j ≠ k)
    ∧ remembers Q k (final_file r).
Proof.
  intros Hrt (dF & seen & -> & Hwf & Hseen & Hrec) Hwin Hq.
  destruct (run_well_formed cfg clk _ all_jobs Hwf) as [r Hrun].
  destruct (run_Ok _ _ _ _ _ Hrt Hrun)
    as (data & lg & seen1 & dF2 & Hload & Hs1 & Hnew & Hrep & _ & Hff & HseenF & Hwf2).
  injection Hload as <- <-.
  apply seen_of_Some in Hs1 as (d & [= <-] & Hs1).
  rewrite Hseen in Hs1. injection Hs1 as <-.
  set (cutoff := clk 0%nat - 30 * DAY) in *.
  pose proof (recorded_kept Q cutoff k seen Hwin Hrec) as Hkept.
  pose proof (recorded_dict_mem _ _ _ Hkept) as Hmem.
  assert (Hread : Forall (λ kv, is_Some (first_seen_of kv.2)) seen).
  { destruct Hwf as (d' & s' & _ & _ & [= <-] & Hs' & Hr' & _).
    rewrite Hseen in Hs'. by injection Hs' as <-. }
  assert (Hnot : ∀ j, j ∈ new_jobs r → job_id j ≠ k).
  { intros j Hj. rewrite Hnew in Hj.
    apply bool_filter_elem_of in Hj as [_ Hj]. intros Heq.
    rewrite Heq, Hmem in Hj. discriminate. }
  exists r, (PDict dF), []. eexists _, _.
  split_and!;
    [done | done | apply cleanup_readable; [apply cutoff_of_30 | done | done]
    | | done | |].
  - rewrite (is_new_readable _ _ _ (dict_get_set_eq _ _ _)).
    fold cutoff. by rewrite Hq, Hmem.
  - intros j Hj. apply Hnot. rewrite Hrep in Hj.
    by apply report_from_new_jobs in Hj.
  - exists dF2. eexists. split_and!; [done | done | exact HseenF |].
    apply recorded_marks_other; [| done].
    intros (j & Hk & Hj)%list_elem_of_fmap. by apply (Hnot j).
Qed.

Lemma run_all_remembered (Q : Z → Prop) (k : str)
    (runs : list (Config * (nat → Z) * list JobPosting)) :
  (∀ t, fromisoformat (isoformat t) = Some (Naive t)) →
  ∀ file,
    remembers Q k file →
    Forall (λ run, ∀ t, Q t → run.1.2 0%nat - 30 * DAY < t) runs →
    ∃ file', run_all file runs = Ok file' ∧ remembers Q k file'.
Proof.
  intros Hrt. induction runs as [| [[cfg clk] jobs] rest IH]; intros file Hrem Hwin.
  - exists file. by split.
  - apply Forall_cons in Hwin as [Hw Hrest]. simpl in Hw.
    destruct (run_on_remembered Q k cfg clk file jobs
                (mkJobPosting [] [] [] [] [] [] [] [] 0 [] k) Hrt Hrem Hw eq_refl)
      as (r & _ & _ & _ & _ & Hrun & _ & _ & _ & _ & _ & Hrem').
    cbn [run_all]. rewrite Hrun. cbn [bind]. by apply IH.
Qed.

Lemma dict_get_elem_of (k : str) (v : pyval) (d : list (str * pyval)) :
  dict_get k d = Some v → (k, v) ∈ d.
Proof.
  induction d as [| [k' v'] d IH]; simpl; [discriminate |].
  destruct (key_eqb k k') eqn:E.
  - apply key_eqb_eq in E as ->. intros [= ->]. apply elem_of_cons. by left.
  - intros H. apply elem_of_cons. right. by apply IH.
Qed.

Lemma marks_get_other (clk : nat → Z) (k : str) (jobs : list JobPosting) :
  k ∉ job_id <$> jobs →
  ∀ (i : nat) (seen : list (str * pyval)),
    dict_get k (marks clk i seen jobs) = dict_get k seen.
Proof.
  induction jobs as [| job rest IH]; intros Hk i seen; simpl; [done |].
  rewrite fmap_cons, not_elem_of_cons in Hk. destruct Hk as [Hne Hk].
  rewrite IH by done. by apply dict_get_set_ne.
Qed.

(** The entry the marking loop leaves under an identity is the record
    of the last posting of that identity, stamped with the instant of
    its own [mark_seen] call. *)
Lemma marks_get (clk : nat → Z) (k : str) (jobs : list JobPosting) :
  ∀ (i : nat) (seen : list (str * pyval)),
    k ∈ job_id <$> jobs →
    ∃ n j, jobs !! n = Some j ∧ job_id j = k
           ∧ dict_get k (marks clk i seen jobs)
             = Some (seen_record (clk (i + n)%nat) j).
Proof.
  induction jobs as [| job rest IH]; intros i seen Hk.
  - by apply elem_of_nil in Hk.
  - cbn [marks]. destruct (decide (k ∈ job_id <$> rest)) as [Hin | Hnin].
    + destruct (IH (S i) (dict_set (job_id job) (seen_record (clk i) job) seen) Hin)
        as (n & j & Hn & Hj & Hget).
      exists (S n), j. split_and!; [done | done |].
      by rewrite Nat.add_succ_r.
    + rewrite fmap_cons, elem_of_cons in Hk. destruct Hk as [-> | Hk]; [| done].
      exists 0%nat, job. split_and!; [done | done |].
      rewrite marks_get_other by done. rewrite Nat.add_0_r.
      apply dict_get_set_eq.
Qed.

(** C6. A posting marked seen in one run is not new in any later run
    that starts within the retention window of that marking, however
    many runs lie in between. The run that finds p new stores, under
    p's identity, the instant t of a [mark_seen] call of its own for
    that identity; every later run whose cutoff (its start minus 30
    days) lies before t completes, [is_new] answers false there for
    every posting of the same identity, and no posting of that identity
    is among the new postings or in the report of the later run,
    whatever its score, the profile and the other postings of that run
    are. [is_new] is a function of the store and the posting alone (it
    returns no store): it answers true iff the seen map has no entry
    under the identity. *)
Theorem seen_posting_is_not_new_again
    (cfg1 cfg2 : Config) (clk1 clk2 : nat → Z) (file0 : file_state)
    (jobs1 jobs2 : list JobPosting) (r1 : run_result) (p q : JobPosting)
    (between : list (Config * (nat → Z) * list JobPosting)) :
  (∀ t, fromisoformat (isoformat t) = Some (Naive t)) →
  run cfg1 clk1 file0 jobs1 = Ok r1 →
  p ∈ new_jobs r1 →
  job_id q = job_id p →
  (∃ (t : Z) (i : nat),
     (1 ≤ i ≤ length (new_jobs r1))%nat
     ∧ (∃ j, new_jobs r1 !! (i - 1)%nat = Some j ∧ job_id j = job_id p)
     ∧ t = clk1 i
     ∧ seen_time (final_data r1) (job_id p) = Some t
     ∧ (Forall (λ run : Config * (nat → Z) * list JobPosting,
                  run.1.2 0%nat - 30 * DAY < t)
          (between ++ [(cfg2, clk2, jobs2)]) →
        ∃ file r2 data lg dataC lg',
          run_all (final_file r1) between = Ok file
          ∧ run cfg2 clk2 file jobs2 = Ok r2
          ∧ _load file = Ok (data, lg)
          ∧ cleanup (clk2 0%nat) 30 data = Ok (dataC, lg')
          ∧ is_new dataC q = Ok false
          ∧ (∀ j, j ∈ new_jobs r2 → job_id j ≠ job_id p)
          ∧ (∀ j, j ∈ report r2 → job_id j ≠ job_id p)))
  ∧ (∀ data seen j, seen_of data = Some seen →
       is_new data j = Ok (negb (dict_mem (job_id j) seen))
       ∧ (dict_mem (job_id j) seen = false ↔ ∀ v, (job_id j, v) ∉ seen)).
Proof.
  intros Hrt Hrun1 Hp Hq. split.
  - destruct (run_Ok _ _ _ _ _ Hrt Hrun1)
      as (data0 & lg0 & seen0 & dF & _ & _ & _ & _ & Hfd & Hff & HseenF & Hwf).
    set (kept := List.filter (kept_by (clk1 0%nat - 30 * DAY)) seen0) in *.
    destruct (marks_get clk1 (job_id p) (new_jobs r1) 1 kept)
      as (n & j & Hn & Hj & Hget); [by apply list_elem_of_fmap_2 |].
    pose proof (lookup_lt_Some _ _ _ Hn) as Hlt.
    assert (Hfs : first_seen_of (seen_record (clk1 (1 + n)%nat) j)
                  = Some (clk1 (1 + n)%nat))
      by (by apply first_seen_of_record).
    exists (clk1 (1 + n)%nat), (1 + n)%nat. split_and!.
    + lia.
    + lia.
    + exists j. split; [| done].
      by replace (1 + n - 1)%nat with n by lia.
    + done.
    + unfold seen_time, seen_of, getitem. by rewrite Hfd, HseenF, Hget.
    + intros Hwin.
      set (Q := λ t : Z, t = clk1 (1 + n)%nat).
      assert (Hwin' : Forall (λ run : Config * (nat → Z) * list JobPosting,
                                ∀ t, Q t → run.1.2 0%nat - 30 * DAY < t)
                        (between ++ [(cfg2, clk2, jobs2)])).
      { eapply Forall_impl; [exact Hwin |]. by intros run Hr t ->. }
      apply Forall_app in Hwin' as [Hbetween Hlast].
      apply Forall_cons in Hlast as [Hlast _]. simpl in Hlast.
      assert (Hrem : remembers Q (job_id p) (final_file r1)).
      { exists dF. eexists. split_and!; [done | done | exact HseenF |].
        eexists _, _. split_and!; [by apply dict_get_elem_of | exact Hfs | done]. }
      destruct (run_all_remembered Q (job_id p) between Hrt _ Hrem Hbetween)
        as (file & Hall & Hrem').
      destruct (run_on_remembered Q (job_id p) cfg2 clk2 file jobs2 q
                  Hrt Hrem' Hlast Hq)
        as (r2 & data & lg & dataC & lg' & H1 & H2 & H3 & H4 & H5 & H6 & _).
      by exists file, r2, data, lg, dataC, lg'.
  - intros data seen j (d & -> & Hseen)%seen_of_Some.
    split; [by apply is_new_readable |].
    rewrite <- not_true_iff_false, dict_mem_In. split.
    + intros Hno v Hv. apply Hno. eauto.
    + intros Hno [v Hv]. by apply (Hno v).
Qed.

(** * Further properties of the source *)

(** ** Marking and looking up *)

Lemma dict_mem_set (k k' : str) (v : pyval) (d : list (str * pyval)) :
  dict_mem k' (dict_set k v d) = if decide (k = k') then true else dict_mem k' d.
Proof.
  unfold dict_mem. destruct (decide (k = k')) as [-> | Hne].
  - by rewrite dict_get_set_eq.
  - by rewrite dict_get_set_ne.
Qed.

Lemma dict_set_length (k : str) (v : pyval) (d : list (str * pyval)) :
  length (dict_set k v d)
  = if dict_mem k d then length d else S (length d).
Proof.
  unfold dict_mem. induction d as [| [k0 v0] d IH]; simpl; [done |].
  destruct (key_eqb k k0); simpl; [done |].
  rewrite IH. by destruct (dict_get k d).
Qed.

(** X1. After [mark_seen(job)], [is_new] is false for every posting of
    that identity and answers as before for every other identity; no
    key of the document other than "seen" changes. *)
Theorem mark_seen_makes_seen (now : Z) (data : pyval) (seen : list (str * pyval))
    (job : JobPosting) :
  seen_of data = Some seen →
  ∃ data',
    mark_seen now data job = Ok data'
    ∧ (∀ j, job_id j = job_id job → is_new data' j = Ok false)
    ∧ (∀ j, job_id j ≠ job_id job → is_new data' j = is_new data j)
    ∧ (∀ k, k ≠ u "seen" → getitem data' k = getitem data k).
Proof.
  intros (d & -> & Hseen)%seen_of_Some.
  eexists. split; [by apply mark_seen_readable |].
  split_and!.
  - intros j Hj. rewrite (is_new_readable _ _ _ (dict_get_set_eq _ _ _)).
    by rewrite dict_mem_set, Hj, decide_True.
  - intros j Hj. rewrite (is_new_readable _ _ _ (dict_get_set_eq _ _ _)).
    rewrite (is_new_readable _ _ _ Hseen), dict_mem_set.
    by rewrite decide_False.
  - intros k Hk. unfold getitem. by rewrite dict_get_set_ne.
Qed.

(** X2. [mark_seen] overwrites: the entry under the identity of the
    posting becomes the record of this call, with first_seen the instant
    of the call, whether or not the identity was there before; the map
    grows by one entry for a new identity and not at all for a known
    one, and the entries under other identities stay as they were. *)
Theorem mark_seen_overwrites (now : Z) (data : pyval) (seen : list (str * pyval))
    (job : JobPosting) :
  seen_of data = Some seen →
  fromisoformat (isoformat now) = Some (Naive now) →
  ∃ data' seen',
    mark_seen now data job = Ok data'
    ∧ seen_of data' = Some seen'
    ∧ dict_get (job_id job) seen' = Some (seen_record now job)
    ∧ first_seen_of (seen_record now job) = Some now
    ∧ (∀ k, k ≠ job_id job → dict_get k seen' = dict_get k seen)
    ∧ length seen'
      = if dict_mem (job_id job) seen then length seen else S (length seen).
Proof.
  intros (d & -> & Hseen)%seen_of_Some Hrt.
  eexists _, _. split; [by apply mark_seen_readable |].
  split_and!.
  - apply seen_of_Some. eexists. split; [done |]. apply dict_get_set_eq.
  - apply dict_get_set_eq.
  - by apply first_seen_of_record.
  - intros k Hk. by apply dict_get_set_ne.
  - apply dict_set_length.
Qed.

(** ** Statistics *)

Lemma update_stats_counts (data : pyval) (seen : list (str * pyval)) (r n : Z) :
  seen_of data = Some seen →
  (r = 0 ∧ getitem data (u "stats") = Raise KeyError)
  ∨ (∃ st, getitem data (u "stats") = Ok (PDict st)
           ∧ dict_get (u "total_reported") st = Some (PNum r)) →
  ∃ data' st',
    update_stats data n = Ok data'
    ∧ getitem data' (u "stats") = Ok (PDict st')
    ∧ dict_get (u "total_seen") st' = Some (PNum (Z.of_nat (length seen)))
    ∧ dict_get (u "total_reported") st' = Some (PNum (r + n))
    ∧ (∀ k, k ≠ u "stats" → getitem data' k = getitem data k).
Proof.
  intros (d & -> & Hseen)%seen_of_Some Hstats.
  assert (Hne : u "seen" ≠ u "stats") by discriminate.
  assert (Hne' : u "total_seen" ≠ u "total_reported") by discriminate.
  assert (Hne'' : u "total_reported" ≠ u "total_seen") by discriminate.
  unfold update_stats.
  destruct Hstats as [[-> Hno] | (st & Hst & Hrep)].
  - assert (Hd : dict_get (u "stats") d = None).
    { unfold getitem in Hno. by destruct (dict_get (u "stats") d). }
    cbn [py_contains bind]. unfold dict_mem. rewrite Hd. cbn [setitem bind].
    unfold getitem at 1. rewrite dict_get_set_ne by done. rewrite Hseen.
    cbn [bind py_len]. unfold getitem at 1. rewrite dict_get_set_eq.
    cbn [bind setitem empty_stats].
    eexists _, _. split; [reflexivity |].
    split; [unfold getitem; rewrite dict_get_set_eq; reflexivity |].
    split_and!.
    + rewrite dict_get_set_ne by done. apply dict_get_set_eq.
    + by rewrite dict_get_set_eq.
    + intros k Hk. unfold getitem. by rewrite !dict_get_set_ne.
  - assert (Hd : dict_get (u "stats") d = Some (PDict st)).
    { unfold getitem in Hst. destruct (dict_get (u "stats") d); congruence. }
    cbn [py_contains bind]. unfold dict_mem. rewrite Hd. cbn [bind].
    unfold getitem at 1. rewrite Hseen. cbn [bind py_len].
    unfold getitem at 1. rewrite Hd. cbn [bind setitem].
    unfold getitem at 1. rewrite dict_get_set_ne by done. rewrite Hrep.
    cbn [bind py_add setitem].
    eexists _, _. split; [reflexivity |].
    split; [unfold getitem; rewrite dict_get_set_eq; reflexivity |].
    split_and!.
    + rewrite dict_get_set_ne by done. apply dict_get_set_eq.
    + by rewrite dict_get_set_eq.
    + intros k Hk. unfold getitem. by rewrite !dict_get_set_ne.
Qed.

(** X3. [update_stats(n)] on a document with a seen map sets total_seen
    to the size of that map and adds [n] to total_reported, starting
    from 0 when the document has no "stats" yet; nothing else changes. *)
Theorem update_stats_spec (data : pyval) (seen : list (str * pyval)) (r n : Z) :
  seen_of data = Some seen →
  (r = 0 ∧ getitem data (u "stats") = Raise KeyError)
  ∨ (∃ st, getitem data (u "stats") = Ok (PDict st)
           ∧ dict_get (u "total_reported") st = Some (PNum r)) →
  ∃ data' st',
    update_stats data n = Ok data'
    ∧ getitem data' (u "stats") = Ok (PDict st')
    ∧ dict_get (u "total_seen") st' = Some (PNum (Z.of_nat (length seen)))
    ∧ dict_get (u "total_reported") st' = Some (PNum (r + n))
    ∧ (∀ k, k ≠ u "stats" → getitem data' k = getitem data k).
Proof. apply update_stats_counts. Qed.

(** ** More on cleanup *)

Lemma kept_by_mono (c1 c2 : Z) (kv : str * pyval) :
  c1 ≤ c2 → kept_by c2 kv = true → kept_by c1 kv = true.
Proof.
  unfold kept_by. intros Hle. destruct (first_seen_of kv.2); [lia | done].
Qed.

Lemma kept_filter_filter (c1 c2 : Z) (seen : list (str * pyval)) :
  c1 ≤ c2 →
  List.filter (kept_by c2) (List.filter (kept_by c1) seen)
  = List.filter (kept_by c2) seen.
Proof.
  intros Hle. induction seen as [| kv seen IH]; simpl; [done |].
  destruct (kept_by c1 kv) eqn:E1; simpl.
  - destruct (kept_by c2 kv); by rewrite IH.
  - destruct (kept_by c2 kv) eqn:E2; [| done].
    by rewrite (kept_by_mono c1 c2 kv Hle E2) in E1.
Qed.

Lemma readable_filter (g : str * pyval → bool) (seen : list (str * pyval)) :
  Forall (λ kv, is_Some (first_seen_of kv.2)) seen →
  Forall (λ kv, is_Some (first_seen_of kv.2)) (List.filter g seen).
Proof.
  intros H. apply Forall_forall. intros kv [Hkv _]%bool_filter_elem_of.
  rewrite Forall_forall in H. by apply H.
Qed.

(** X4. Cleanups compose. On a store whose entries carry a first_seen
    that parses to a naive datetime, and for two retention windows that
    [timedelta] accepts and whose cutoffs are datetimes: a cleanup after
    an earlier cleanup with a cutoff no later than its own leaves the
    store a single cleanup with the later cutoff leaves, and a cleanup
    repeated with the same cutoff changes nothing and logs nothing. *)
Theorem cleanup_compose (now1 days1 now2 days2 : Z) (data : pyval)
    (seen : list (str * pyval)) :
  seen_of data = Some seen →
  Forall (λ kv, is_Some (first_seen_of kv.2)) seen →
  Z.abs days1 ≤ MAX_DELTA_DAYS → is_datetime (now1 - days1 * DAY) = true →
  Z.abs days2 ≤ MAX_DELTA_DAYS → is_datetime (now2 - days2 * DAY) = true →
  now1 - days1 * DAY ≤ now2 - days2 * DAY →
  ∃ data1 lg1 data2 lg2 lg,
    cleanup now1 days1 data = Ok (data1, lg1)
    ∧ cleanup now2 days2 data1 = Ok (data2, lg2)
    ∧ cleanup now2 days2 data = Ok (data2, lg)
    ∧ (now1 - days1 * DAY = now2 - days2 * DAY → data2 = data1 ∧ lg2 = []).
Proof.
  intros (d & -> & Hseen)%seen_of_Some Hread Hd1 Hr1 Hd2 Hr2 Hle.
  pose proof (cutoff_of_datetime now1 days1 Hd1 Hr1) as Hc1.
  pose proof (cutoff_of_datetime now2 days2 Hd2 Hr2) as Hc2.
  set (c1 := now1 - days1 * DAY) in *. set (c2 := now2 - days2 * DAY) in *.
  eexists _, _, _, _, _.
  split; [by apply cleanup_readable |].
  split; [apply cleanup_readable;
            [done | apply dict_get_set_eq | by apply readable_filter] |].
  fold c1 c2. rewrite dict_set_set, (kept_filter_filter c1 c2 seen Hle).
  split.
  - rewrite (cleanup_readable now2 days2 d seen Hc2 Hseen Hread). fold c2. reflexivity.
  - intros Heq. rewrite <- Heq. split; [done |]. by rewrite Z.sub_diag.
Qed.

Lemma filterM_Raise {A} (f : A → result bool) (pre post : list A) (x : A)
    (e : exn) :
  Forall (λ y, ∃ b, f y = Ok b) pre → f x = Raise e →
  filterM f (pre ++ x :: post) = Raise e.
Proof.
  intros Hpre Hx. induction Hpre as [| y pre [b Hy] _ IH]; simpl.
  - by rewrite Hx.
  - by rewrite Hy, IH.
Qed.

(** X5. One unreadable entry aborts cleanup, and with it every run on
    that state file. For the first entry of the seen map whose
    first_seen does not parse to a naive datetime, cleanup (with a
    retention window whose cutoff exists) raises TypeError when the
    entry is not a dict or holds a first_seen that is not a string,
    KeyError when it has no first_seen, ValueError when the string does
    not parse, and TypeError again when the string parses to an aware
    datetime, which cannot be compared with the naive cutoff. The
    entries after it are not looked at. *)
Theorem cleanup_unreadable_entry (now days : Z) (data : pyval)
    (pre post : list (str * pyval)) (k : str) (v : pyval) :
  seen_of data = Some (pre ++ (k, v) :: post) →
  Forall (λ kv, is_Some (first_seen_of kv.2)) pre →
  first_seen_of v = None →
  Z.abs days ≤ MAX_DELTA_DAYS → is_datetime (now - days * DAY) = true →
  ∃ e,
    cleanup now days data = Raise e
    ∧ (∀ cfg clk all_jobs, run cfg clk (Document data) all_jobs = Raise e)
    ∧ e = match v with
          | PDict entry =>
              match dict_get (u "first_seen") entry with
              | None => KeyError
              | Some (PStr s) =>
                  match fromisoformat s with
                  | Some (Aware _ _) => TypeError
                  | _ => ValueError
                  end
              | Some _ => TypeError
              end
          | _ => TypeError
          end.
Proof.
  intros (d & -> & Hseen)%seen_of_Some Hpre Hv Hdays Hcut.
  set (e := match v with
            | PDict entry =>
                match dict_get (u "first_seen") entry with
                | None => KeyError
                | Some (PStr s) =>
                    match fromisoformat s with
                    | Some (Aware _ _) => TypeError
                    | _ => ValueError
                    end
                | Some _ => TypeError
                end
            | _ => TypeError
            end).
  assert (He : ∀ cutoff, fresh_enough cutoff (k, v) = Raise e).
  { intros cutoff. unfold first_seen_of in Hv. unfold fresh_enough, e. simpl.
    destruct v as [| | | | | entry]; simpl in *; try done.
    destruct (dict_get (u "first_seen") entry) as [[| | | s | |] |]; simpl; try done.
    by destruct (fromisoformat s) as [[t | t o] |]. }
  assert (Hc : ∀ now days,
            cutoff_of now days = Ok (now - days * DAY) →
            cleanup now days (PDict d) = Raise e).
  { intros now' days' Hcut'.
    unfold cleanup. rewrite Hcut'. cbn [bind getitem]. rewrite Hseen.
    cbn [bind py_len py_items].
    rewrite (filterM_Raise _ pre post (k, v) e); [done | | apply He].
    eapply Forall_impl; [exact Hpre |]. intros kv Hkv.
    eexists. by apply fresh_enough_readable. }
  exists e. split_and!; [by apply Hc, cutoff_of_datetime | | done].
  intros cfg clk all_jobs. unfold run. cbn [_load bind].
  by rewrite Hc by apply cutoff_of_30.
Qed.

Lemma bool_filter_length_eq {A} (g : A → bool) (l : list A) :
  length (List.filter g l) = length l → List.filter g l = l.
Proof.
  induction l as [| x l IH]; simpl; [done |].
  destruct (g x); simpl.
  - intros [= H]. by rewrite IH.
  - intros H. pose proof (filter_length_le g l). lia.
Qed.

(** X6. Cleanup logs exactly when it has removed something: the log is
    empty iff the seen map is unchanged, and otherwise holds one line
    with the number of entries removed and the retention in days. *)
Theorem cleanup_log (now days : Z) (data data' : pyval)
    (seen : list (str * pyval)) (lg : list log_msg) :
  seen_of data = Some seen →
  cleanup now days data = Ok (data', lg) →
  ∃ seen',
    seen_of data' = Some seen'
    ∧ (lg = [] ↔ seen' = seen)
    ∧ (lg = [] ∨ lg = [InfoCleaned
                         (Z.of_nat (length seen) - Z.of_nat (length seen')) days])
    ∧ (length seen' ≤ length seen)%nat.
Proof.
  intros (d & -> & Hseen)%seen_of_Some Hc.
  destruct (cleanup_Ok _ _ _ _ _ Hc) as (d' & seen0 & [= <-] & Hseen0 & Hread & ->).
  rewrite Hseen in Hseen0. injection Hseen0 as <-.
  rewrite (cleanup_readable now days d seen (cleanup_Ok_cutoff _ _ _ _ Hc) Hseen Hread)
    in Hc.
  injection Hc as <-.
  set (kept := List.filter (kept_by (now - days * DAY)) seen).
  pose proof (filter_length_le (kept_by (now - days * DAY)) seen) as Hlen.
  fold kept in Hlen.
  exists kept. split_and!.
  - apply seen_of_Some. eexists. split; [done |]. apply dict_get_set_eq.
  - destruct (Z.of_nat (length seen) - Z.of_nat (length kept) =? 0) eqn:E.
    + split; [| done]. intros _. apply bool_filter_length_eq. fold kept. lia.
    + split; [done |]. intros Heq. rewrite Heq in E. lia.
  - destruct (_ =? 0); [by left | by right].
  - exact Hlen.
Qed.

(** ** More on one run *)

(** The steps of a run that has returned, without any assumption on the
    library. *)
Lemma run_shape (cfg : Config) (clk : nat → Z) (file : file_state)
    (all_jobs : list JobPosting) (r : run_result) :
  run cfg clk file all_jobs = Ok r →
  ∃ (d0 seen0 dU : list (str * pyval)) (lg0 lg1 : list log_msg),
    _load file = Ok (PDict d0, lg0)
    ∧ dict_get (u "seen") d0 = Some (PDict seen0)
    ∧ Forall (λ kv, is_Some (first_seen_of kv.2)) seen0
    ∧ cleanup (clk 0%nat) 30 (PDict d0)
      = Ok (PDict (dict_set (u "seen")
                     (PDict (List.filter (kept_by (clk 0%nat - 30 * DAY)) seen0))
                     d0), lg1)
    ∧ new_jobs r
      = List.filter
          (λ j, negb (dict_mem (job_id j)
                        (List.filter (kept_by (clk 0%nat - 30 * DAY)) seen0)))
          (relevant_jobs cfg all_jobs)
    ∧ report r = generate (py_slice_to (max_results cfg) (new_jobs r))
    ∧ update_stats
        (PDict (dict_set (u "seen")
                  (PDict (marks clk 1
                            (List.filter (kept_by (clk 0%nat - 30 * DAY)) seen0)
                            (new_jobs r)))
                  d0))
        (Z.of_nat (length (new_jobs r)))
      = Ok (PDict dU)
    ∧ final_data r
      = PDict (dict_set (u "last_run")
                 (PStr (isoformat (clk (S (length (new_jobs r)))))) dU)
    ∧ final_file r = Document (final_data r)
    ∧ logs r = lg0 ++ lg1.
Proof.
  unfold run.
  intros ([data0 lg0] & Hload & H)%bind_Ok.
  apply bind_Ok in H as ([dataC lg1] & Hclean & H).
  pose proof Hclean as Hclean'.
  apply cleanup_Ok in Hclean as (d0 & seen0 & -> & Hseen0 & Hread0 & ->).
  set (kept := List.filter (kept_by (clk 0%nat - 30 * DAY)) seen0) in *.
  assert (HseenC : dict_get (u "seen") (dict_set (u "seen") (PDict kept) d0)
                   = Some (PDict kept)) by apply dict_get_set_eq.
  rewrite (filterM_is_new _ _ _ HseenC) in H. cbn [bind] in H.
  rewrite (mark_all_readable _ _ _ _ _ HseenC) in H. cbn [bind] in H.
  rewrite dict_set_set in H.
  apply bind_Ok in H as (dataU & Hstats & H).
  pose proof Hstats as Hstats'.
  apply update_stats_Ok in Hstats as (dU & st & n & -> & _).
  rewrite save_Ok in H. cbn [bind] in H. injection H as <-.
  cbn [new_jobs report final_data final_file logs].
  by exists d0, seen0, dU, lg0, lg1.
Qed.

Lemma marks_mem (clk : nat → Z) (k : str) (jobs : list JobPosting) :
  ∀ (i : nat) (seen : list (str * pyval)),
    dict_mem k seen = true ∨ k ∈ job_id <$> jobs →
    dict_mem k (marks clk i seen jobs) = true.
Proof.
  induction jobs as [| job rest IH]; intros i seen Hk; simpl.
  - destruct Hk as [Hk | Hk]; [done | by apply elem_of_nil in Hk].
  - apply IH. rewrite dict_mem_set.
    destruct (decide (job_id job = k)) as [<- | Hne]; [by left |].
    rewrite fmap_cons, elem_of_cons in Hk.
    destruct Hk as [Hk | [Hk | Hk]]; [by left | done | by right].
Qed.

Lemma dedup_key_score (cfg : Config) (j : JobPosting) :
  dedup_key (score cfg j) = dedup_key j.
Proof. reflexivity. Qed.

Lemma score_clamp (cfg : Config) (job : JobPosting) :
  relevance_score (score cfg job) = Z.max 0 (Z.min 100 (raw_sum cfg job)).
Proof.
  unfold score. cbn [relevance_score set_score]. by rewrite score_tally_raw_sum.
Qed.

(** X7. What a run reports: every posting of the report is among the
    new postings; every new posting is the scored form of a scraped
    posting, meets the threshold, scores between 0 and 100, and was not
    in the seen map the run started from after its cleanup; and no two
    new postings share a deduplication key. *)
Theorem run_report_contents (cfg : Config) (clk : nat → Z) (file : file_state)
    (all_jobs : list JobPosting) (r : run_result) :
  run cfg clk file all_jobs = Ok r →
  (∀ j, j ∈ report r → j ∈ new_jobs r)
  ∧ (∀ j, j ∈ new_jobs r →
       (∃ j0, j0 ∈ all_jobs ∧ j = score cfg j0)
       ∧ min_score cfg ≤ relevance_score j
       ∧ 0 ≤ relevance_score j ≤ 100)
  ∧ NoDup (dedup_key <$> new_jobs r)
  ∧ ∃ data lg dataC lg',
      _load file = Ok (data, lg)
      ∧ cleanup (clk 0%nat) 30 data = Ok (dataC, lg')
      ∧ ∀ j, j ∈ new_jobs r → is_new dataC j = Ok true.
Proof.
  intros Hrun.
  destruct (run_shape _ _ _ _ _ Hrun)
    as (d0 & seen0 & dU & lg0 & lg1 & Hload & Hseen0 & _ & Hclean & Hnew & Hrep & _).
  set (kept := List.filter (kept_by (clk 0%nat - 30 * DAY)) seen0) in *.
  split_and!.
  - intros j Hj. rewrite Hrep in Hj. by apply report_from_new_jobs in Hj.
  - intros j Hj. rewrite Hnew in Hj.
    apply bool_filter_elem_of in Hj as [Hj _].
    unfold relevant_jobs in Hj. apply bool_filter_elem_of in Hj as [Hj Hmin].
    apply list_elem_of_fmap in Hj as (j1 & -> & Hj1).
    split_and!.
    + exists j1. split; [| done].
      eapply elem_of_sublist; [exact Hj1 |].
      rewrite deduplicate_first_occurrences. apply first_occurrences_sublist.
    + lia.
    + rewrite score_clamp. lia.
    + rewrite score_clamp. lia.
  - rewrite Hnew.
    apply (sublist_NoDup _ (dedup_key <$> deduplicate all_jobs)).
    + rewrite deduplicate_first_occurrences. apply first_occurrences_NoDup.
    + assert (Heq : dedup_key <$> deduplicate all_jobs
                    = dedup_key <$> map (score cfg) (deduplicate all_jobs)).
      { induction (deduplicate all_jobs) as [| x l IH]; [done |].
        cbn [map fmap list_fmap]. by rewrite <- IH. }
      rewrite Heq. apply fmap_sublist.
      etrans; [apply bool_filter_sublist |]. apply bool_filter_sublist.
  - eexists _, _, _, _. split_and!; [exact Hload | exact Hclean |].
    intros j Hj. rewrite Hnew in Hj. apply bool_filter_elem_of in Hj as [_ Hj].
    rewrite (is_new_readable _ _ _ (dict_get_set_eq _ _ _)). by rewrite Hj.
Qed.

Lemma update_stats_total_seen (d seen : list (str * pyval)) (n : Z)
    (data' : pyval) :
  dict_get (u "seen") d = Some (PDict seen) →
  update_stats (PDict d) n = Ok data' →
  ∃ d' st,
    data' = PDict d'
    ∧ dict_get (u "stats") d' = Some (PDict st)
    ∧ dict_get (u "total_seen") st = Some (PNum (Z.of_nat (length seen)))
    ∧ ∀ k, k ≠ u "stats" → dict_get k d' = dict_get k d.
Proof.
  intros Hseen. unfold update_stats.
  assert (Hne : u "seen" ≠ u "stats") by discriminate.
  assert (Hne' : u "total_reported" ≠ u "total_seen") by discriminate.
  intros (has & _ & H)%bind_Ok.
  apply bind_Ok in H as (data1 & Hd1 & H).
  assert (∃ d1, data1 = PDict d1
                ∧ ∀ k, k ≠ u "stats" → dict_get k d1 = dict_get k d)
    as (d1 & -> & Hsame1).
  { destruct has.
    - injection Hd1 as <-. eauto.
    - injection Hd1 as <-. eexists. split; [done |].
      intros k Hk. by rewrite dict_get_set_ne. }
  unfold getitem at 1 in H. rewrite (Hsame1 _ Hne), Hseen in H. cbn [bind py_len] in H.
  apply bind_Ok in H as (stats & _ & H).
  apply bind_Ok in H as (stats2 & (st & -> & ->)%setitem_Ok & H).
  apply bind_Ok in H as (data2 & [= <-] & H).
  apply bind_Ok in H as (rep & _ & H).
  apply bind_Ok in H as (rep' & _ & H).
  apply bind_Ok in H as (stats3 & [= <-] & H).
  injection H as <-.
  eexists _, _. split_and!; [done | apply dict_get_set_eq | |].
  - rewrite dict_get_set_ne by done. apply dict_get_set_eq.
  - intros k Hk. rewrite !dict_get_set_ne by done. by apply Hsame1.
Qed.

(** X8. The books a run leaves behind: every new posting, reported or
    cut off by the cap, is seen afterwards; total_seen is the size of
    the seen map; total_reported has grown by the number of new postings
    (not by the size of the report); last_run is the instant of the
    save; and the state file holds exactly this document, so that the
    next load returns it without a warning. *)
Theorem run_bookkeeping (cfg : Config) (clk : nat → Z) (file : file_state)
    (all_jobs : list JobPosting) (r : run_result) :
  run cfg clk file all_jobs = Ok r →
  ∃ seenF st,
    seen_of (final_data r) = Some seenF
    ∧ (∀ j, j ∈ new_jobs r → is_new (final_data r) j = Ok false)
    ∧ getitem (final_data r) (u "stats") = Ok (PDict st)
    ∧ dict_get (u "total_seen") st = Some (PNum (Z.of_nat (length seenF)))
    ∧ (∀ data lg r0,
         _load file = Ok (data, lg) →
         (r0 = 0 ∧ getitem data (u "stats") = Raise KeyError)
         ∨ (∃ st0, getitem data (u "stats") = Ok (PDict st0)
                   ∧ dict_get (u "total_reported") st0 = Some (PNum r0)) →
         dict_get (u "total_reported") st
         = Some (PNum (r0 + Z.of_nat (length (new_jobs r)))))
    ∧ getitem (final_data r) (u "last_run")
      = Ok (PStr (isoformat (clk (S (length (new_jobs r))))))
    ∧ final_file r = Document (final_data r)
    ∧ _load (final_file r) = Ok (final_data r, []).
Proof.
  intros Hrun.
  destruct (run_shape _ _ _ _ _ Hrun)
    as (d0 & seen0 & dU & lg0 & lg1 & Hload & Hseen0 & _ & _ & _ & _
        & Hstats & Hfd & Hff & _).
  set (kept := List.filter (kept_by (clk 0%nat - 30 * DAY)) seen0) in *.
  set (seenF := marks clk 1 kept (new_jobs r)) in *.
  assert (Hne1 : u "last_run" ≠ u "seen") by discriminate.
  assert (Hne2 : u "last_run" ≠ u "stats") by discriminate.
  assert (Hne3 : u "seen" ≠ u "stats") by discriminate.
  assert (Hne4 : u "stats" ≠ u "seen") by discriminate.
  destruct (update_stats_total_seen _ seenF _ _ (dict_get_set_eq _ _ _) Hstats)
    as (dU' & st & [= <-] & Hst & Htotal & Hsame).
  assert (HseenF : dict_get (u "seen") dU = Some (PDict seenF)).
  { rewrite Hsame by done. apply dict_get_set_eq. }
  exists seenF, st. rewrite Hff, Hfd. split_and!.
  - apply seen_of_Some. eexists. split; [done |]. by rewrite dict_get_set_ne.
  - intros j Hj. rewrite (is_new_readable _ seenF); [| by rewrite dict_get_set_ne].
    unfold seenF.
    rewrite (marks_mem clk (job_id j) (new_jobs r) 1 kept); [done |].
    right. by apply list_elem_of_fmap_2.
  - unfold getitem. by rewrite dict_get_set_ne, Hst.
  - exact Htotal.
  - intros data lg r0 Hload' Hprior.
    rewrite Hload in Hload'. injection Hload' as <- <-.
    assert (Hprior' :
      (r0 = 0 ∧ getitem (PDict (dict_set (u "seen") (PDict seenF) d0)) (u "stats")
                = Raise KeyError)
      ∨ (∃ st0, getitem (PDict (dict_set (u "seen") (PDict seenF) d0)) (u "stats")
                = Ok (PDict st0)
                ∧ dict_get (u "total_reported") st0 = Some (PNum r0))).
    { unfold getitem in *. by rewrite dict_get_set_ne. }
    destruct (update_stats_counts _ seenF r0 (Z.of_nat (length (new_jobs r)))
                (proj2 (seen_of_Some _ _)
                   (ex_intro _ _ (conj eq_refl (dict_get_set_eq _ _ _))))
                Hprior')
      as (data' & st' & Hus & Hgs & _ & Hrep & _).
    rewrite Hstats in Hus. injection Hus as <-.
    unfold getitem in Hgs. rewrite Hst in Hgs. by injection Hgs as <-.
  - unfold getitem. by rewrite dict_get_set_eq.
  - done.
  - done.
Qed.

(** ** The first run, reset, and the command line *)

Lemma well_formed_empty : well_formed empty_data.
Proof. by eexists _, [], _, 0. Qed.

Lemma bool_filter_all {A} (g : A → bool) (l : list A) :
  (∀ x, g x = true) → List.filter g l = l.
Proof.
  intros Hg. induction l as [| x l IH]; simpl; [done |]. by rewrite Hg, IH.
Qed.

(** A run on a document with an empty seen map completes and finds
    every posting that meets the threshold new. *)
Lemma run_on_empty_seen (cfg : Config) (clk : nat → Z) (data : pyval)
    (all_jobs : list JobPosting) :
  well_formed data → seen_of data = Some [] →
  ∃ r, run cfg clk (Document data) all_jobs = Ok r
       ∧ new_jobs r = relevant_jobs cfg all_jobs.
Proof.
  intros Hwf Hs. destruct (run_well_formed cfg clk data all_jobs Hwf) as [r Hrun].
  exists r. split; [done |].
  destruct (run_shape _ _ _ _ _ Hrun)
    as (d0 & seen0 & dU & lg0 & lg1 & [= ->] & Hseen0 & _ & _ & Hnew & _).
  apply seen_of_Some in Hs as (d & [= <-] & Hs).
  rewrite Hseen0 in Hs. injection Hs as ->. simpl in Hnew.
  rewrite Hnew. by apply bool_filter_all.
Qed.

(** X9. The first run. With no state file the run completes, finds every
    posting that meets the threshold new, and logs nothing. A state file
    that is not valid JSON gives the same run with one warning in the
    log. A state file that cannot be read for another reason (bad
    encoding, I/O error) is not recovered: the run raises that error. *)
Theorem first_run_outcomes (cfg : Config) (clk : nat → Z)
    (all_jobs : list JobPosting) :
  (∃ r r',
     run cfg clk Missing all_jobs = Ok r
     ∧ new_jobs r = relevant_jobs cfg all_jobs
     ∧ logs r = []
     ∧ run cfg clk (Unreadable JSONDecodeError) all_jobs = Ok r'
     ∧ new_jobs r' = new_jobs r ∧ report r' = report r
     ∧ final_file r' = final_file r
     ∧ logs r' = [WarnCorrupted])
  ∧ run cfg clk (Unreadable UnicodeDecodeError) all_jobs = Raise UnicodeDecodeError
  ∧ run cfg clk (Unreadable OSError) all_jobs = Raise OSError.
Proof.
  split; [| by split].
  destruct (run_on_empty_seen cfg clk empty_data all_jobs well_formed_empty eq_refl)
    as (r & Hrun & Hnew).
  assert (Hm : run cfg clk Missing all_jobs = Ok r) by exact Hrun.
  assert (Hlogs : logs r = []).
  { destruct (run_shape _ _ _ _ _ Hm)
      as (d0 & seen0 & dU & lg0 & lg1 & [= <- <-] & [= <-] & _ & Hc & _ & _ & _ & _ & _ & ->).
    unfold cleanup in Hc. rewrite cutoff_of_30 in Hc. simpl in Hc.
    by injection Hc as <-. }
  assert (∃ r', run cfg clk (Unreadable JSONDecodeError) all_jobs = Ok r'
                ∧ new_jobs r' = new_jobs r ∧ report r' = report r
                ∧ final_file r' = final_file r
                ∧ logs r' = WarnCorrupted :: logs r) as (r' & H' & Hn & Hr & Hf & Hl).
  { revert Hm. unfold run. cbn [_load bind].
    destruct (cleanup _ _ _) as [[dataC lg1] |]; cbn [bind]; [| discriminate].
    destruct (filterM _ _) as [nj |]; cbn [bind]; [| discriminate].
    destruct (mark_all _ _ _ _) as [dataM |]; cbn [bind]; [| discriminate].
    destruct (update_stats _ _) as [dataU |]; cbn [bind]; [| discriminate].
    destruct (save _ _) as [[dataS fileS] |]; cbn [bind]; [| discriminate].
    intros [= <-]. eexists. split; [reflexivity |]. done. }
  exists r, r'. rewrite Hlogs in Hl. by split_and!.
Qed.

(** X10. [--reset] replaces whatever state loads, a document of the
    wrong shape included, by the empty state stamped with the instant of
    the reset; the run after it completes and finds every posting that
    meets the threshold new. A state file that does not load is not
    repaired: the reset raises what the load raised. *)
Theorem reset_outcomes (args : Args) (cfg : Config) (clk : nat → Z)
    (file : file_state) (scrape : str → result (list JobPosting)) :
  dry_run args = false → reset_flag args = true →
  (∀ data lg, _load file = Ok (data, lg) →
     ∃ data',
       run_args args cfg clk file scrape = Ok (Returned (Document data'))
       ∧ seen_of data' = Some []
       ∧ getitem data' (u "last_run") = Ok (PStr (isoformat (clk 0%nat)))
       ∧ getitem data' (u "stats") = Ok empty_stats
       ∧ ∀ cfg' clk' all_jobs,
           ∃ r, run cfg' clk' (Document data') all_jobs = Ok r
                ∧ new_jobs r = relevant_jobs cfg' all_jobs)
  ∧ (∀ e, _load file = Raise e → run_args args cfg clk file scrape = Raise e).
Proof.
  intros Hdry Hreset. unfold run_args. rewrite Hdry, Hreset. split.
  - intros data lg ->. cbn [bind]. unfold reset, empty_data. rewrite save_Ok. cbn [bind].
    eexists. split; [reflexivity |].
    assert (Hs : seen_of (PDict (dict_set (u "last_run")
                            (PStr (isoformat (clk 0%nat)))
                            [(u "seen", PDict []); (u "last_run", PNone);
                             (u "stats", empty_stats)])) = Some []) by reflexivity.
    split_and!; [exact Hs | reflexivity | reflexivity |].
    intros cfg' clk' all_jobs. apply run_on_empty_seen; [| exact Hs].
    by eexists _, [], _, 0.
  - intros e ->. reflexivity.
Qed.

(** X11. The exits before the pipeline. [--dry-run] returns before the
    store is even loaded, so it succeeds on any state file and leaves
    it alone. An unknown [--source] leaves the state file alone too (the
    cleanup it has done in memory is never saved), but only after the
    load and the cleanup have succeeded: on a state file like [{}] it
    raises instead. *)
Theorem early_exits (args : Args) (cfg : Config) (clk : nat → Z)
    (file : file_state) (scrape : str → result (list JobPosting)) :
  (dry_run args = true → run_args args cfg clk file scrape = Ok (Returned file))
  ∧ (dry_run args = false → reset_flag args = false →
     active_scrapers args = None →
     (∀ data lg dataC lg',
        _load file = Ok (data, lg) → cleanup (clk 0%nat) 30 data = Ok (dataC, lg') →
        run_args args cfg clk file scrape = Ok (Returned file))
     ∧ (file = Document (PDict []) →
        run_args args cfg clk file scrape = Raise KeyError))
  ∧ (active_scrapers args = None ↔
     ∃ src, source_arg args = Some src ∧ src ≠ [] ∧ src ∉ SCRAPERS).
Proof.
  unfold run_args. split_and!.
  - by intros ->.
  - intros -> -> ->. split.
    + intros data lg dataC lg' -> . cbn [bind]. by intros ->.
    + intros ->. cbn [_load bind]. unfold cleanup. by rewrite cutoff_of_30.
  - unfold active_scrapers. destruct (source_arg args) as [src |].
    + destruct src as [| c src]; simpl.
      * split; [done |]. by intros (? & [= <-] & ? & _).
      * case_bool_decide as Hin.
        -- split; [done |]. intros (? & [= <-] & _ & Hn). by destruct Hn.
        -- split; [| done]. intros _. by exists (c :: src).
    + split; [done |]. by intros (? & [=] & _).
Qed.

Lemma collect_flat (scrape : str → result (list JobPosting)) (active : list str) :
  ∀ all_jobs,
    collect scrape all_jobs active
    = all_jobs ++ mjoin (map (λ name, match scrape name with
                                      | Ok jobs => jobs
                                      | Raise _ => []
                                      end) active).
Proof.
  induction active as [| name rest IH]; intros all_jobs; simpl.
  - by rewrite app_nil_r.
  - destruct (scrape name) as [jobs | e]; rewrite IH; simpl.
    + by rewrite <- (assoc_L (++)).
    + done.
Qed.

(** X12. Scrapers fail alone. The postings a run works on are those of
    the scrapers that returned, in registry order, a scraper that raised
    adding nothing and stopping no later scraper; with [--source] naming
    a scraper only that one is asked. Even when every scraper raises,
    the run on a fresh state completes, with an empty report. *)
Theorem scrapers_fail_alone (args : Args) (cfg : Config) (clk : nat → Z)
    (file : file_state) (scrape : str → result (list JobPosting)) :
  dry_run args = false → reset_flag args = false →
  (∀ active, active_scrapers args = Some active →
     run_args args cfg clk file scrape
     = bind (run cfg clk file
               (mjoin (map (λ name, match scrape name with
                                    | Ok jobs => jobs
                                    | Raise _ => []
                                    end) active)))
         (λ r, Ok (Completed r)))
  ∧ (∀ src, src ∈ SCRAPERS → source_arg args = Some src →
       active_scrapers args = Some [src])
  ∧ (source_arg args = None → active_scrapers args = Some SCRAPERS)
  ∧ ((∀ name, ∃ e, scrape name = Raise e) →
     ∀ active, active_scrapers args = Some active →
       ∃ r, run_args args cfg clk Missing scrape = Ok (Completed r)
            ∧ new_jobs r = [] ∧ report r = []).
Proof.
  intros Hdry Hreset. unfold run_args. rewrite Hdry, Hreset. split_and!.
  - intros active ->. by rewrite collect_flat.
  - intros src Hin Hsrc. unfold active_scrapers. rewrite Hsrc.
    assert (truthy src = true) as ->.
    { destruct src; [| done]. by vm_compute in Hin; repeat
        (apply elem_of_cons in Hin as [Hin | Hin]; [discriminate |]);
        apply elem_of_nil in Hin. }
    by rewrite bool_decide_eq_true_2.
  - intros Hsrc. unfold active_scrapers. by rewrite Hsrc.
  - intros Hfail active ->. rewrite collect_flat. cbn [app].
    assert (Hnone : mjoin (map (λ name, match scrape name with
                                        | Ok jobs => jobs
                                        | Raise _ => []
                                        end) active) = []).
    { induction active as [| name rest IH]; [done |]. simpl.
      destruct (Hfail name) as [e ->]. exact IH. }
    rewrite Hnone.
    destruct (run_on_empty_seen cfg clk empty_data [] well_formed_empty eq_refl)
      as (r & Hrun & Hnew).
    change (run cfg clk (Document empty_data) []) with (run cfg clk Missing [])
      in Hrun.
    exists r. rewrite Hrun. cbn [bind]. split; [done |].
    assert (Hn : new_jobs r = []) by (rewrite Hnew; reflexivity).
    split; [exact Hn |].
    destruct (run_shape _ _ _ _ _ Hrun) as (? & ? & ? & ? & ? & _ & _ & _ & _ & _ & Hrep & _).
    rewrite Hrep, Hn. unfold py_slice_to.
    by destruct (0 <=? max_results cfg); rewrite take_nil.
Qed.

(** ** Reasons *)

Lemma title_step_rule cfg tl : rule_step 1 (title_step cfg tl).
Proof.
  intros t. unfold title_step.
  destruct (List.find _ (target_titles cfg)) as [x |].
  - right. by exists (TitleMatch x).
  - destruct (List.find _ (seniority_indicators cfg)) as [x |]; [| by left].
    right. by exists (SeniorityMatch x).
Qed.

Lemma keyword_step_rule cfg text : rule_step 2 (keyword_step cfg text).
Proof.
  intros t. unfold keyword_step.
  destruct (truthy_list _); [| by left].
  right. by eexists (Keywords _ _).
Qed.

Lemma location_step_rule cfg ll : rule_step 3 (location_step cfg ll).
Proof.
  intros t. unfold location_step.
  destruct (List.find _ (location_include cfg)) as [x |]; [| by left].
  right. by exists (Location x).
Qed.

Lemma company_step_rule cfg cl : rule_step 5 (company_step cfg cl).
Proof.
  intros t. unfold company_step.
  destruct (List.find _ (target_companies cfg)) as [x |]; [| by left].
  right. by exists (TargetCompany (tc_name x)).
Qed.

Lemma salary_step_rule text : rule_step 6 (salary_step text).
Proof.
  intros t. unfold salary_step.
  destruct (re_search text) as [[g1 g2] |]; [| by left].
  destruct (100000 <=? _); [right; by eexists (Salary _) |].
  destruct (_ <? 60000); [right; by eexists (LowSalary _) | by left].
Qed.

(** After a rule that fires at most once, the tally is built up to that
    rule. *)
Lemma built_rule (k : nat) (f : tally → tally) (n : nat) (t : tally) :
  rule_step k f → built n t → (n < k)%nat →
  ∃ n', (n' ≤ k)%nat ∧ built n' (f t).
Proof.
  intros Hf Hb Hlt. destruct (Hf t) as [-> | (r & Hr & ->)].
  - exists n. split; [lia | done].
  - exists (rule_no r). split; [lia |].
    apply (built_step n); [done | lia | lia].
Qed.

(** After a loop that adds one reason of rule [k] per matching phrase. *)
Lemma built_loop (k : nat) (d : Z) (mk : str → reason) (hay : str)
    (phrases : list str) :
  (1 < k)%nat →
  (∀ p, rule_no (mk p) = k ∧ reason_contribution (mk p) = d) →
  ∀ n t, built n t → (n ≤ k)%nat →
    ∃ n', (n' ≤ k)%nat
          ∧ built n' (fold_left
                        (λ t p, if str_in p hay then bump d (mk p) t else t)
                        phrases t).
Proof.
  intros Hk Hmk. induction phrases as [| p ps IH]; intros n t Hb Hle; simpl.
  - by exists n.
  - destruct (str_in p hay); [| by apply (IH n)].
    destruct (Hmk p) as [Hr Hd].
    apply (IH k); [| done]. rewrite <- Hd. rewrite <- Hr at 1.
    apply (built_step n); [done | lia | lia].
Qed.

Lemma score_tally_built (cfg : Config) (job : JobPosting) :
  ∃ n, built n (score_tally cfg job).
Proof.
  unfold score_tally.
  destruct (built_rule 1 _ 0 (0, []) (title_step_rule cfg (lower (title job)))
              built_start) as (n1 & H1 & B1); [lia |].
  destruct (built_rule 2 _ n1 _ (keyword_step_rule cfg (full_text job)) B1)
    as (n2 & H2 & B2); [lia |].
  destruct (built_rule 3 _ n2 _ (location_step_rule cfg (loc_text job)) B2)
    as (n3 & H3 & B3); [lia |].
  destruct (built_loop 4 (-50) LocationExcluded (loc_text job)
              (location_exclude cfg) ltac:(lia) ltac:(done) n3 _ B3)
    as (n4 & H4 & B4); [lia |].
  destruct (built_rule 5 _ n4 _ (company_step_rule cfg (lower (company job))) B4)
    as (n5 & H5 & B5); [lia |].
  destruct (built_rule 6 _ n5 _ (salary_step_rule (salary_text job)) B5)
    as (n6 & H6 & B6); [lia |].
  destruct (built_loop 7 (-40) Negative (lower (title job))
              (negative_keywords cfg) ltac:(lia) ltac:(done) n6 _ B6)
    as (n7 & H7 & B7); [lia |].
  by exists n7.
Qed.

Lemma total_contribution_snoc (rs : list reason) (r : reason) :
  total_contribution (rs ++ [r]) = total_contribution rs + reason_contribution r.
Proof.
  unfold total_contribution. induction rs as [| x rs IH]; simpl; [lia |].
  rewrite IH. lia.
Qed.

Lemma built_explained (n : nat) (t : tally) :
  built n t → fst t = total_contribution (snd t).
Proof.
  induction 1 as [| n t r _ IH _ _]; [done |].
  simpl. rewrite total_contribution_snoc. lia.
Qed.

Lemma built_ordered (n : nat) (t : tally) :
  built n t →
  StronglySorted by_rule (snd t) ∧ Forall (λ r, (rule_no r ≤ n)%nat) (snd t).
Proof.
  induction 1 as [| n t r _ [IHs IHf] Hle _]; [by split; constructor |].
  simpl. split.
  - apply StronglySorted_app_2; [| done | by repeat constructor].
    intros x1 x2 Hx1 ->%list_elem_of_singleton. unfold by_rule.
    rewrite Forall_forall in IHf. specialize (IHf x1 Hx1). lia.
  - apply Forall_app. split; [| by repeat constructor].
    eapply Forall_impl; [exact IHf |]. intros x Hx. simpl in Hx. lia.
Qed.

(** X13. The reasons account for the score: each reason stands for one
    addition to the running score, so the relevance score is the sum of
    the contributions of the posting's match_reasons, clamped to
    [0, 100]; and the reasons come in the order of the rules. *)
Theorem score_explained (cfg : Config) (job : JobPosting) :
  relevance_score (score cfg job)
  = Z.max 0 (Z.min 100 (total_contribution (match_reasons (score cfg job))))
  ∧ StronglySorted by_rule (match_reasons (score cfg job)).
Proof.
  destruct (score_tally_built cfg job) as [n Hb].
  unfold score. cbn [relevance_score match_reasons set_score]. split.
  - by rewrite (built_explained n _ Hb).
  - by destruct (built_ordered n _ Hb).
Qed.

Lemma title_filter_bump (d : Z) (r : reason) (t : tally) :
  is_title_reason r = false →
  List.filter is_title_reason (snd (bump d r t))
  = List.filter is_title_reason (snd t).
Proof.
  intros Hr. simpl. rewrite List.filter_app. simpl. rewrite Hr.
  by rewrite app_nil_r.
Qed.

Lemma title_filter_rule (k : nat) (f : tally → tally) (t : tally) :
  rule_step k f → k ≠ 1%nat →
  List.filter is_title_reason (snd (f t)) = List.filter is_title_reason (snd t).
Proof.
  intros Hf Hk. destruct (Hf t) as [-> | (r & Hr & ->)]; [done |].
  apply title_filter_bump. destruct r; simpl in *; done || lia.
Qed.

Lemma title_filter_loop (d : Z) (mk : str → reason) (hay : str)
    (phrases : list str) :
  (∀ p, is_title_reason (mk p) = false) →
  ∀ t,
    List.filter is_title_reason
      (snd (fold_left (λ t p, if str_in p hay then bump d (mk p) t else t)
              phrases t))
    = List.filter is_title_reason (snd t).
Proof.
  intros Hmk. induction phrases as [| p ps IH]; intros t; simpl; [done |].
  rewrite IH. destruct (str_in p hay); [| done]. by apply title_filter_bump.
Qed.

(** X14. Title before seniority. A posting gets at most one reason from
    the title rule: the first target title, in configuration order,
    that occurs in the lower-cased title; only when no target title
    occurs, the first seniority indicator that does; and no other rule
    adds a reason of these two kinds. *)
Theorem title_reason_precedence (cfg : Config) (job : JobPosting) :
  List.filter is_title_reason (match_reasons (score cfg job))
  = match List.find (λ target, str_in target (lower (title job)))
            (target_titles cfg) with
    | Some target => [TitleMatch target]
    | None =>
        match List.find (λ ind, str_in ind (lower (title job)))
                (seniority_indicators cfg) with
        | Some ind => [SeniorityMatch ind]
        | None => []
        end
    end.
Proof.
  unfold score. cbn [match_reasons set_score].
  unfold score_tally, negative_step, exclusion_step.
  rewrite (title_filter_loop (-40) Negative) by done.
  rewrite (title_filter_rule 6 _ _ (salary_step_rule _)) by lia.
  rewrite (title_filter_rule 5 _ _ (company_step_rule _ _)) by lia.
  rewrite (title_filter_loop (-50) LocationExcluded) by done.
  rewrite (title_filter_rule 3 _ _ (location_step_rule _ _)) by lia.
  rewrite (title_filter_rule 2 _ _ (keyword_step_rule _ _)) by lia.
  unfold title_step.
  destruct (List.find _ (target_titles cfg)); [done |].
  by destruct (List.find _ (seniority_indicators cfg)).
Qed.

(** ** Bounds on the score *)

Lemma count_in_nonneg (phrases : list str) (hay : str) : 0 ≤ count_in phrases hay.
Proof. unfold count_in. lia. Qed.

(** X15. Penalties compound. With [k] excluded-location phrases found
    in the location text and [m] negative keywords found in the title,
    the sum before clamping lies between -20 - 50k - 40m and
    110 - 50k - 40m; so a posting with 50k + 40m >= 110 scores 0
    whatever else matches, and no posting's sum exceeds 110. *)
Theorem score_penalty_bounds (cfg : Config) (job : JobPosting) :
  let k := count_in (location_exclude cfg) (loc_text job) in
  let m := count_in (negative_keywords cfg) (lower (title job)) in
  -20 - 50 * k - 40 * m ≤ raw_sum cfg job ≤ 110 - 50 * k - 40 * m
  ∧ raw_sum cfg job ≤ 110
  ∧ (110 ≤ 50 * k + 40 * m → relevance_score (score cfg job) = 0).
Proof.
  intros k m.
  assert (Ht : 0 ≤ title_signal cfg job ≤ 35).
  { unfold title_signal. destruct (any_in _ _); [lia |]. destruct (any_in _ _); lia. }
  assert (Hk : 0 ≤ keyword_signal cfg job ≤ 30).
  { unfold keyword_signal.
    pose proof (count_in_nonneg (positive_keywords cfg) (full_text job)). lia. }
  assert (Hl : 0 ≤ location_signal cfg job ≤ 20).
  { unfold location_signal. destruct (any_in _ _); lia. }
  assert (Hc : 0 ≤ company_signal cfg job ≤ 15).
  { unfold company_signal. destruct (existsb _ _); lia. }
  assert (Hs : -20 ≤ salary_signal (salary_text job) ≤ 10).
  { unfold salary_signal. destruct (re_search _) as [[g1 g2] |]; [| lia].
    destruct (100000 <=? _); [lia |]. destruct (_ <? 60000); lia. }
  pose proof (count_in_nonneg (location_exclude cfg) (loc_text job)) as Hk0.
  pose proof (count_in_nonneg (negative_keywords cfg) (lower (title job))) as Hm0.
  fold k in Hk0. fold m in Hm0.
  assert (Hsum : -20 - 50 * k - 40 * m ≤ raw_sum cfg job ≤ 110 - 50 * k - 40 * m).
  { unfold raw_sum, exclusion_signal, negative_signal. fold k m. lia. }
  split_and!; [lia | lia | lia |].
  intros Hpen. rewrite score_clamp. lia.
Qed.

(** X16. Scoring reads five fields only. Two postings with the same
    title, company, description, location and salary_info get the same
    score and the same reasons, whatever their url, source, date,
    identity or earlier score; scoring changes no field but those two;
    and scoring a scored posting again changes nothing. *)
Theorem score_reads_text_fields (cfg : Config) (j1 j2 : JobPosting) :
  title j1 = title j2 → company j1 = company j2 →
  description j1 = description j2 → location j1 = location j2 →
  salary_info j1 = salary_info j2 →
  relevance_score (score cfg j1) = relevance_score (score cfg j2)
  ∧ match_reasons (score cfg j1) = match_reasons (score cfg j2)
  ∧ score cfg j1 = set_score j1 (relevance_score (score cfg j2))
                     (match_reasons (score cfg j2))
  ∧ score cfg (score cfg j1) = score cfg j1.
Proof.
  destruct j1, j2. simpl. intros -> -> -> -> ->. by split_and!.
Qed.

(** ** More on deduplication *)

Lemma first_occurrences_app (l1 l2 : list JobPosting) :
  first_occurrences (l1 ++ l2)
  = first_occurrences l1
    ++ filter (λ x, dedup_key x ∉ dedup_key <$> l1) (first_occurrences l2).
Proof.
  induction l1 as [| a l1 IH].
  - simpl. symmetry. apply filter_keeps_all, Forall_forall.
    intros x _. apply not_elem_of_nil.
  - cbn [app first_occurrences]. rewrite IH, filter_app. f_equal. f_equal.
    rewrite list_filter_filter. apply list_filter_iff. intros x.
    rewrite fmap_cons, not_elem_of_cons. tauto.
Qed.

(** X17. Earlier sources win. Deduplicating two batches together keeps
    the first batch as it is deduplicated alone, followed by the
    postings of the second batch, deduplicated, whose key the first
    batch does not hold: a later scraper never displaces what an
    earlier scraper found. *)
Theorem deduplicate_app (l1 l2 : list JobPosting) :
  deduplicate (l1 ++ l2)
  = deduplicate l1
    ++ filter (λ x, dedup_key x ∉ dedup_key <$> l1) (deduplicate l2).
Proof. rewrite !deduplicate_first_occurrences. apply first_occurrences_app. Qed.

Lemma sublist_same_length {A} (l1 l2 : list A) :
  l1 `sublist_of` l2 → length l1 = length l2 → l1 = l2.
Proof.
  induction 1 as [| x l1 l2 Hsub IH | x l1 l2 Hsub IH]; simpl; [done | |].
  - intros [= Hlen]. by rewrite IH.
  - intros Hlen. apply sublist_length in Hsub. lia.
Qed.

(** X18. Deduplication is the identity exactly on the lists whose keys
    are pairwise distinct; it never lengthens a list, and a list it does
    not shorten it leaves as it is. *)
Theorem deduplicate_fixed_iff (l : list JobPosting) :
  (deduplicate l = l ↔ NoDup (dedup_key <$> l))
  ∧ (length (deduplicate l) ≤ length l)%nat
  ∧ (length (deduplicate l) = length l → deduplicate l = l).
Proof.
  rewrite deduplicate_first_occurrences.
  pose proof (first_occurrences_sublist l) as Hsub.
  split_and!.
  - split.
    + intros Heq. rewrite <- Heq. apply first_occurrences_NoDup.
    + apply first_occurrences_fixed.
  - by apply sublist_length.
  - intros Hlen. by apply sublist_same_length.
Qed.

(** ** More on the report *)

Lemma insert_by_score_sorted (x : JobPosting) (l : list JobPosting) :
  StronglySorted by_score l → StronglySorted by_score (insert_by_score x l).
Proof.
  induction 1 as [| y r Hr IH Hy]; simpl; [by repeat constructor |].
  destruct (relevance_score x <? relevance_score y) eqn:E.
  - constructor; [done |].
    rewrite (insert_by_score_perm x r). constructor; [| done].
    unfold by_score. lia.
  - constructor; [by constructor |]. constructor; [unfold by_score; lia |].
    eapply Forall_impl; [exact Hy |]. intros z. unfold by_score. lia.
Qed.

Lemma sort_by_score_sorted (l : list JobPosting) :
  StronglySorted by_score (sort_by_score l).
Proof.
  induction l as [| x r IH]; simpl; [constructor |].
  by apply insert_by_score_sorted.
Qed.

Lemma insert_by_score_class (s : Z) (x : JobPosting) (l : list JobPosting) :
  filter (λ j, relevance_score j = s) (insert_by_score x l)
  = filter (λ j, relevance_score j = s) (x :: l).
Proof.
  induction l as [| y r IH]; simpl; [done |].
  destruct (relevance_score x <? relevance_score y) eqn:E; [| done].
  rewrite filter_cons, IH, !filter_cons.
  destruct (decide (relevance_score y = s)), (decide (relevance_score x = s));
    try done. lia.
Qed.

(** X19. The report is sorted, and stably. [generate] orders the
    postings by score, highest first, without dropping or adding any,
    and postings of equal score keep the order in which they came. *)
Theorem generate_sorted_stable (jobs : list JobPosting) :
  StronglySorted by_score (generate jobs)
  ∧ generate jobs ≡ₚ jobs
  ∧ ∀ s, filter (λ j, relevance_score j = s) (generate jobs)
         = filter (λ j, relevance_score j = s) jobs.
Proof.
  unfold generate. split_and!.
  - apply sort_by_score_sorted.
  - apply sort_by_score_perm.
  - intros s. induction jobs as [| x r IH]; simpl; [done |].
    by rewrite insert_by_score_class, !filter_cons, IH.
Qed.

(** X20. The cap. The report is sorted and holds, in a different order,
    the first [max_results] new postings when the cap is not negative:
    at most that many, and all of them when there are fewer. A cap of 0
    gives an empty report. A negative cap -n is no "no limit": it drops
    the last n new postings. Without a configured cap the report has at
    most 50 postings. *)
Theorem report_cap (cfg : Config) (clk : nat → Z) (file : file_state)
    (all_jobs : list JobPosting) (r : run_result) :
  run cfg clk file all_jobs = Ok r →
  StronglySorted by_score (report r)
  ∧ (0 ≤ max_results cfg →
     report r ≡ₚ take (Z.to_nat (max_results cfg)) (new_jobs r)
     ∧ length (report r)
       = Nat.min (Z.to_nat (max_results cfg)) (length (new_jobs r)))
  ∧ (max_results cfg = 0 → report r = [])
  ∧ (max_results cfg < 0 →
     report r ≡ₚ take (length (new_jobs r) - Z.to_nat (- max_results cfg))
                   (new_jobs r)
     ∧ length (report r)
       = (length (new_jobs r) - Z.to_nat (- max_results cfg))%nat)
  ∧ (output_max_results_per_report cfg = None → (length (report r) ≤ 50)%nat).
Proof.
  intros Hrun.
  destruct (run_shape _ _ _ _ _ Hrun)
    as (? & ? & ? & ? & ? & _ & _ & _ & _ & _ & Hrep & _).
  rewrite Hrep. unfold py_slice_to.
  assert (Hlen : ∀ l, length (generate l) = length l).
  { intros l. unfold generate. by rewrite sort_by_score_perm. }
  split_and!.
  - apply sort_by_score_sorted.
  - intros Hge. rewrite (proj2 (Z.leb_le _ _) Hge). split.
    + apply sort_by_score_perm.
    + by rewrite Hlen, length_take.
  - intros ->. reflexivity.
  - intros Hlt. rewrite (proj2 (Z.leb_gt _ _) Hlt). split.
    + apply sort_by_score_perm.
    + rewrite Hlen, length_take. lia.
  - intros Hnone. unfold max_results. rewrite Hnone. simpl.
    rewrite Hlen, length_take. lia.
Qed.

Lemma bool_filter_all_in {A} (g : A → bool) (l : list A) :
  Forall (λ x, g x = true) l → List.filter g l = l.
Proof.
  induction 1 as [| x l Hx _ IH]; simpl; [done |]. by rewrite Hx, IH.
Qed.

Lemma sorted_split_high (g : list JobPosting) :
  StronglySorted by_score g →
  g = List.filter (λ j, 70 <=? relevance_score j) g
      ++ List.filter (λ j, negb (70 <=? relevance_score j)) g.
Proof.
  induction 1 as [| x g Hg IH Hx]; simpl; [done |].
  destruct (70 <=? relevance_score x) eqn:E; simpl.
  - by rewrite <- IH.
  - assert (Hlow : Forall (λ j, (70 <=? relevance_score j) = false) g).
    { eapply Forall_impl; [exact Hx |]. intros z. unfold by_score. lia. }
    assert (List.filter (λ j, 70 <=? relevance_score j) g = []) as ->.
    { clear -Hlow. induction Hlow as [| z g Hz _ IH]; simpl; [done |].
      by rewrite Hz. }
    simpl. f_equal. symmetry. apply bool_filter_all_in. 
    eapply Forall_impl; [exact Hlow |]. intros z ->. done.
Qed.

Lemma high_relevance_insert (x : JobPosting) (l : list JobPosting) :
  high_relevance (insert_by_score x l) = high_relevance (x :: l).
Proof.
  unfold high_relevance. induction l as [| y r IH]; simpl; [done |].
  destruct (relevance_score x <? relevance_score y); [| done].
  simpl. destruct (70 <=? relevance_score y); simpl; rewrite IH; simpl;
    by destruct (70 <=? relevance_score x).
Qed.

Lemma high_relevance_generate (jobs : list JobPosting) :
  high_relevance (generate jobs) = high_relevance jobs.
Proof.
  unfold generate. induction jobs as [| x r IH]; simpl; [done |].
  rewrite high_relevance_insert. unfold high_relevance in *. simpl.
  destruct (70 <=? relevance_score x); simpl; by rewrite IH.
Qed.

(** X21. Bands of the report. The "high relevance" figure counts the
    postings of score 70 and more; in the sorted report these are
    exactly the first rows. The HTML badge and the Markdown marker
    agree on the band of every posting: green from 70, yellow from 50
    to below 70, grey or white below 50. *)
Theorem report_bands (jobs : list JobPosting) :
  high_relevance (generate jobs) = high_relevance jobs
  ∧ Forall (λ j, 70 ≤ relevance_score j)
      (take (high_relevance jobs) (generate jobs))
  ∧ Forall (λ j, relevance_score j < 70)
      (drop (high_relevance jobs) (generate jobs))
  ∧ ∀ j,
      (score_color j = u "#16a34a" ↔ 70 ≤ relevance_score j)
      ∧ (emoji j = [128994%N] ↔ 70 ≤ relevance_score j)
      ∧ (score_color j = u "#ca8a04" ↔ 50 ≤ relevance_score j < 70)
      ∧ (emoji j = [128993%N] ↔ 50 ≤ relevance_score j < 70)
      ∧ (score_color j = u "#94a3b8" ↔ relevance_score j < 50)
      ∧ (emoji j = [9898%N] ↔ relevance_score j < 50).
Proof.
  pose proof (high_relevance_generate jobs) as Hh.
  pose proof (sorted_split_high (generate jobs) (sort_by_score_sorted jobs)) as Hsplit.
  set (g := generate jobs) in *.
  set (hi := List.filter (λ j, 70 <=? relevance_score j) g) in *.
  set (lo := List.filter (λ j, negb (70 <=? relevance_score j)) g) in *.
  assert (Hlen : high_relevance jobs = length hi) by (by rewrite <- Hh).
  split_and!.
  - exact Hh.
  - rewrite Hsplit, Hlen, take_app_length. apply Forall_forall.
    intros j [_ Hj]%bool_filter_elem_of. lia.
  - rewrite Hsplit, Hlen, drop_app_length. apply Forall_forall.
    intros j [_ Hj]%bool_filter_elem_of. apply negb_true_iff in Hj. lia.
  - intros j. unfold score_color, emoji.
    destruct (70 <=? relevance_score j) eqn:E70;
      destruct (50 <=? relevance_score j) eqn:E50;
      split_and!; split; intros H; try discriminate H; try lia; done.
Qed.

(** ** Scrapers *)

Lemma cards_loop_flat (build : card → option JobPosting) (cards : list card_outcome) :
  ∀ jobs, cards_loop build jobs cards = jobs ++ omap (card_built build) cards.
Proof.
  induction cards as [| [| c] rest IH]; intros jobs; simpl.
  - by rewrite app_nil_r.
  - apply IH.
  - destruct (build c) as [j |]; rewrite IH; [| done].
    by rewrite <- (assoc_L (++)).
Qed.

Lemma queries_loop_flat (build : card → option JobPosting) (fetch : str → page)
    (queries : list str) :
  ∀ jobs,
    queries_loop build fetch jobs queries
    = jobs ++ mjoin (map (λ q, page_jobs build 10 (fetch q)) queries).
Proof.
  induction queries as [| q rest IH]; intros jobs; simpl.
  - by rewrite app_nil_r.
  - destruct (fetch q) as [| status cards]; simpl; [apply IH |].
    destruct (status =? 200); [| apply IH].
    by rewrite IH, cards_loop_flat, <- (assoc_L (++)).
Qed.

Lemma omap_length_le {A B} (f : A → option B) (l : list A) :
  (length (omap f l) ≤ length l)%nat.
Proof.
  induction l as [| x l IH]; simpl; [done |].
  unfold omap in IH. destruct (f x); simpl; lia.
Qed.

Lemma page_jobs_length (build : card → option JobPosting) (cap : nat) (p : page) :
  (length (page_jobs build cap p) ≤ cap)%nat.
Proof.
  unfold page_jobs. destruct p as [| status cards]; simpl; [lia |].
  destruct (status =? 200); simpl; [| lia].
  etrans; [apply omap_length_le |]. rewrite length_take. lia.
Qed.

Lemma queries_loop_length (build : card → option JobPosting) (fetch : str → page)
    (queries : list str) :
  (length (queries_loop build fetch [] queries) ≤ 10 * length queries)%nat.
Proof.
  rewrite queries_loop_flat. simpl.
  induction queries as [| q rest IH]; simpl; [done |].
  rewrite length_app. pose proof (page_jobs_length build 10 (fetch q)). lia.
Qed.

Lemma cards_strict_length (build : card → option JobPosting)
    (cards : list card_outcome) :
  ∀ jobs,
    (length (cards_strict build jobs cards).1 ≤ length jobs + length cards)%nat.
Proof.
  induction cards as [| [| c] rest IH]; intros jobs; simpl; [lia | lia |].
  destruct (build c) as [j |].
  - etrans; [apply IH |]. rewrite length_app. simpl. lia.
  - etrans; [apply IH |]. lia.
Qed.

Lemma pages_strict_length (build : card → option JobPosting) (cap : nat)
    (fetch : str → page) (keys : list str) :
  ∀ jobs,
    (length (pages_strict build cap fetch jobs keys)
     ≤ length jobs + cap * length keys)%nat.
Proof.
  induction keys as [| k rest IH]; intros jobs; simpl; [lia |].
  destruct (fetch k) as [| status cards]; [lia |].
  destruct (status =? 200).
  - pose proof (cards_strict_length build (take cap cards) jobs) as Hc.
    rewrite length_take in Hc.
    destruct (cards_strict build jobs (take cap cards)) as [jobs' raised].
    simpl in Hc. destruct raised; [lia |].
    etrans; [apply IH |]. lia.
  - etrans; [apply IH |]. lia.
Qed.

(** X22. How much one run can scrape. LinkedIn asks at most 8 queries,
    Indeed 6 and StepStone 5, and each reads at most 10 cards of a page;
    the two startup boards read 3 pages of at most 15 and 6 pages of at
    most 10 cards, RemoteOK one page of at most 15 rows. So the five
    scrapers return at most 80, 60, 50, 105 and 15 postings, however
    many queries are configured and however long the pages are. *)
Theorem scraper_caps (fetch fetch' : str → page) (queries : list str) :
  (length (linkedin_scrape fetch queries) ≤ 80)%nat
  ∧ (length (indeed_scrape fetch queries) ≤ 60)%nat
  ∧ (length (stepstone_scrape fetch queries) ≤ 50)%nat
  ∧ (length (startups_scrape fetch fetch') ≤ 105)%nat
  ∧ (length (remote_scrape fetch) ≤ 15)%nat.
Proof.
  unfold linkedin_scrape, indeed_scrape, stepstone_scrape, startups_scrape,
    _scrape_berlin_startup_jobs, _scrape_german_tech_jobs, remote_scrape.
  split_and!.
  - etrans; [apply queries_loop_length |]. rewrite length_take. lia.
  - etrans; [apply queries_loop_length |]. rewrite length_take. lia.
  - etrans; [apply queries_loop_length |]. rewrite length_take. lia.
  - rewrite length_app.
    pose proof (pages_strict_length berlin_build 15 fetch BERLIN_CATEGORIES []) as H1.
    pose proof (pages_strict_length german_build 10 fetch' GERMAN_QUERIES []) as H2.
    change (length BERLIN_CATEGORIES) with 3%nat in H1.
    change (length GERMAN_QUERIES) with 6%nat in H2.
    cbn [length] in H1, H2. lia.
  - etrans; [apply pages_strict_length |]. cbn [length]. lia.
Qed.

Lemma pages_strict_cut (build : card → option JobPosting) (cap : nat)
    (fetch : str → page) (k : str) (pre post : list str) :
  fetch k = FetchRaises →
  ∀ jobs,
    pages_strict build cap fetch jobs (pre ++ k :: post)
    = pages_strict build cap fetch jobs pre.
Proof.
  intros Hk. induction pre as [| q pre IH]; intros jobs; simpl.
  - by rewrite Hk.
  - destruct (fetch q) as [| status cards]; [done |].
    destruct (status =? 200); [| apply IH].
    destruct (cards_strict build jobs (take cap cards)) as [jobs' raised].
    destruct raised; [done | apply IH].
Qed.

(** X23. What a failed request costs. In the LinkedIn, Indeed and
    StepStone scrapers every query has its own [try]: the result is the
    concatenation, over the first queries, of the postings of the pages
    answered with 200, so a query that fails costs only its own
    postings. In the startup boards and RemoteOK one [try] spans the
    whole loop: a request that raises also cuts off every request after
    it, the postings built before it being kept. *)
Theorem failed_request_cost (fetch : str → page) (queries : list str)
    (build : card → option JobPosting) (cap : nat) (k : str)
    (pre post : list str) (jobs : list JobPosting) :
  fetch k = FetchRaises →
  linkedin_scrape fetch queries
  = mjoin (map (λ q, page_jobs linkedin_build 10 (fetch q)) (take 8 queries))
  ∧ indeed_scrape fetch queries
    = mjoin (map (λ q, page_jobs indeed_build 10 (fetch q)) (take 6 queries))
  ∧ stepstone_scrape fetch queries
    = mjoin (map (λ q, page_jobs stepstone_build 10 (fetch q)) (take 5 queries))
  ∧ queries_loop build fetch jobs (pre ++ k :: post)
    = queries_loop build fetch jobs (pre ++ post)
  ∧ pages_strict build cap fetch jobs (pre ++ k :: post)
    = pages_strict build cap fetch jobs pre.
Proof.
  intros Hk. unfold linkedin_scrape, indeed_scrape, stepstone_scrape.
  rewrite !queries_loop_flat. split_and!; [done | done | done | |].
  - rewrite !map_app, !join_app. simpl. by rewrite Hk.
  - by apply pages_strict_cut.
Qed.

(** ** What the scrapers build *)

Lemma new_posting_as_scraped (t c loc l src sal date : str) :
  as_scraped (new_posting t c loc l src [] sal date).
Proof. by unfold as_scraped. Qed.

Lemma cards_strict_Forall (P : JobPosting → Prop) (build : card → option JobPosting)
    (cards : list card_outcome) :
  (∀ c j, build c = Some j → P j) →
  ∀ jobs, Forall P jobs → Forall P (cards_strict build jobs cards).1.
Proof.
  intros Hb. induction cards as [| [| c] rest IH]; intros jobs Hjobs; simpl;
    [done | done |].
  destruct (build c) as [j |] eqn:E; apply IH; [| done].
  apply Forall_app. split; [done |]. repeat constructor. by apply (Hb c).
Qed.

Lemma pages_strict_Forall (P : JobPosting → Prop) (build : card → option JobPosting)
    (cap : nat) (fetch : str → page) (keys : list str) :
  (∀ c j, build c = Some j → P j) →
  ∀ jobs, Forall P jobs → Forall P (pages_strict build cap fetch jobs keys).
Proof.
  intros Hb. induction keys as [| k rest IH]; intros jobs Hjobs; simpl; [done |].
  destruct (fetch k) as [| status cards]; [done |].
  destruct (status =? 200); [| by apply IH].
  pose proof (cards_strict_Forall P build (take cap cards) Hb jobs Hjobs) as Hc.
  destruct (cards_strict build jobs (take cap cards)) as [jobs' raised].
  destruct raised; [done | by apply IH].
Qed.

Lemma queries_loop_Forall (P : JobPosting → Prop) (build : card → option JobPosting)
    (fetch : str → page) (queries : list str) :
  (∀ c j, build c = Some j → P j) →
  Forall P (queries_loop build fetch [] queries).
Proof.
  intros Hb. rewrite queries_loop_flat. simpl. apply Forall_forall. intros j Hj.
  apply list_elem_of_join in Hj as (l & Hj & Hl).
  apply list_elem_of_fmap in Hl as (q & -> & _).
  unfold page_jobs in Hj. destruct (fetch q) as [| status cards]; [by apply elem_of_nil in Hj |].
  destruct (status =? 200); [| by apply elem_of_nil in Hj].
  apply list_elem_of_omap in Hj as ([| c] & _ & Hc); [done |].
  by apply (Hb c).
Qed.

(** X24. What the scrapers hand over. Every posting a scraper returns
    has an empty description, no score and no reasons yet, and the
    identity computed from its title, company and url. Only Indeed
    fills in salary_info and only LinkedIn date_posted. The source is
    the scraper's label, where the startup boards use the name of the
    board and RemoteOK its own name, neither the class constant. *)
Theorem scraped_postings_shape (fetch fetch' : str → page) (queries : list str) :
  Forall (λ j, as_scraped j ∧ source j = u "LinkedIn" ∧ salary_info j = [])
    (linkedin_scrape fetch queries)
  ∧ Forall (λ j, as_scraped j ∧ source j = u "Indeed" ∧ date_posted j = [])
      (indeed_scrape fetch queries)
  ∧ Forall (λ j, as_scraped j ∧ source j = u "StepStone"
                 ∧ salary_info j = [] ∧ date_posted j = [])
      (stepstone_scrape fetch queries)
  ∧ Forall (λ j, as_scraped j ∧ salary_info j = [] ∧ date_posted j = []
                 ∧ ((source j = u "BerlinStartupJobs"
                     ∧ location j = u "Berlin, Germany")
                    ∨ source j = u "GermanTechJobs"))
      (startups_scrape fetch fetch')
  ∧ Forall (λ j, as_scraped j ∧ source j = u "RemoteOK" ∧ location j = u "Remote"
                 ∧ salary_info j = [] ∧ date_posted j = [])
      (remote_scrape fetch).
Proof.
  split_and!.
  - apply queries_loop_Forall. intros c j. unfold linkedin_build.
    destruct (c_title c), (c_company c); intros [= <-]; by split_and!.
  - apply queries_loop_Forall. intros c j. unfold indeed_build.
    destruct (c_title c), (c_company c); intros [= <-]; by split_and!.
  - apply queries_loop_Forall. intros c j. unfold stepstone_build.
    destruct (c_title c); intros [= <-]; by split_and!.
  - apply Forall_app. split.
    + apply pages_strict_Forall; [| done]. intros c j. unfold berlin_build.
      destruct (c_title c); intros [= <-]. split_and!; [done | done | done |].
      by left.
    + apply pages_strict_Forall; [| done]. intros c j. unfold german_build.
      destruct (c_title c); intros [= <-]. split_and!; [done | done | done |].
      by right.
  - apply pages_strict_Forall; [| done]. intros c j. unfold remote_build.
    destruct (c_title c); intros [= <-]; by split_and!.
Qed.

(** ** Rules that cannot fire, and one that always does *)

Lemma reasons_Forall_rule (Q : reason → Prop) (k : nat) (f : tally → tally)
    (t : tally) :
  rule_step k f → (∀ r, rule_no r = k → Q r) →
  Forall Q (snd t) → Forall Q (snd (f t)).
Proof.
  intros Hf HQ Ht. destruct (Hf t) as [-> | (r & Hr & ->)]; [done |].
  simpl. apply Forall_app. split; [done |]. repeat constructor. by apply HQ.
Qed.

Lemma reasons_Forall_loop (Q : reason → Prop) (d : Z) (mk : str → reason)
    (hay : str) (phrases : list str) :
  (∀ p, Q (mk p)) →
  ∀ t, Forall Q (snd t) →
    Forall Q (snd (fold_left (λ t p, if str_in p hay then bump d (mk p) t else t)
                     phrases t)).
Proof.
  intros HQ. induction phrases as [| p ps IH]; intros t Ht; simpl; [done |].
  apply IH. destruct (str_in p hay); [| done].
  simpl. apply Forall_app. split; [done |]. by repeat constructor.
Qed.

(** X25. No salary text, no salary rule. The pattern is searched in
    salary_info and the description only; for a posting with neither
    (every posting the scrapers return except Indeed's with a salary
    snippet) the searched text is the single space between them, the
    pattern does not match, and the posting gets neither the bonus nor
    the low-salary penalty nor a reason of that rule. *)
Theorem salary_rule_needs_text (cfg : Config) (j : JobPosting) :
  lower SPACE = SPACE →
  salary_info j = [] → description j = [] →
  salary_signal (salary_text j) = 0
  ∧ Forall (λ r, rule_no r ≠ 6%nat) (match_reasons (score cfg j)).
Proof.
  intros Hlow Hsal Hdesc.
  assert (Htext : salary_text j = SPACE).
  { unfold salary_text, slice_to. rewrite Hsal, Hdesc, take_nil. cbn [app].
    by rewrite app_nil_r. }
  split; [by rewrite Htext |].
  unfold score. cbn [match_reasons set_score].
  unfold score_tally, negative_step, exclusion_step. rewrite Htext.
  apply (reasons_Forall_loop _ (-40) Negative); [done |].
  unfold salary_step at 1. change (re_search SPACE) with (@None (str * option str)).
  apply (reasons_Forall_rule _ 5 _ _ (company_step_rule _ _)); [lia |].
  apply (reasons_Forall_loop _ (-50) LocationExcluded); [done |].
  apply (reasons_Forall_rule _ 3 _ _ (location_step_rule _ _)); [lia |].
  apply (reasons_Forall_rule _ 2 _ _ (keyword_step_rule _ _)); [lia |].
  apply (reasons_Forall_rule _ 1 _ _ (title_step_rule _ _)); [lia |].
  constructor.
Qed.

Lemma str_in_nil (hay : str) : str_in [] hay = true.
Proof. by destruct hay. Qed.

Lemma reasons_kept_rule (k : nat) (f : tally → tally) (t : tally) (r : reason) :
  rule_step k f → r ∈ snd t → r ∈ snd (f t).
Proof.
  intros Hf Hr. destruct (Hf t) as [-> | (r' & _ & ->)]; [done |].
  simpl. apply elem_of_app. by left.
Qed.

Lemma reasons_kept_loop (d : Z) (mk : str → reason) (hay : str)
    (phrases : list str) (r : reason) :
  ∀ t, r ∈ snd t →
    r ∈ snd (fold_left (λ t p, if str_in p hay then bump d (mk p) t else t)
               phrases t).
Proof.
  induction phrases as [| p ps IH]; intros t Ht; simpl; [done |].
  apply IH. destruct (str_in p hay); [| done]. simpl. apply elem_of_app. by left.
Qed.

(** X26. An empty company name is a target company. The company rule
    also asks whether the posting's company occurs in the configured
    name, and the empty string occurs in every string: a posting
    without a company (StepStone, the startup boards and RemoteOK build
    such postings when the element is missing) gets the 15 points and
    the reason of the first configured company. *)
Theorem empty_company_is_target (cfg : Config) (j : JobPosting) (tc : Company)
    (rest : list Company) :
  lower [] = [] →
  company j = [] →
  target_companies cfg = tc :: rest →
  company_signal cfg j = 15
  ∧ TargetCompany (tc_name tc) ∈ match_reasons (score cfg j).
Proof.
  intros Hlow Hco Htc.
  assert (Hhit : company_hit (lower (company j)) tc = true).
  { unfold company_hit. rewrite Hco, Hlow, str_in_nil. apply orb_true_r. }
  split.
  - unfold company_signal. rewrite Htc. simpl. by rewrite Hhit.
  - unfold score. cbn [match_reasons set_score].
    unfold score_tally, negative_step.
    apply reasons_kept_loop.
    apply (reasons_kept_rule 6 _ _ _ (salary_step_rule _)).
    unfold company_step. rewrite Htc. simpl. rewrite Hhit.
    simpl. apply elem_of_app. right. apply list_elem_of_here.
Qed.

(** ** Urls *)

Lemma before_query_no_mark (href : str) : 63%N ∉ before_query href.
Proof.
  induction href as [| c rest IH]; simpl; [apply not_elem_of_nil |].
  destruct (c =? 63)%N eqn:E; [apply not_elem_of_nil |].
  apply not_elem_of_cons. split; [| done].
  intros <-. by rewrite N.eqb_refl in E.
Qed.

Lemma absolutise_not_relative (prefix href : str) :
  starts_with (u "/") prefix = false → truthy prefix = true →
  starts_with (u "/") (absolutise prefix href) = false.
Proof.
  intros Hp Ht. unfold absolutise.
  destruct (starts_with (u "/") href) eqn:E; [| done].
  destruct prefix as [| a prefix]; [done |]. exact Hp.
Qed.

Lemma url_new_posting (t c loc l src desc sal date : str) :
  url (new_posting t c loc l src desc sal date) = l.
Proof. reflexivity. Qed.

(** X27. The urls of the postings. A LinkedIn url carries no query
    string. The urls of Indeed, StepStone and RemoteOK are never
    site-relative: a leading slash is always completed with the site. A
    GermanTechJobs url is empty or starts with "http". *)
Theorem scraped_urls (fetch : str → page) (queries : list str) :
  Forall (λ j, 63%N ∉ url j) (linkedin_scrape fetch queries)
  ∧ Forall (λ j, starts_with (u "/") (url j) = false) (indeed_scrape fetch queries)
  ∧ Forall (λ j, starts_with (u "/") (url j) = false) (stepstone_scrape fetch queries)
  ∧ Forall (λ j, starts_with (u "/") (url j) = false) (remote_scrape fetch)
  ∧ Forall (λ j, url j = [] ∨ starts_with (u "http") (url j) = true)
      (_scrape_german_tech_jobs fetch).
Proof.
  split_and!.
  - apply queries_loop_Forall. intros c j. unfold linkedin_build.
    destruct (c_title c), (c_company c); intros [= <-].
    rewrite url_new_posting.
    destruct (c_href c) as [href |]; [| apply not_elem_of_nil].
    destruct (truthy href); [apply before_query_no_mark | apply not_elem_of_nil].
  - apply queries_loop_Forall. intros c j. unfold indeed_build.
    destruct (c_title c), (c_company c); intros [= <-].
    rewrite url_new_posting. by apply absolutise_not_relative.
  - apply queries_loop_Forall. intros c j. unfold stepstone_build.
    destruct (c_title c); intros [= <-].
    rewrite url_new_posting. by apply absolutise_not_relative.
  - apply pages_strict_Forall; [| done]. intros c j. unfold remote_build.
    destruct (c_title c); intros [= <-].
    rewrite url_new_posting. by apply absolutise_not_relative.
  - apply pages_strict_Forall; [| done]. intros c j. unfold german_build.
    destruct (c_title c); [intros <-%(inj Some) | done].
    rewrite url_new_posting.
    destruct (default [] (c_href c)) as [| a href]; [by left |].
    right. change (truthy (a :: href)) with true. rewrite andb_true_l.
    destruct (starts_with (u "http") (a :: href)) eqn:Eh; [exact Eh | reflexivity].
Qed.

Lemma lstrip_slash_spec (s : str) :
  ∃ n, s = replicate n 47%N ++ lstrip_slash s ∧ head (lstrip_slash s) ≠ Some 47%N.
Proof.
  induction s as [| c rest (n & Hn & Hh)]; simpl.
  - by exists 0%nat.
  - destruct (c =? 47)%N eqn:E.
    + apply N.eqb_eq in E as ->. exists (S n). simpl. by rewrite <- Hn.
    + exists 0%nat. simpl. split; [done |]. intros [= ->]. by rewrite N.eqb_refl in E.
Qed.

Lemma rstrip_slash_spec (s : str) :
  ∃ n, s = rstrip_slash s ++ replicate n 47%N ∧ last (rstrip_slash s) ≠ Some 47%N.
Proof.
  unfold rstrip_slash. destruct (lstrip_slash_spec (reverse s)) as (n & Hn & Hh).
  exists n. split.
  - rewrite <- (reverse_involutive s) at 1. rewrite Hn at 1.
    by rewrite reverse_app, reverse_replicate.
  - by rewrite last_reverse.
Qed.

(** X28. How a career link is completed. A link that does not start
    with "http" is joined to the page's url with exactly one slash:
    every trailing slash of the url and every leading slash of the link
    is dropped first, so the part before the joining slash does not end
    with a slash and the part after it does not start with one. *)
Theorem careers_url_join (base href : str) :
  starts_with (u "http") href = false →
  ∃ (n m : nat) (b p : str),
    base = b ++ replicate n 47%N
    ∧ href = replicate m 47%N ++ p
    ∧ last b ≠ Some 47%N
    ∧ head p ≠ Some 47%N
    ∧ careers_url base href = b ++ u "/" ++ p.
Proof.
  intros Hh. unfold careers_url. rewrite Hh.
  destruct (rstrip_slash_spec base) as (n & Hn & Hl).
  destruct (lstrip_slash_spec href) as (m & Hm & Hd).
  by exists n, m, (rstrip_slash base), (lstrip_slash href).
Qed.

(** ** Career pages *)

Lemma filter_href_absorb (S : gset str) (k : str) (l : list (str * str)) :
  k ∈ S →
  filter (λ x, x.1 ∉ S) (filter (λ x, x.1 ≠ k) l) = filter (λ x, x.1 ∉ S) l.
Proof.
  intros Hk. induction l as [| x l IH]; [done |].
  rewrite !filter_cons.
  destruct (decide (x.1 ≠ k)) as [Hne | Heq].
  - rewrite filter_cons. destruct (decide (x.1 ∉ S)); by rewrite IH.
  - apply dec_stable in Heq. subst k.
    destruct (decide (x.1 ∉ S)) as [Hn | _]; [by destruct Hn | done].
Qed.

Lemma filter_href_insert (S : gset str) (k : str) (l : list (str * str)) :
  filter (λ x, x.1 ∉ {[k]} ∪ S) l
  = filter (λ x, x.1 ∉ S) (filter (λ x, x.1 ≠ k) l).
Proof.
  induction l as [| x l IH]; [done |].
  rewrite !filter_cons.
  destruct (decide (x.1 ≠ k)) as [Hne | Heq].
  - rewrite filter_cons.
    destruct (decide (x.1 ∉ S)) as [Hn | Hin].
    + rewrite decide_True; [by rewrite IH |].
      rewrite elem_of_union, elem_of_singleton. tauto.
    + rewrite decide_False; [exact IH |].
      rewrite elem_of_union. tauto.
  - apply dec_stable in Heq. rewrite decide_False; [exact IH |].
    rewrite elem_of_union, elem_of_singleton. tauto.
Qed.

Lemma links_loop_spec (company : Company) (links : list (str * str)) :
  ∀ (S : gset str) (jobs : list JobPosting),
    links_loop company S jobs links
    = jobs ++ (careers_posting company
               <$> filter (λ x, x.1 ∉ S) (first_hrefs (List.filter link_ok links))).
Proof.
  induction links as [| link rest IH]; intros S jobs; simpl.
  - by rewrite app_nil_r.
  - destruct (link_ok link); simpl; [| apply IH].
    rewrite filter_cons. case_bool_decide as Hin; simpl.
    + rewrite decide_False by tauto. rewrite IH. by rewrite filter_href_absorb.
    + rewrite decide_True by done.
      rewrite IH, <- (assoc_L (++)). simpl. by rewrite filter_href_insert.
Qed.

Lemma careers_loop_flat (fetch : Company → careers_page) (companies : list Company) :
  ∀ jobs,
    careers_loop fetch jobs companies
    = jobs ++ mjoin (map (λ company, careers_page_jobs company (fetch company))
                       companies).
Proof.
  induction companies as [| company rest IH]; intros jobs; simpl.
  - by rewrite app_nil_r.
  - destruct (fetch company) as [| status links]; simpl; [apply IH |].
    destruct (status =? 200); [| apply IH].
    rewrite IH, links_loop_spec, <- (assoc_L (++)). do 3 f_equal.
    induction (first_hrefs _) as [| x m IHm]; [done |].
    rewrite filter_cons, decide_True by set_solver. by f_equal.
Qed.

Lemma first_hrefs_sublist (links : list (str * str)) :
  first_hrefs links `sublist_of` links.
Proof.
  induction links as [| l r IH]; simpl; [done |].
  apply sublist_skip. etrans; [apply sublist_filter | exact IH].
Qed.

Lemma first_hrefs_NoDup (links : list (str * str)) :
  NoDup (fst <$> first_hrefs links).
Proof.
  induction links as [| l r IH]; [constructor |].
  cbn [first_hrefs]. rewrite fmap_cons. constructor.
  - intros (x & Hx & Hin)%list_elem_of_fmap.
    apply list_elem_of_filter in Hin as [Hne _]. by destruct Hne.
  - apply (sublist_NoDup _ (fst <$> first_hrefs r)); [exact IH |].
    apply fmap_sublist, sublist_filter.
Qed.

(** X29. Career pages. The scraper returns, company after company in
    configuration order, one posting per distinct href of the page,
    among the links whose text is longer than five characters: the
    first such link of each href, in page order. A page that fails or
    is not answered with 200 gives nothing and stops no later company.
    The postings carry the configured name as company, "Direct (name)"
    as source and the configured hq, or "Germany", as location. *)
Theorem careers_links (fetch : Company → careers_page) (cfg : Config) :
  careers_scrape fetch cfg
  = mjoin (map (λ company, careers_page_jobs company (fetch company))
             (target_companies cfg))
  ∧ (∀ company status links,
       fetch company = CareersPage status links →
       ∃ kept,
         careers_page_jobs company (fetch company) = careers_posting company <$> kept
         ∧ kept `sublist_of` links
         ∧ NoDup (fst <$> kept)
         ∧ Forall (λ link, (5 < length link.2)%nat) kept)
  ∧ Forall (λ j, ∃ tc,
               tc ∈ target_companies cfg
               ∧ company j = tc_name tc
               ∧ source j = careers_source (tc_name tc)
               ∧ location j = default GERMANY (tc_hq tc)
               ∧ (5 < length (title j))%nat
               ∧ as_scraped j)
      (careers_scrape fetch cfg).
Proof.
  assert (Hflat : careers_scrape fetch cfg
                  = mjoin (map (λ company, careers_page_jobs company (fetch company))
                             (target_companies cfg))).
  { unfold careers_scrape. by rewrite careers_loop_flat. }
  assert (Hpage : ∀ company status links,
            fetch company = CareersPage status links →
            ∃ kept,
              careers_page_jobs company (fetch company)
              = careers_posting company <$> kept
              ∧ kept `sublist_of` links
              ∧ NoDup (fst <$> kept)
              ∧ Forall (λ link, (5 < length link.2)%nat) kept).
  { intros company status links ->. unfold careers_page_jobs.
    destruct (status =? 200).
    - exists (first_hrefs (List.filter link_ok links)). split_and!.
      + done.
      + etrans; [apply first_hrefs_sublist | apply bool_filter_sublist].
      + apply first_hrefs_NoDup.
      + apply Forall_forall. intros link Hl.
        eapply elem_of_sublist in Hl; [| apply first_hrefs_sublist].
        apply bool_filter_elem_of in Hl as [_ Hok].
        unfold link_ok in Hok. apply andb_true_iff in Hok as [_ Hlen].
        by apply Nat.ltb_lt in Hlen.
    - exists []. split_and!; [done | apply sublist_nil_l | constructor | constructor]. }
  split_and!; [exact Hflat | exact Hpage |].
  rewrite Hflat. apply Forall_forall. intros j Hj.
  apply list_elem_of_join in Hj as (l & Hj & Hl).
  apply list_elem_of_fmap in Hl as (company & -> & Hco).
  exists company. split; [done |].
  destruct (fetch company) as [| status links] eqn:E;
    [by apply elem_of_nil in Hj |].
  destruct (Hpage company status links E) as (kept & Hk & _ & _ & Hlen).
  rewrite E in Hk. rewrite Hk in Hj.
  apply list_elem_of_fmap in Hj as (link & -> & Hlink).
  rewrite Forall_forall in Hlen. specialize (Hlen link Hlink).
  split_and!; [done | done | done | exact Hlen | apply new_posting_as_scraped].
Qed.

End Properties.

(** * Runs of the model on concrete inputs *)

Lemma unstamp_stamp (t : Z) : unstamp (stamp t) = Some (Naive t).
Proof.
  unfold stamp, unstamp. destruct (0 <=? t) eqn:E; do 2 f_equal; lia.
Qed.

(** The scenario of the specification: a title match, three keywords and
    a location match add up to 70, with three reasons. *)
Example score_scenario :
  let cfg := mkConfig [u "strategy manager"] [u "health"; u "pharma"; u "digital"]
               [] 40 [u "berlin"] [] [] [] None in
  let job := new_posting (L := sample_lib) (u "Senior Strategy Manager")
               (u "Acme Health") (u "Berlin, Germany") [] (u "LinkedIn")
               (u "digital health pharma") [] [] in
  relevance_score (score (L := sample_lib) cfg job) = 70
  ∧ length (match_reasons (score (L := sample_lib) cfg job)) = 3%nat.
Proof. vm_compute. split; reflexivity. Qed.

(** The matcher against the groups CPython's [re] reports; the last
    three texts hold Arabic-Indic and fullwidth digits. *)
Example re_search_examples :
  let search := re_search (L := sample_lib) in
  search (u "120.000 " ++ EURO) = Some (u "120", Some (u "000"))
  ∧ search (u "95 eur") = Some (u "95", None)
  ∧ search (u "95. eur") = Some (u "95", None)
  ∧ search (u "1234567 euro") = Some (u "234", Some (u "567"))
  ∧ search (u "12345 eur") = Some (u "12", Some (u "345"))
  ∧ search (u "12.345.678 eur") = Some (u "345", Some (u "678"))
  ∧ search (u "12.34 eur") = Some (u "34", None)
  ∧ search (u "100.0000 eur") = Some (u "000", None)
  ∧ search (u "1,5 eur") = None
  ∧ search (u "12 3 eur") = None
  ∧ search (u "5 eur") = None
  ∧ search ([1633; 1634; 1632]%N ++ u " eur") = Some ([1633; 1634; 1632]%N, None)
  ∧ int (L := sample_lib) [1633; 1634; 1632]%N = 120
  ∧ search ([1633; 1634; 1632]%N ++ u " eur 50 eur")
    = Some ([1633; 1634; 1632]%N, None)
  ∧ search ([65305; 53]%N ++ u "." ++ [1632; 48; 2406]%N ++ EURO)
    = Some ([65305; 53]%N, Some [1632; 48; 2406]%N)
  ∧ int (L := sample_lib) ([65305; 53]%N ++ [1632; 48; 2406]%N) = 95000.
Proof. vm_compute. repeat split; reflexivity. Qed.

(** C1 on the code: with a cap of one and two new postings, of score 0
    and 35 in pipeline order, [run] cuts the list to its first posting
    before [generate] sorts it. The report holds the posting of score 0;
    the posting of score 35 is marked seen and never reported. *)
Lemma run_truncates_before_sorting :
  let r := returned (run (L := sample_lib) top1_cfg (clock_from (day 100)) Missing
                       [clerk_posting; manager_posting]) in
  run (L := sample_lib) top1_cfg (clock_from (day 100)) Missing
    [clerk_posting; manager_posting] = Ok r
  ∧ map (λ j, (title j, relevance_score j)) (new_jobs r)
    = [(u "Clerk", 0); (u "Strategy Manager", 35)]
  ∧ map (λ j, (title j, relevance_score j)) (report r) = [(u "Clerk", 0)]
  ∧ map (λ j, (title j, relevance_score j))
      (py_slice_to 1 (sort_by_score (new_jobs r)))
    = [(u "Strategy Manager", 35)]
  ∧ is_new (final_data r) manager_posting = Ok false.
Proof. vm_compute. repeat split; reflexivity. Qed.


(** C3 as stated fails: a posting whose url is the string "a|b" and a
    url-less posting with title "a" and company "b" have the same title
    and company, one has a url and the other has none, and yet the
    deduplicator collapses them into one entry. *)
Lemma deduplicate_collapses_url_with_urlless :
  let p := posting (u "a") (u "b") (u "a|b") in
  let q := posting (u "a") (u "b") [] in
  title p = title q ∧ company p = company q
  ∧ truthy (url p) = true ∧ truthy (url q) = false
  ∧ deduplicate [p; q] = [p].
Proof. vm_compute. repeat split; reflexivity. Qed.

(** C3 at the url "https://a.com/1" against a url-less posting. *)
Lemma deduplicate_one_entry_per_key_witness :
  let p := posting (u "Manager") (u "Acme") (u "https://a.com/1") in
  let q := posting (u "Manager") (u "Acme") [] in
  (url p ≠ [] ∧ url q = [] ∧ url p ≠ title q ++ BAR ++ company q)
  ∧ NoDup (dedup_key <$> deduplicate [p; q; p])
  ∧ deduplicate [p; q] = [p; q].
Proof.
  intros p q.
  assert (H1 : url p ≠ []) by discriminate.
  assert (H2 : url q = []) by reflexivity.
  assert (H3 : url p ≠ title q ++ BAR ++ company q) by discriminate.
  split; [by repeat split |].
  destruct (deduplicate_one_entry_per_key [p; q; p] p q H1 H2 H3)
    as (Hnd & _ & _ & _ & Hpq & _).
  split; [exact Hnd | exact Hpq].
Defined.

(** C4 on the code: the state file [{}] is loaded as it is, with no
    warning, and the run raises [KeyError] in [cleanup]. *)
Lemma run_fails_on_empty_object :
  _load (Document (PDict [])) = Ok (PDict [], [])
  ∧ cleanup (L := sample_lib) (day 100) 30 (PDict []) = Raise KeyError
  ∧ run (L := sample_lib) sample_cfg (clock_from (day 100)) (Document (PDict []))
      [acme_posting] = Raise KeyError.
Proof. vm_compute. repeat split; reflexivity. Qed.

(** C5 as stated fails: an entry first seen exactly 30 days before the
    cleanup does not predate now - 30 days, and cleanup(30) removes it. *)
Lemma cleanup_removes_entry_at_cutoff :
  seen_of (store_marked_at (day 70))
    = Some [(job_id acme_scored, seen_record (L := sample_lib) (day 70) acme_scored)]
  ∧ first_seen_of (L := sample_lib) (seen_record (L := sample_lib) (day 70) acme_scored)
    = Some (day 70)
  ∧ (day 70 <? day 100 - 30 * DAY) = false
  ∧ match cleanup (L := sample_lib) (day 100) 30 (store_marked_at (day 70)) with
    | Ok (data', lg) =>
        seen_of data' = Some [] ∧ lg = [InfoCleaned 1 30]
    | Raise _ => False
    end.
Proof. vm_compute. repeat split; reflexivity. Qed.

(** C5 on an entry twenty days old, and on a retention of 800000 days,
    which reaches back before the first datetime. *)
Lemma cleanup_spec_witness :
  (seen_of (store_marked_at (day 80))
     = Some [(job_id acme_scored, seen_record (L := sample_lib) (day 80) acme_scored)]
   ∧ Forall (λ kv, is_Some (first_seen_of (L := sample_lib) kv.2))
       [(job_id acme_scored, seen_record (L := sample_lib) (day 80) acme_scored)]
   ∧ Z.abs 30 ≤ MAX_DELTA_DAYS
   ∧ is_datetime (day 100 - 30 * DAY) = true)
  ∧ (∃ data' seen' lg,
      cleanup (L := sample_lib) (day 100) 30 (store_marked_at (day 80)) = Ok (data', lg)
      ∧ seen_of data' = Some seen'
      ∧ seen' `sublist_of`
          [(job_id acme_scored, seen_record (L := sample_lib) (day 80) acme_scored)])
  ∧ cleanup (L := sample_lib) (day 100) 800000 empty_data = Raise OverflowError.
Proof.
  assert (H1 : seen_of (store_marked_at (day 80))
               = Some [(job_id acme_scored,
                        seen_record (L := sample_lib) (day 80) acme_scored)])
    by reflexivity.
  assert (H2 : Forall (λ kv, is_Some (first_seen_of (L := sample_lib) kv.2))
                 [(job_id acme_scored,
                   seen_record (L := sample_lib) (day 80) acme_scored)]).
  { constructor; [| constructor]. exists (day 80). reflexivity. }
  assert (H3 : Z.abs 30 ≤ MAX_DELTA_DAYS) by (unfold MAX_DELTA_DAYS; lia).
  assert (H4 : is_datetime (day 100 - 30 * DAY) = true) by reflexivity.
  split; [by split_and! |].
  destruct (cleanup_spec (L := sample_lib) (day 100) 30 _ _ H1 H2 H3 H4)
    as (data' & seen' & lg & Hc & Hs & _ & _ & Hsub & _ & _ & Hover).
  split; [by exists data', seen', lg |].
  apply Hover; [reflexivity | by right].
Defined.

(** C6 on a run that marks two postings a day apart, and a later run
    whose cutoff falls between the two marks: the posting marked first
    has expired, the posting marked second is still seen. *)
Lemma seen_posting_is_not_new_again_witness :
  ((∀ t, unstamp (stamp t) = Some (Naive t))
   ∧ run (L := sample_lib) top1_cfg (slow_clock (day 100)) Missing
       [clerk_posting; manager_posting] = Ok two_marks_run
   ∧ manager_scored ∈ new_jobs two_marks_run
   ∧ job_id manager_posting = job_id manager_scored)
  ∧ seen_time (L := sample_lib) (final_data two_marks_run) (job_id manager_scored)
    = Some (day 102)
  ∧ slow_clock (day 100) 1 < clock_from (day 131 + 43200000000) 0 - 30 * DAY < day 102
  ∧ ∃ r2,
      run (L := sample_lib) top1_cfg (clock_from (day 131 + 43200000000))
        (final_file two_marks_run) [manager_posting; clerk_posting] = Ok r2
      ∧ (∀ j, j ∈ new_jobs r2 → job_id j ≠ job_id manager_scored)
      ∧ (∀ j, j ∈ report r2 → job_id j ≠ job_id manager_scored).
Proof.
  assert (H1 : ∀ t, unstamp (stamp t) = Some (Naive t)) by exact unstamp_stamp.
  assert (H2 : run (L := sample_lib) top1_cfg (slow_clock (day 100)) Missing
                 [clerk_posting; manager_posting] = Ok two_marks_run)
    by (vm_compute; reflexivity).
  assert (H3 : manager_scored ∈ new_jobs two_marks_run).
  { vm_compute. apply list_elem_of_further, list_elem_of_here. }
  assert (H4 : job_id manager_posting = job_id manager_scored) by reflexivity.
  assert (H5 : seen_time (L := sample_lib) (final_data two_marks_run)
                 (job_id manager_scored) = Some (day 102))
    by (vm_compute; reflexivity).
  assert (H6 : slow_clock (day 100) 1
               < clock_from (day 131 + 43200000000) 0 - 30 * DAY < day 102).
  { unfold slow_clock, clock_from, day, DAY. simpl. lia. }
  split; [by split_and! |]. split; [exact H5 |]. split; [exact H6 |].
  destruct (seen_posting_is_not_new_again (L := sample_lib)
              top1_cfg top1_cfg (slow_clock (day 100))
              (clock_from (day 131 + 43200000000))
              Missing [clerk_posting; manager_posting]
              [manager_posting; clerk_posting]
              two_marks_run manager_scored manager_posting [] H1 H2 H3 H4)
    as [(t & i & _ & _ & _ & Hst & Hwin) _].
  rewrite H5 in Hst. injection Hst as <-.
  destruct Hwin as (file & r2 & _ & _ & _ & _ & Hall & Hrun & _ & _ & _ & Hnew & Hrep).
  { constructor; [| constructor]. simpl. apply H6. }
  cbn [run_all] in Hall. injection Hall as <-.
  by exists r2.
Defined.

(** C9 at ("a", "b", "u") against ("x", "b", "u"). *)
Lemma identity_deterministic_field_sensitive_witness :
  one_field_changed (u "a") (u "b") (u "u") (u "x") (u "b") (u "u")
  ∧ (job_id (new_posting (L := sample_lib) (u "a") (u "b") (u "Berlin") (u "u") (u "Indeed") [] [] [])
       = job_id (new_posting (L := sample_lib) (u "a") (u "b") (u "Bonn") (u "u") (u "Remote") [] [] [])
     ∧ (identity (L := sample_lib) (u "a") (u "b") (u "u")
          ≠ identity (L := sample_lib) (u "x") (u "b") (u "u")
        ∨ hash_collision (L := sample_lib)
            (raw_identity (u "a") (u "b") (u "u"))
            (raw_identity (u "x") (u "b") (u "u")))).
Proof.
  assert (H : one_field_changed (u "a") (u "b") (u "u") (u "x") (u "b") (u "u")).
  { left. split; [discriminate | split; reflexivity]. }
  split; [exact H |].
  exact (identity_deterministic_field_sensitive (L := sample_lib)
           (u "a") (u "b") (u "u") (u "x") (u "b") (u "u")
           (u "Berlin") (u "Indeed") [] [] [] (u "Bonn") (u "Remote") [] [] [] H).
Defined.

(** ** Instances of the further properties *)

(** X1 on the empty store and the scored Acme posting. *)
Lemma mark_seen_makes_seen_witness :
  seen_of empty_data = Some []
  ∧ ∃ data',
      mark_seen (L := sample_lib) (day 100) empty_data acme_scored = Ok data'
      ∧ is_new data' acme_posting = Ok false.
Proof.
  assert (H : seen_of empty_data = Some []) by reflexivity.
  split; [exact H |].
  destruct (mark_seen_makes_seen (L := sample_lib) (day 100) empty_data []
              acme_scored H) as (data' & Hm & Hseen & _).
  exists data'. split; [exact Hm |]. apply Hseen. reflexivity.
Defined.

(** X2 on a posting marked on day 80 and again on day 100. *)
Lemma mark_seen_overwrites_witness :
  (seen_of (store_marked_at (day 80))
     = Some [(job_id acme_scored, seen_record (L := sample_lib) (day 80) acme_scored)]
   ∧ unstamp (stamp (day 100)) = Some (Naive (day 100)))
  ∧ ∃ data' seen',
      mark_seen (L := sample_lib) (day 100) (store_marked_at (day 80)) acme_scored
        = Ok data'
      ∧ seen_of data' = Some seen'
      ∧ dict_get (job_id acme_scored) seen'
        = Some (seen_record (L := sample_lib) (day 100) acme_scored)
      ∧ length seen' = 1%nat.
Proof.
  assert (H1 : seen_of (store_marked_at (day 80))
               = Some [(job_id acme_scored,
                        seen_record (L := sample_lib) (day 80) acme_scored)])
    by reflexivity.
  assert (H2 : unstamp (stamp (day 100)) = Some (Naive (day 100))) by reflexivity.
  split; [by split |].
  destruct (mark_seen_overwrites (L := sample_lib) (day 100) _ _ acme_scored H1 H2)
    as (data' & seen' & Hm & Hs & Hget & _ & _ & Hlen).
  exists data', seen'. split_and!; [exact Hm | exact Hs | exact Hget |].
  rewrite Hlen. reflexivity.
Defined.

(** X3 on the empty store and three new postings. *)
Lemma update_stats_spec_witness :
  (seen_of empty_data = Some []
   ∧ ((0 = 0 ∧ getitem empty_data (u "stats") = Raise KeyError)
      ∨ (∃ st, getitem empty_data (u "stats") = Ok (PDict st)
               ∧ dict_get (u "total_reported") st = Some (PNum 0))))
  ∧ ∃ data' st',
      update_stats empty_data 3 = Ok data'
      ∧ getitem data' (u "stats") = Ok (PDict st')
      ∧ dict_get (u "total_seen") st' = Some (PNum 0)
      ∧ dict_get (u "total_reported") st' = Some (PNum 3).
Proof.
  assert (H1 : seen_of empty_data = Some []) by reflexivity.
  assert (H2 : (0 = 0 ∧ getitem empty_data (u "stats") = Raise KeyError)
               ∨ (∃ st, getitem empty_data (u "stats") = Ok (PDict st)
                        ∧ dict_get (u "total_reported") st = Some (PNum 0))).
  { right. eexists. split; reflexivity. }
  split; [by split |].
  destruct (update_stats_spec empty_data [] 0 3 H1 H2)
    as (data' & st' & Hu & Hst & Hseen & Hrep & _).
  by exists data', st'.
Defined.

(** X4 on an entry of day 80, cleaned on day 100 and again on day 101. *)
Lemma cleanup_compose_witness :
  (seen_of (store_marked_at (day 80))
     = Some [(job_id acme_scored, seen_record (L := sample_lib) (day 80) acme_scored)]
   ∧ Forall (λ kv, is_Some (first_seen_of (L := sample_lib) kv.2))
       [(job_id acme_scored, seen_record (L := sample_lib) (day 80) acme_scored)]
   ∧ Z.abs 30 ≤ MAX_DELTA_DAYS
   ∧ is_datetime (day 100 - 30 * DAY) = true
   ∧ is_datetime (day 101 - 30 * DAY) = true
   ∧ day 100 - 30 * DAY ≤ day 101 - 30 * DAY)
  ∧ ∃ data1 lg1 data2 lg2 lg,
      cleanup (L := sample_lib) (day 100) 30 (store_marked_at (day 80)) = Ok (data1, lg1)
      ∧ cleanup (L := sample_lib) (day 101) 30 data1 = Ok (data2, lg2)
      ∧ cleanup (L := sample_lib) (day 101) 30 (store_marked_at (day 80)) = Ok (data2, lg).
Proof.
  assert (H1 : seen_of (store_marked_at (day 80))
               = Some [(job_id acme_scored,
                        seen_record (L := sample_lib) (day 80) acme_scored)])
    by reflexivity.
  assert (H2 : Forall (λ kv, is_Some (first_seen_of (L := sample_lib) kv.2))
                 [(job_id acme_scored,
                   seen_record (L := sample_lib) (day 80) acme_scored)]).
  { constructor; [| constructor]. exists (day 80). reflexivity. }
  assert (H3 : Z.abs 30 ≤ MAX_DELTA_DAYS) by (unfold MAX_DELTA_DAYS; lia).
  assert (H4 : is_datetime (day 100 - 30 * DAY) = true) by reflexivity.
  assert (H5 : is_datetime (day 101 - 30 * DAY) = true) by reflexivity.
  assert (H6 : day 100 - 30 * DAY ≤ day 101 - 30 * DAY).
  { unfold day, DAY. lia. }
  split; [by split_and! |].
  destruct (cleanup_compose (L := sample_lib) (day 100) 30 (day 101) 30 _ _
              H1 H2 H3 H4 H3 H5 H6)
    as (data1 & lg1 & data2 & lg2 & lg & Hc1 & Hc2 & Hc & _).
  by exists data1, lg1, data2, lg2, lg.
Defined.

(** X5 on a store whose entry has no first_seen, and on one whose entry
    has an aware first_seen. *)
Lemma cleanup_unreadable_entry_witness :
  (seen_of broken_store
     = Some ([] ++ (u "k", PDict [(u "title", PStr (u "Clerk"))]) :: [])
   ∧ Forall (λ kv : str * pyval, is_Some (first_seen_of (L := sample_lib) kv.2)) []
   ∧ first_seen_of (L := sample_lib) (PDict [(u "title", PStr (u "Clerk"))]) = None
   ∧ Z.abs 30 ≤ MAX_DELTA_DAYS
   ∧ is_datetime (day 100 - 30 * DAY) = true)
  ∧ cleanup (L := sample_lib) (day 100) 30 broken_store = Raise KeyError
  ∧ run (L := sample_lib) sample_cfg (clock_from (day 100)) (Document broken_store)
      [acme_posting] = Raise KeyError
  ∧ cleanup (L := sample_lib) (day 100) 30 aware_store = Raise TypeError.
Proof.
  assert (H1 : seen_of broken_store
               = Some ([] ++ (u "k", PDict [(u "title", PStr (u "Clerk"))]) :: []))
    by reflexivity.
  assert (H2 : Forall (λ kv : str * pyval, is_Some (first_seen_of (L := sample_lib) kv.2)) [])
    by constructor.
  assert (H3 : first_seen_of (L := sample_lib)
                 (PDict [(u "title", PStr (u "Clerk"))]) = None) by reflexivity.
  assert (H4 : Z.abs 30 ≤ MAX_DELTA_DAYS) by (unfold MAX_DELTA_DAYS; lia).
  assert (H5 : is_datetime (day 100 - 30 * DAY) = true) by reflexivity.
  split; [by split_and! |].
  destruct (cleanup_unreadable_entry (L := sample_lib) (day 100) 30 broken_store
              [] [] (u "k") _ H1 H2 H3 H4 H5) as (e & Hc & Hrun & He).
  assert (Hk : e = KeyError) by exact He.
  rewrite Hk in Hc, Hrun. split_and!; [exact Hc | apply Hrun |].
  destruct (cleanup_unreadable_entry (L := sample_lib) (day 100) 30 aware_store
              [] [] (u "k") (PDict [(u "first_seen", PStr [2%N; 5%N])])
              eq_refl H2 eq_refl H4 H5) as (e' & Hc' & _ & He').
  assert (Hk' : e' = TypeError) by exact He'.
  by rewrite Hk' in Hc'.
Defined.

(** X6 on an entry of day 70, removed by the cleanup of day 100. *)
Lemma cleanup_log_witness :
  (seen_of (store_marked_at (day 70))
     = Some [(job_id acme_scored, seen_record (L := sample_lib) (day 70) acme_scored)]
   ∧ cleanup (L := sample_lib) (day 100) 30 (store_marked_at (day 70))
     = Ok (empty_data, [InfoCleaned 1 30]))
  ∧ ∃ seen',
      seen_of empty_data = Some seen'
      ∧ ([InfoCleaned 1 30] = [] ↔
         seen' = [(job_id acme_scored,
                   seen_record (L := sample_lib) (day 70) acme_scored)])
      ∧ (length seen' ≤ 1)%nat.
Proof.
  assert (H1 : seen_of (store_marked_at (day 70))
               = Some [(job_id acme_scored,
                        seen_record (L := sample_lib) (day 70) acme_scored)])
    by reflexivity.
  assert (H2 : cleanup (L := sample_lib) (day 100) 30 (store_marked_at (day 70))
               = Ok (empty_data, [InfoCleaned 1 30])) by (vm_compute; reflexivity).
  split; [by split |].
  destruct (cleanup_log (L := sample_lib) (day 100) 30 _ _ _ _ H1 H2)
    as (seen' & Hs & Hiff & _ & Hlen).
  by exists seen'.
Defined.

(** X7 on the first run of the schedule. *)
Lemma run_report_contents_witness :
  run (L := sample_lib) sample_cfg (clock_from (day 100)) Missing [acme_posting]
    = Ok first_run
  ∧ (∀ j, j ∈ report first_run → j ∈ new_jobs first_run)
  ∧ (∀ j, j ∈ new_jobs first_run →
       min_score sample_cfg ≤ relevance_score j ∧ 0 ≤ relevance_score j ≤ 100)
  ∧ NoDup (dedup_key <$> new_jobs first_run).
Proof.
  assert (H : run (L := sample_lib) sample_cfg (clock_from (day 100)) Missing
                [acme_posting] = Ok first_run) by (vm_compute; reflexivity).
  split; [exact H |].
  destruct (run_report_contents (L := sample_lib) _ _ _ _ _ H)
    as (Hrep & Hnew & Hnd & _).
  split_and!; [exact Hrep | | exact Hnd].
  intros j Hj. destruct (Hnew j Hj) as (_ & Hmin & Hrange). by split.
Defined.

(** X8 on the first run of the schedule. *)
Lemma run_bookkeeping_witness :
  run (L := sample_lib) sample_cfg (clock_from (day 100)) Missing [acme_posting]
    = Ok first_run
  ∧ (∀ j, j ∈ new_jobs first_run → is_new (final_data first_run) j = Ok false)
  ∧ getitem (final_data first_run) (u "last_run")
    = Ok (PStr (stamp (clock_from (day 100) (S (length (new_jobs first_run))))))
  ∧ _load (final_file first_run) = Ok (final_data first_run, []).
Proof.
  assert (H : run (L := sample_lib) sample_cfg (clock_from (day 100)) Missing
                [acme_posting] = Ok first_run) by (vm_compute; reflexivity).
  split; [exact H |].
  destruct (run_bookkeeping (L := sample_lib) _ _ _ _ _ H)
    as (seenF & st & _ & Hseen & _ & _ & _ & Hlast & _ & Hload).
  by split_and!.
Defined.

(** X10 on a store that holds the Acme posting. *)
Lemma reset_outcomes_witness :
  (dry_run reset_args = false ∧ reset_flag reset_args = true
   ∧ _load (Document (store_marked_at (day 80))) = Ok (store_marked_at (day 80), []))
  ∧ ∃ data',
      run_args (L := sample_lib) reset_args sample_cfg (clock_from (day 100))
        (Document (store_marked_at (day 80))) failing_scrape
        = Ok (Returned (Document data'))
      ∧ seen_of data' = Some []
      ∧ getitem data' (u "last_run") = Ok (PStr (stamp (day 100 + 0))).
Proof.
  assert (H1 : dry_run reset_args = false) by reflexivity.
  assert (H2 : reset_flag reset_args = true) by reflexivity.
  assert (H3 : _load (Document (store_marked_at (day 80)))
               = Ok (store_marked_at (day 80), [])) by reflexivity.
  split; [by split_and! |].
  destruct (reset_outcomes (L := sample_lib) reset_args sample_cfg
              (clock_from (day 100)) (Document (store_marked_at (day 80)))
              failing_scrape H1 H2) as [Hok _].
  destruct (Hok _ _ H3) as (data' & Hrun & Hseen & Hlast & _).
  by exists data'.
Defined.

(** X12 on a run in which every scraper fails. *)
Lemma scrapers_fail_alone_witness :
  (dry_run plain_args = false ∧ reset_flag plain_args = false)
  ∧ active_scrapers plain_args = Some SCRAPERS
  ∧ ∃ r,
      run_args (L := sample_lib) plain_args sample_cfg (clock_from (day 100))
        Missing failing_scrape = Ok (Completed r)
      ∧ new_jobs r = [] ∧ report r = [].
Proof.
  assert (H1 : dry_run plain_args = false) by reflexivity.
  assert (H2 : reset_flag plain_args = false) by reflexivity.
  split; [by split |].
  destruct (scrapers_fail_alone (L := sample_lib) plain_args sample_cfg
              (clock_from (day 100)) Missing failing_scrape H1 H2)
    as (_ & _ & Hall & Hfail).
  split; [by apply Hall |].
  apply (Hfail (λ name, ex_intro _ OSError eq_refl) SCRAPERS). by apply Hall.
Defined.

(** X16 on the Acme posting found on two sites. *)
Lemma score_reads_text_fields_witness :
  (title acme_posting = title acme_elsewhere
   ∧ company acme_posting = company acme_elsewhere
   ∧ description acme_posting = description acme_elsewhere
   ∧ location acme_posting = location acme_elsewhere
   ∧ salary_info acme_posting = salary_info acme_elsewhere)
  ∧ url acme_posting ≠ url acme_elsewhere
  ∧ relevance_score (score (L := sample_lib) sample_cfg acme_posting)
    = relevance_score (score (L := sample_lib) sample_cfg acme_elsewhere)
  ∧ match_reasons (score (L := sample_lib) sample_cfg acme_posting)
    = match_reasons (score (L := sample_lib) sample_cfg acme_elsewhere).
Proof.
  split; [by split_and! |]. split; [discriminate |].
  destruct (score_reads_text_fields (L := sample_lib) sample_cfg acme_posting
              acme_elsewhere eq_refl eq_refl eq_refl eq_refl eq_refl)
    as (Hs & Hr & _).
  by split.
Defined.

(** X20 on the first run of the schedule, with no cap configured. *)
Lemma report_cap_witness :
  (run (L := sample_lib) sample_cfg (clock_from (day 100)) Missing [acme_posting]
     = Ok first_run
   ∧ output_max_results_per_report sample_cfg = None)
  ∧ StronglySorted (by_score) (report first_run)
  ∧ (length (report first_run) ≤ 50)%nat.
Proof.
  assert (H : run (L := sample_lib) sample_cfg (clock_from (day 100)) Missing
                [acme_posting] = Ok first_run) by (vm_compute; reflexivity).
  split; [by split |].
  destruct (report_cap (L := sample_lib) _ _ _ _ _ H) as (Hs & _ & _ & _ & Hcap).
  split; [exact Hs | by apply Hcap].
Defined.

(** X23 on three queries of which the second fails. *)
Lemma failed_request_cost_witness :
  flaky_fetch (u "b") = FetchRaises
  ∧ queries_loop (indeed_build (L := sample_lib)) flaky_fetch []
      ([u "a"] ++ u "b" :: [u "c"])
    = queries_loop (indeed_build (L := sample_lib)) flaky_fetch [] ([u "a"] ++ [u "c"])
  ∧ pages_strict (indeed_build (L := sample_lib)) 10 flaky_fetch []
      ([u "a"] ++ u "b" :: [u "c"])
    = pages_strict (indeed_build (L := sample_lib)) 10 flaky_fetch [] [u "a"].
Proof.
  assert (H : flaky_fetch (u "b") = FetchRaises) by reflexivity.
  split; [exact H |].
  destruct (failed_request_cost (L := sample_lib) flaky_fetch []
              (indeed_build (L := sample_lib)) 10
              (u "b") [u "a"] [u "c"] [] H) as (_ & _ & _ & Hq & Hp).
  by split.
Defined.

(** X25 on the Acme posting, which has neither salary_info nor a
    description. *)
Lemma salary_rule_needs_text_witness :
  (ascii_lower SPACE = SPACE
   ∧ salary_info acme_posting = [] ∧ description acme_posting = [])
  ∧ salary_signal (L := sample_lib) (salary_text (L := sample_lib) acme_posting) = 0
  ∧ Forall (λ r, rule_no r ≠ 6%nat)
      (match_reasons (score (L := sample_lib) sample_cfg acme_posting)).
Proof.
  split; [by split_and! |].
  exact (salary_rule_needs_text (L := sample_lib) sample_cfg acme_posting
           eq_refl eq_refl eq_refl).
Defined.

(** X26 on a posting without a company. *)
Lemma empty_company_is_target_witness :
  (ascii_lower [] = []
   ∧ company nameless_posting = []
   ∧ target_companies sample_cfg
     = mkCompany (u "Acme Health") (u "https://acme.example/jobs") None :: [])
  ∧ company_signal (L := sample_lib) sample_cfg nameless_posting = 15
  ∧ TargetCompany (u "Acme Health")
    ∈ match_reasons (score (L := sample_lib) sample_cfg nameless_posting).
Proof.
  split; [by split_and! |].
  exact (empty_company_is_target (L := sample_lib) sample_cfg nameless_posting
           (mkCompany (u "Acme Health") (u "https://acme.example/jobs") None) []
           eq_refl eq_refl eq_refl).
Defined.

(** X28 on a page url with a trailing slash and a link with a leading
    one. *)
Lemma careers_url_join_witness :
  starts_with (u "http") (u "/7") = false
  ∧ ∃ (n m : nat) (b p : str),
      u "https://acme.example/jobs/" = b ++ replicate n 47%N
      ∧ u "/7" = replicate m 47%N ++ p
      ∧ last b ≠ Some 47%N
      ∧ head p ≠ Some 47%N
      ∧ careers_url (u "https://acme.example/jobs/") (u "/7") = b ++ u "/" ++ p.
Proof.
  split; [reflexivity |].
  exact (careers_url_join (u "https://acme.example/jobs/") (u "/7") eq_refl).
Defined.
